(** * The SE333 testing-agent tools, embedded and verified

    A shallow embedding of [test_tools.py]: the four tools with logic
    ([run_maven_tests], [summarize_coverage],
    [suggest_junit_tests_for_class], [suggest_boundary_tests]) and the
    four git tools ([git_status], [git_add_all], [git_commit],
    [git_push]) as Rocq functions over an explicit environment (file
    system, subprocess, XML parser, interpreter platform), with Python
    exceptions made explicit in the result type.

    Text.  A Python [str] is modelled by [string]: a sequence of
    characters with code points 0..255, the repertoire of the
    ISO-8859-1 encoding the tool itself reads source files with. *)

From Stdlib Require Import ZArith Ascii String List Lia.
From Stdlib Require Import Floats.SpecFloat.
From Stdlib Require Import Reals Lra.
From stdpp Require Import gmap strings list sorting pretty.

Local Open Scope list_scope.

(** ** Exceptions and outcomes *)

(** The exceptions the tools can meet, all instances of Python's
    [Exception].  [EnvError] is anything the environment raises (an
    [OSError] from the file system or the process launch, a
    [ParseError] from the XML parser), identified by its text. *)
Variant exn :=
  | ValueError (literal : string)
  | OverflowError
  | ZeroDivisionError
  | EnvError (text : string).

(** The result of running a piece of Python: a value, or an exception
    travelling up to the nearest handler. *)
Variant outcome (A : Type) :=
  | Ret (a : A)
  | Raise (e : exn).
Arguments Ret {A} a.
Arguments Raise {A} e.

Definition bind {A B} (m : outcome A) (k : A -> outcome B) : outcome B :=
  match m with
  | Ret a => k a
  | Raise e => Raise e
  end.

#[global] Instance outcome_ret : MRet outcome := fun A a => Ret a.
#[global] Instance outcome_bind : MBind outcome := fun A B k m => bind m k.

(** [try: body except Exception as e: handler e] *)
Definition try_except {A} (body : outcome A) (handler : exn -> outcome A)
  : outcome A :=
  match body with
  | Ret a => Ret a
  | Raise e => handler e
  end.

(** [for x in xs: acc = step acc x], stopping at the first exception. *)
Fixpoint for_each {A S} (xs : list A) (step : S -> A -> outcome S) (acc : S)
  : outcome S :=
  match xs with
  | [] => Ret acc
  | x :: xs' => bind (step acc x) (for_each xs' step)
  end.

(** ** Strings as Python uses them *)

Definition nl : string := String (ascii_of_nat 10) "".

(** [sep.join(parts)] *)
Fixpoint py_join (sep : string) (parts : list string) : string :=
  match parts with
  | [] => ""
  | [p] => p
  | p :: rest => p +:+ sep +:+ py_join sep rest
  end.

Fixpoint str_drop (n : nat) (s : string) : string :=
  match n, s with
  | O, _ => s
  | S n', String _ s' => str_drop n' s'
  | S _, EmptyString => ""
  end.

(** [s[-n:]] for [n > 0]: the last [n] characters, all of [s] when it
    is shorter. *)
Definition py_tail (n : nat) (s : string) : string :=
  str_drop (String.length s - n) s.

(** [a or b] on strings: the empty string is falsy. *)
Definition py_or (a b : string) : string :=
  match a with
  | EmptyString => b
  | _ => a
  end.

(** ** The environment *)

(** What [subprocess.run(..., capture_output=True, text=True,
    check=False)] returns. *)
Record completed_process := CompletedProcess {
  returncode : Z;
  stdout : string;
  stderr : string;
}.

(** An element of an [xml.etree.ElementTree] document. *)
#[warnings="-register-all"]
Inductive element := Element {
  tag : string;
  attrib : gmap string string;
  children : list element;
}.

(** Everything outside the process that the tools consult. *)
Record env := Env {
  os_name : string;                       (* os.name *)
  os_sep : string;                        (* os.sep *)
  module_dir : string;                    (* os.path.dirname(__file__) *)
  path_join : string -> list string -> string;   (* os.path.join(a, *p) *)
  path_exists : string -> bool;           (* os.path.exists *)
  subprocess_run : list string -> string -> outcome completed_process;
                                          (* subprocess.run(argv, cwd=...) *)
  et_parse : string -> outcome element;   (* ET.parse(path).getroot() *)
  read_latin1 : string -> outcome string; (* open(p, "r", encoding="ISO-8859-1").read() *)
  exc_text : exn -> string;               (* str(e) *)
  float_repr : spec_float -> string;      (* repr of a float, as f"{x}" renders it *)
  int_max_str_digits : nat;               (* sys.get_int_max_str_digits(), 0 = no limit *)
}.

Definition PROJECT_ROOT (E : env) : string := module_dir E.
Definition CODEBASE_DIR (E : env) : string :=
  path_join E (PROJECT_ROOT E) ["codebase"].

(** ** run_maven_tests *)

Definition run_maven_tests (E : env) : outcome string :=
  try_except
    (let mvn_cmd := if String.eqb (os_name E) "nt" then "mvn.cmd" else "mvn" in
     result ← subprocess_run E [mvn_cmd; "clean"; "test"; "-B"] (CODEBASE_DIR E);
     Ret (py_or (py_tail 2000 (stdout result)) (py_tail 2000 (stderr result))))
    (fun e => Ret ("Error running mvn test: " +:+ exc_text E e)).

(** ** Paths *)

(** [s.startswith(c)] for a one-character [c] *)
Definition str_starts_with_char (c : ascii) (s : string) : bool :=
  match s with
  | String c' _ => Ascii.eqb c c'
  | EmptyString => false
  end.

(** [s.endswith(c)] for a one-character [c] *)
Fixpoint str_ends_with_char (c : ascii) (s : string) : bool :=
  match s with
  | EmptyString => false
  | String c' EmptyString => Ascii.eqb c c'
  | String _ s' => str_ends_with_char c s'
  end.

(** [posixpath.join(a, *p)], the [os.path.join] of a POSIX host. *)
Fixpoint posix_join (path : string) (p : list string) : string :=
  match p with
  | [] => path
  | b :: p' =>
      if str_starts_with_char "/"%char b then posix_join b p'
      else if String.eqb path "" || str_ends_with_char "/"%char path
           then posix_join (path +:+ b) p'
           else posix_join (path +:+ "/" +:+ b) p'
  end.

(** [old in s] for a one-character [old] *)
Fixpoint str_contains_char (c : ascii) (s : string) : bool :=
  match s with
  | EmptyString => false
  | String c' s' => Ascii.eqb c c' || str_contains_char c s'
  end.

(** [s.replace(old, new)] for a one-character [old] *)
Fixpoint str_replace_char (old : ascii) (new : string) (s : string) : string :=
  match s with
  | EmptyString => ""
  | String c s' =>
      (if Ascii.eqb c old then new else String c "")
        +:+ str_replace_char old new s'
  end.

(** [s.split(sep)] for a one-character [sep]: the pieces between
    separators, never an empty list. *)
Fixpoint str_split_char (sep : ascii) (s : string) : list string :=
  match s with
  | EmptyString => [""]
  | String c s' =>
      if Ascii.eqb c sep then "" :: str_split_char sep s'
      else match str_split_char sep s' with
           | piece :: pieces => String c piece :: pieces
           | [] => [String c ""]
           end
  end.

(** [xs[-1]] on a list of strings that is known not to be empty *)
Definition py_last (xs : list string) : string := List.last xs "".

(** ** Integers: [int(s)] and [str(n)] *)

(** Unicode white space ([str.isspace]), within the Latin-1 range. *)
Definition is_py_space (c : ascii) : bool :=
  let n := nat_of_ascii c in
  ((9 <=? n) && (n <=? 13)) || ((28 <=? n) && (n <=? 32))
  || (n =? 133) || (n =? 160).

(** Characters [int] skips around a literal: ASCII white space, and
    the Unicode white space above the ASCII range, which it first
    turns into spaces.  (The separators 28..31 are white space for
    [str.isspace] but not here.) *)
Definition is_int_space (c : ascii) : bool :=
  let n := nat_of_ascii c in
  ((9 <=? n) && (n <=? 13)) || (n =? 32) || (n =? 133) || (n =? 160).

Definition digit_value (c : ascii) : option Z :=
  let n := nat_of_ascii c in
  if (48 <=? n) && (n <=? 57) then Some (Z.of_nat (n - 48)) else None.

Fixpoint skip_spaces (s : string) : string :=
  match s with
  | String c s' => if is_int_space c then skip_spaces s' else s
  | EmptyString => ""
  end.

(** The digit scan of [PyLong_FromString] in base 10: digits with
    single underscores between them.  [prev_us] tells whether the
    previous character was an underscore.  Returns the value, the
    number of digits and the unread rest; [None] on a doubled or
    trailing underscore. *)
Fixpoint scan_digits (s : string) (acc : Z) (ndigits : nat) (prev_us : bool)
  : option (Z * nat * string) :=
  match s with
  | String c s' =>
      match digit_value c with
      | Some d => scan_digits s' (10 * acc + d)%Z (S ndigits) false
      | None =>
          if Ascii.eqb c "_"%char
          then if prev_us then None else scan_digits s' acc ndigits true
          else if prev_us then None else Some (acc, ndigits, s)
      end
  | EmptyString => if prev_us then None else Some (acc, ndigits, "")
  end.

(** Below this many digits the length limit is never consulted. *)
Definition MAX_STR_DIGITS_THRESHOLD : nat := 640.

(** [int(s)] for a [str]: optional white space, an optional sign, a
    decimal literal, optional white space; [ValueError] otherwise, and
    when the literal has more digits than the interpreter allows. *)
Definition py_int (E : env) (s : string) : outcome Z :=
  let s1 := skip_spaces s in
  let '(negative, s2) :=
    match s1 with
    | String c s' =>
        if Ascii.eqb c "+"%char then (false, s')
        else if Ascii.eqb c "-"%char then (true, s')
        else (false, s1)
    | EmptyString => (false, s1)
    end in
  if str_starts_with_char "_"%char s2 then Raise (ValueError s)
  else match scan_digits s2 0%Z 0 false with
       | None => Raise (ValueError s)
       | Some (v, ndigits, rest) =>
           if (MAX_STR_DIGITS_THRESHOLD <? ndigits)%nat
              && (0 <? int_max_str_digits E)%nat
              && (int_max_str_digits E <? ndigits)%nat
           then Raise (ValueError s)
           else if (ndigits =? 0)%nat then Raise (ValueError s)
           else match skip_spaces rest with
                | EmptyString => Ret (if negative then (- v)%Z else v)
                | _ => Raise (ValueError s)
                end
       end.

(** [f"{n}"] for an [int].  (The interpreter's length limit on this
    direction cannot fire in [summarize_coverage]: the integers it
    formats were read by [int] under the same limit, or are a total
    that has passed the conversion to [float].) *)
Definition py_str_int (n : Z) : string := pretty n.

(** [f"{x}"] for the result of [dict.get]: [None] or a string *)
Definition py_str_opt (x : option string) : string :=
  match x with
  | Some s => s
  | None => "None"
  end.

(** ** Floats: IEEE 754 binary64 as CPython computes with it *)

Definition prec : Z := 53.
Definition emax : Z := 1024.

Definition float_zero : spec_float := S754_zero false.            (* 0.0 *)
Definition float_100 : spec_float :=
  S754_finite false 7036874417766400 (-46).                       (* 100.0 *)

Definition float_is_zero (x : spec_float) : bool :=
  match x with
  | S754_zero _ => true
  | _ => false
  end.

(** The conversion of an [int] operand of a float operation
    ([PyLong_AsDouble]): the nearest double, ties to even, and
    [OverflowError] when that is out of range. *)
Definition float_of_int (n : Z) : outcome spec_float :=
  match binary_normalize prec emax n 0 false with
  | S754_infinity _ => Raise OverflowError
  | x => Ret x
  end.

(** [n * y] for an [int] [n] and a [float] [y] *)
Definition int_mul_float (n : Z) (y : spec_float) : outcome spec_float :=
  x ← float_of_int n;
  Ret (SFmul prec emax x y).

(** [x / n] for a [float] [x] and an [int] [n] *)
Definition float_div_int (x : spec_float) (n : Z) : outcome spec_float :=
  y ← float_of_int n;
  if float_is_zero y then Raise ZeroDivisionError
  else Ret (SFdiv prec emax x y).

(** The integer nearest to [num / den], ties to the even one
    ([den > 0]). *)
Definition round_half_even (num den : Z) : Z :=
  let q := (num / den)%Z in
  match (2 * (num mod den) ?= den)%Z with
  | Lt => q
  | Gt => (q + 1)%Z
  | Eq => if Z.even q then q else (q + 1)%Z
  end.

(** The double nearest to [num / den], ties to even, with sign [s]
    ([num >= 0], [den > 0]): what [strtod] returns. *)
Definition nearest_double (s : bool) (num den : Z) : spec_float :=
  let '(q, e, l) := SFdiv_core_binary prec emax num 0 den 0 in
  binary_round_aux prec emax s q e l.

(** The number of tenths nearest to [m * 2^e], ties to even: the
    digits of the correctly rounded decimal with one place. *)
Definition decimal_tenths (m : positive) (e : Z) : Z :=
  if (0 <=? e)%Z then (10 * Z.pos m * 2 ^ e)%Z
  else round_half_even (10 * Z.pos m) (2 ^ (- e)).

(** [round(x, 1)]: the exact value of [x] is rounded to one decimal
    place, ties to even, and the decimal is converted back to the
    nearest double.  Zeros, infinities and NaN round to themselves. *)
Definition py_round1 (x : spec_float) : outcome spec_float :=
  match x with
  | S754_finite s m e =>
      match nearest_double s (decimal_tenths m e) 10 with
      | S754_infinity _ => Raise OverflowError
      | r => Ret r
      end
  | _ => Ret x
  end.

(** ** summarize_coverage *)

(** [root.findall("counter")]: the children of [root] with that tag,
    in document order. *)
Definition findall (name : string) (root : element) : list element :=
  filter (fun c => tag c = name) (children root).

(** [d.get(key, default)] *)
Definition attr_get (counter : element) (key default_ : string) : string :=
  default default_ (attrib counter !! key).

(** The candidate report paths, in probing order. *)
Definition jacoco_candidates (E : env) : list string :=
  let project_root := module_dir E in
  let codebase_dir := path_join E project_root ["codebase"] in
  [ path_join E codebase_dir ["target"; "site"; "jacoco"; "jacoco.xml"];
    path_join E codebase_dir ["target"; "jacoco.xml"] ].

(** [pct = 0.0 if total == 0 else round(covered * 100.0 / total, 1)] *)
Definition coverage_pct (covered total : Z) : outcome spec_float :=
  if (total =? 0)%Z then Ret float_zero
  else
    scaled ← int_mul_float covered float_100;
    ratio ← float_div_int scaled total;
    py_round1 ratio.

(** One summary line, as the body of the loop over the counters
    builds it. *)
Definition counter_line (E : env) (counter : element) : outcome string :=
  let ctype := attrib counter !! "type" in
  covered ← py_int E (attr_get counter "covered" "0");
  missed ← py_int E (attr_get counter "missed" "0");
  let total := (covered + missed)%Z in
  pct ← coverage_pct covered total;
  Ret ("- " +:+ py_str_opt ctype +:+ ": " +:+ float_repr E pct +:+ "% ("
       +:+ py_str_int covered +:+ "/" +:+ py_str_int total +:+ " covered)").

Definition coverage_header (report_path : string) : string :=
  "JaCoCo coverage summary from: " +:+ report_path.

Definition report_not_found (candidates : list string) : string :=
  "JaCoCo report not found in expected locations." +:+ nl
  +:+ "I looked for:" +:+ nl
  +:+ py_join nl (map (fun p => "  - " +:+ p) candidates)
  +:+ nl +:+ nl
  +:+ "Run `run_maven_tests` or `mvn clean test jacoco:report` first.".

Definition summarize_coverage (E : env) : outcome string :=
  let candidates := jacoco_candidates E in
  match List.find (path_exists E) candidates with
  | None => Ret (report_not_found candidates)
  | Some report_path =>
      try_except
        (root ← et_parse E report_path;
         lines ← for_each (findall "counter" root)
                   (fun lines counter =>
                      line ← counter_line E counter;
                      Ret (lines ++ [line]))
                   [coverage_header report_path];
         Ret (py_join nl lines))
        (fun e => Ret ("Error reading JaCoCo report: " +:+ exc_text E e))
  end.

(** ** Regular expressions, as [re] matches them *)

(** The pattern constructs [method_pattern] is written with.
    Quantifiers range over character sets, as they do there. *)
Inductive regex :=
  | Chr (c : ascii)                   (* a literal character *)
  | Cat (r1 r2 : regex)               (* r1 r2 *)
  | Opt (r : regex)                   (* r?   greedy *)
  | Plus (set : ascii -> bool)        (* [set]+  greedy *)
  | Star (set : ascii -> bool)        (* [set]*  greedy *)
  | Grp (index : nat) (r : regex).    (* ( r ), a capturing group *)

Fixpoint Lit (s : string) : regex :=
  match s with
  | EmptyString => Star (fun _ => false)
  | String c EmptyString => Chr c
  | String c s' => Cat (Chr c) (Lit s')
  end.

(** A match: the text that follows it and the captured groups. *)
Record re_match := ReMatch {
  m_rest : string;
  m_groups : gmap nat string;
}.

(** [m.group(i)] of a group that took part in the match, as the
    second group of [method_pattern] always does *)
Definition group (i : nat) (m : re_match) : string :=
  default "" (m_groups m !! i).

Fixpoint str_take (n : nat) (s : string) : string :=
  match n, s with
  | S n', String c s' => String c (str_take n' s')
  | _, _ => ""
  end.

(** A greedy run of characters of [set]: the longest run first, then
    shorter ones as the continuation [k] rejects them. *)
Fixpoint greedy {R} (set : ascii -> bool) (s : string) (k : string -> option R)
  : option R :=
  match s with
  | String c s' =>
      if set c then
        match greedy set s' k with
        | Some r => Some r
        | None => k s
        end
      else k s
  | EmptyString => k s
  end.

(** The backtracking matcher: [re_exec r s g k] matches [r] at the
    start of [s] with groups [g] so far and hands the rest to [k];
    alternatives are tried in the order of [re]. *)
Fixpoint re_exec (r : regex) (s : string) (g : gmap nat string)
    (k : string -> gmap nat string -> option re_match) : option re_match :=
  match r with
  | Chr c =>
      match s with
      | String c' s' => if Ascii.eqb c c' then k s' g else None
      | EmptyString => None
      end
  | Cat r1 r2 => re_exec r1 s g (fun s' g' => re_exec r2 s' g' k)
  | Opt r1 =>
      match re_exec r1 s g k with
      | Some m => Some m
      | None => k s g
      end
  | Plus set =>
      match s with
      | String c s' => if set c then greedy set s' (fun s'' => k s'' g) else None
      | EmptyString => None
      end
  | Star set => greedy set s (fun s' => k s' g)
  | Grp i r1 =>
      re_exec r1 s g
        (fun s' g' =>
           k s' (<[i := str_take (String.length s - String.length s') s]> g'))
  end.

(** [pattern.match] anchored at the start of [s] *)
Definition re_match_at (r : regex) (s : string) : option re_match :=
  re_exec r s ∅ (fun s' g => Some (ReMatch s' g)).

(** [pattern.finditer(s)]: the matches from left to right, each search
    resuming where the previous match ended.  [skip] counts the
    characters of the last match still to be passed over.  (An empty
    match is followed by a search one character on; [method_pattern]
    has none.) *)
Fixpoint finditer_from (r : regex) (skip : nat) (s : string) : list re_match :=
  match skip, s with
  | S n, String _ s' => finditer_from r n s'
  | S _, EmptyString => []
  | O, _ =>
      match re_match_at r s with
      | Some m =>
          m :: match s with
               | String _ s' =>
                   finditer_from r
                     (String.length s - String.length (m_rest m) - 1) s'
               | EmptyString => []
               end
      | None =>
          match s with
          | String _ s' => finditer_from r 0 s'
          | EmptyString => []
          end
      end
  end.

Definition finditer (r : regex) (s : string) : list re_match :=
  finditer_from r 0 s.

(** The character classes of a [str] pattern, on Latin-1 text. *)

(** [\s]: Unicode white space *)
Definition re_space (c : ascii) : bool := is_py_space c.

(** [\w]: alphanumeric in the Unicode sense, or an underscore *)
Definition re_word (c : ascii) : bool :=
  let n := nat_of_ascii c in
  ((48 <=? n) && (n <=? 57)) || ((65 <=? n) && (n <=? 90))
  || ((97 <=? n) && (n <=? 122)) || (n =? 95)
  || (n =? 170) || (n =? 178) || (n =? 179) || (n =? 181)
  || (n =? 185) || (n =? 186) || ((188 <=? n) && (n <=? 190))
  || ((192 <=? n) && (n <=? 214)) || ((216 <=? n) && (n <=? 246))
  || ((248 <=? n) && (n <=? 255)).

(** [[<>\w\[\]]] *)
Definition re_type_char (c : ascii) : bool :=
  Ascii.eqb c "<"%char || Ascii.eqb c ">"%char || re_word c
  || Ascii.eqb c "["%char || Ascii.eqb c "]"%char.

(** ** suggest_junit_tests_for_class *)

(** [public\s+(static\s+)?[<>\w\[\]]+\s+(\w+)\s*\(] *)
Definition method_pattern : regex :=
  Cat (Lit "public")
 (Cat (Plus re_space)
 (Cat (Opt (Grp 1 (Cat (Lit "static") (Plus re_space))))
 (Cat (Plus re_type_char)
 (Cat (Plus re_space)
 (Cat (Grp 2 (Plus re_word))
 (Cat (Star re_space)
      (Chr "("%char))))))).

(** [set(names)].  The order in which a set is iterated is not
    specified (it changes with the hash seed); [elements] is one such
    order, and [extract_methods] sorts whatever order it gets. *)
Definition py_set (names : list string) : gset string := list_to_set names.

(** [sorted(xs)] on strings: ascending by code points *)
Definition py_sorted (names : list string) : list string :=
  merge_sort String.le names.

(** [sorted(set(m.group(2) for m in method_pattern.finditer(src)))] *)
Definition extract_methods (src : string) : list string :=
  py_sorted (elements (py_set (group 2 <$> finditer method_pattern src))).

(** The file probed for a class name. *)
Definition class_candidate (E : env) (class_name : string) : string :=
  let project_root := module_dir E in
  let codebase_dir := path_join E project_root ["codebase"] in
  let pkg_path :=
    if str_contains_char "."%char class_name
    then str_replace_char "."%char (os_sep E) class_name +:+ ".java"
    else class_name +:+ ".java" in
  path_join E codebase_dir ["src"; "main"; "java"; pkg_path].

Definition simple_name (class_name : string) : string :=
  py_last (str_split_char "."%char class_name).

(** The lines appended for one method name. *)
Definition skeleton_method (class_name mname : string) : list string :=
  [ "    @Test";
    "    public void test_" +:+ mname +:+ "() " +:+ "{";
    "        // TODO: arrange inputs";
    "        // " +:+ class_name +:+ " obj = new " +:+ simple_name class_name +:+ "();";
    "        // Object result = obj." +:+ mname +:+ "(/* args */);";
    "        // assertNotNull(result);";
    "    }";
    "" ].

(** The list [lines] as the tool builds it for a non-empty [methods]. *)
Definition skeleton_lines (class_name : string) (methods : list string)
  : list string :=
  [ "Suggested JUnit 4 test skeletons for " +:+ class_name +:+ ":";
    "";
    "```java";
    "import org.junit.Test;";
    "import static org.junit.Assert.*;";
    "import " +:+ class_name +:+ ";";
    "";
    "public class " +:+ simple_name class_name +:+ "GeneratedTest " +:+ "{";
    "" ]
  ++ concat (map (skeleton_method class_name) methods)
  ++ [ "}"; "```" ].

Definition source_not_found (class_name candidate : string) : string :=
  "Could not find source file for " +:+ class_name +:+ "." +:+ nl
  +:+ "I looked for: " +:+ candidate.

Definition suggest_junit_tests_for_class (E : env) (class_name : string)
  : outcome string :=
  let candidate := class_candidate E class_name in
  if negb (path_exists E candidate) then
    Ret (source_not_found class_name candidate)
  else
    match read_latin1 E candidate with
    | Raise e =>
        Ret ("Error reading " +:+ candidate +:+ ": " +:+ exc_text E e)
    | Ret src =>
        let methods := extract_methods src in
        match methods with
        | [] => Ret ("No public methods found in " +:+ class_name +:+ ".")
        | _ => Ret (py_join nl (skeleton_lines class_name methods))
        end
    end.

(** ** suggest_boundary_tests *)

Definition boundary_header (description : string) : string :=
  "Boundary test ideas for: " +:+ description.

(** The lines appended after the header, in order. *)
Definition boundary_catalog : list string :=
  [ "";
    "1. Typical in-range values";
    "   - Use normal, expected inputs to confirm the main behavior.";
    "";
    "2. Lower boundary";
    "   - Inputs exactly at the minimum allowed (e.g., min, 0, empty string).";
    "   - Check that the method still behaves correctly and does not throw.";
    "";
    "3. Just below lower boundary";
    "   - Inputs slightly below the allowed minimum (e.g., min-1, -1).";
    "   - Expect an exception or clear error behavior if the API specifies it.";
    "";
    "4. Upper boundary";
    "   - Inputs exactly at the maximum allowed (e.g., max, length-1).";
    "   - Ensure no off-by-one errors.";
    "";
    "5. Just above upper boundary";
    "   - Inputs slightly above the maximum allowed (e.g., max+1, length).";
    "   - Expect failure or a well-defined response.";
    "";
    "6. Null / empty / default values";
    "   - Null arguments, empty collections, empty strings, zero-length ranges.";
    "   - Check whether the method allows them or throws.";
    "";
    "7. Degenerate / special cases";
    "   - low == high, start == end, negative ranges, NaN, infinities.";
    "   - For comparisons, equal values and reversed bounds.";
    "";
    "8. Large inputs";
    "   - Very large numbers, long strings, big collections.";
    "   - Look for overflow, performance, or memory issues.";
    "";
    "9. Invalid combinations";
    "   - Start > end, low > high, incompatible flags.";
    "   - Ensure clear error handling or documented behavior.";
    "";
    "Use these categories to design concrete JUnit tests for this API." ].

Definition boundary_ideas (description : string) : list string :=
  boundary_header description :: boundary_catalog.

Definition suggest_boundary_tests (description : string) : outcome string :=
  Ret (py_join nl (boundary_ideas description)).

(** ** Notions the statements are written with *)

(** The process launch of [run_maven_tests]: the Maven executable of
    the host, the goals [clean test] in batch mode, in the code base. *)
Definition maven_launch (E : env) : outcome completed_process :=
  subprocess_run E
    [if String.eqb (os_name E) "nt" then "mvn.cmd" else "mvn";
     "clean"; "test"; "-B"]
    (CODEBASE_DIR E).

(** [t] is the last [n] characters of [s] (all of [s] when it has
    fewer). *)
Definition last_chars (n : nat) (s t : string) : Prop :=
  (exists dropped, s = dropped +:+ t) /\ String.length t = Nat.min n (String.length s).

(** A tool call that ends by returning a string, as opposed to one that
    lets an exception escape. *)
Definition returns_text (r : outcome string) : Prop :=
  exists text, r = Ret text.

(** The titles among the lines of the catalog: the lines that open with
    a digit. *)
Definition is_title (line : string) : bool :=
  match line with
  | String c _ => match digit_value c with Some _ => true | None => false end
  | EmptyString => false
  end.

(** ** What an interpreter prints: [str(e)] and [repr(x)] *)

Fixpoint str_repeat (c : ascii) (n : nat) : string :=
  match n with
  | O => ""
  | S n' => String c (str_repeat c n')
  end.

(** [repr(s)] for a [str].  A character is written as it is when it
    is printable, and escaped otherwise: the backslash and the quote
    in use with a backslash, tab, line feed and carriage return as
    [\t], [\n] and [\r], the others as [\xhh]. *)

Definition hex_digit (n : nat) : ascii :=
  if (n <? 10)%nat then ascii_of_nat (48 + n) else ascii_of_nat (87 + n).

(** [str.isprintable] on one character of the Latin-1 range. *)
Definition is_printable (c : ascii) : bool :=
  let n := nat_of_ascii c in
  ((32 <=? n) && (n <=? 126)) || ((161 <=? n) && negb (n =? 173)).

Definition repr_char (quote c : ascii) : string :=
  let n := nat_of_ascii c in
  if Ascii.eqb c quote || (n =? 92) then String (ascii_of_nat 92) (String c "")
  else if (n =? 9) then String (ascii_of_nat 92) "t"
  else if (n =? 10) then String (ascii_of_nat 92) "n"
  else if (n =? 13) then String (ascii_of_nat 92) "r"
  else if is_printable c then String c ""
  else String (ascii_of_nat 92)
         (String "x" (String (hex_digit (n / 16)) (String (hex_digit (n mod 16)) ""))).

Fixpoint repr_chars (quote : ascii) (s : string) : string :=
  match s with
  | EmptyString => ""
  | String c s' => repr_char quote c +:+ repr_chars quote s'
  end.

(** Single quotes, unless the text holds a single quote and no double
    quote. *)
Definition py_repr_str (s : string) : string :=
  let quote :=
    if str_contains_char "'" s && negb (str_contains_char (ascii_of_nat 34) s)
    then ascii_of_nat 34 else "'"%char in
  String quote (repr_chars quote s) +:+ String quote "".

(** [str(e)] for the [ValueError] that [int(s)] raises on an
    interpreter whose digit limit is [limit]: the literal is shown by
    the first 200 characters of its [repr]; a literal refused for its
    length alone is reported with its number of digits. *)
Definition int_error_text (limit : nat) (s : string) : string :=
  let invalid :=
    "invalid literal for int() with base 10: " +:+ str_take 200 (py_repr_str s) in
  let s1 := skip_spaces s in
  let s2 :=
    match s1 with
    | String c s' =>
        if Ascii.eqb c "+" || Ascii.eqb c "-" then s' else s1
    | EmptyString => s1
    end in
  if str_starts_with_char "_" s2 then invalid
  else match scan_digits s2 0%Z 0 false with
       | Some (_, ndigits, _) =>
           if (MAX_STR_DIGITS_THRESHOLD <? ndigits)%nat
              && (0 <? limit)%nat && (limit <? ndigits)%nat
           then "Exceeds the limit (" +:+ pretty limit
                +:+ " digits) for integer string conversion: value has "
                +:+ pretty ndigits
                +:+ " digits; use sys.set_int_max_str_digits() to increase the limit"
           else invalid
       | None => invalid
       end.

(** [str(e)] for the exceptions of the tools, on an interpreter whose
    digit limit is [limit].  The overflow is that of the conversion of
    an [int] to a [float], the one overflow a counter can cause. *)
Definition py_exc_text (limit : nat) (e : exn) : string :=
  match e with
  | ValueError literal => int_error_text limit literal
  | OverflowError => "int too large to convert to float"
  | ZeroDivisionError => "float division by zero"
  | EnvError text => text
  end.

(** [repr(x)] for a [float]: the shortest decimal that reads back as
    [x]. *)

(** [10^q] as a fraction. *)
Definition pow10_num (q : Z) : Z := if (0 <=? q)%Z then (10 ^ q)%Z else 1%Z.
Definition pow10_den (q : Z) : Z := if (0 <=? q)%Z then 1%Z else (10 ^ (- q))%Z.

(** The number of decimal digits of a positive integer. *)
Definition decimal_length (n : Z) : Z := Z.of_nat (String.length (pretty n)).

(** [floor (log10 (n / d))] for positive [n] and [d]. *)
Definition floor_log10 (n d : Z) : Z :=
  if (d <=? n)%Z then (decimal_length (n / d) - 1)%Z
  else
    let t := decimal_length (d / n) in
    if (d <=? n * 10 ^ (t - 1))%Z then (- (t - 1))%Z else (- t)%Z.

(** Whether the double nearest to [num / den] is [m * 2^e]: whether
    the decimal [num / den] reads back as that double. *)
Definition reads_back (num den : Z) (m : positive) (e : Z) : bool :=
  match nearest_double false num den with
  | S754_finite _ m' e' =>
      if (e <=? e')%Z then (Z.pos m =? Z.pos m' * 2 ^ (e' - e))%Z
      else (Z.pos m * 2 ^ (e - e') =? Z.pos m')%Z
  | _ => false
  end.

(** The shortest decimal that reads back as [m * 2^e], and the one
    nearest to it among those of that length: an integer [c] of digits
    and an exponent [q], for [c * 10^q].  Tried with [p], [p + 1], ...
    significant digits, where [k] is the decimal exponent of the
    value; with [p] digits the candidates are the value cut off after
    [p] digits and the next decimal above. *)
Fixpoint shortest_decimal (fuel : nat) (p : Z) (m : positive) (e : Z) (k : Z)
  : Z * Z :=
  let n := if (0 <=? e)%Z then (Z.pos m * 2 ^ e)%Z else Z.pos m in
  let d := if (0 <=? e)%Z then 1%Z else (2 ^ (- e))%Z in
  let q := (k - p + 1)%Z in
  let lo := ((n * pow10_den q) / (d * pow10_num q))%Z in
  let hi := (lo + 1)%Z in
  let lo_ok := (0 <? lo)%Z && reads_back (lo * pow10_num q) (pow10_den q) m e in
  let hi_ok := reads_back (hi * pow10_num q) (pow10_den q) m e in
  let nearer :=
    match (2 * n * pow10_den q ?= (lo + hi) * pow10_num q * d)%Z with
    | Lt => lo
    | Gt => hi
    | Eq => if Z.even lo then lo else hi
    end in
  match fuel with
  | O => (nearer, q)
  | S fuel' =>
      if lo_ok && hi_ok then (nearer, q)
      else if lo_ok then (lo, q)
      else if hi_ok then (hi, q)
      else shortest_decimal fuel' (p + 1) m e k
  end.

Fixpoint strip_zeros (rev_digits : list ascii) : list ascii :=
  match rev_digits with
  | c :: rest => if Ascii.eqb c "0" then strip_zeros rest else rev_digits
  | [] => []
  end.

Definition strip_trailing_zeros (s : string) : string :=
  string_of_list_ascii (List.rev (strip_zeros (List.rev (list_ascii_of_string s)))).

(** The digits are written in positional notation, with at least one
    decimal, when the decimal point falls within the first sixteen
    digits or at most four places before them, and with an exponent of
    at least two digits otherwise.  At most seventeen digits are
    needed. *)
Definition py_repr_float (x : spec_float) : string :=
  match x with
  | S754_zero s => if s then "-0.0" else "0.0"
  | S754_infinity s => if s then "-inf" else "inf"
  | S754_nan => "nan"
  | S754_finite s m e =>
      let n := if (0 <=? e)%Z then (Z.pos m * 2 ^ e)%Z else Z.pos m in
      let d := if (0 <=? e)%Z then 1%Z else (2 ^ (- e))%Z in
      let k := floor_log10 n d in
      let '(c, q) := shortest_decimal 16 1 m e k in
      let all_digits := pretty c in
      let digits := strip_trailing_zeros all_digits in
      let decpt := (Z.of_nat (String.length all_digits) + q)%Z in
      let ndigits := Z.of_nat (String.length digits) in
      (if s then "-" else "") +:+
      (if (decpt <=? -4)%Z || (16 <? decpt)%Z then
         let exponent := (decpt - 1)%Z in
         let mantissa :=
           match digits with
           | String c1 "" => String c1 ""
           | String c1 rest => String c1 ("." +:+ rest)
           | EmptyString => ""
           end in
         mantissa +:+ "e" +:+ (if (exponent <? 0)%Z then "-" else "+")
           +:+ (if (Z.abs exponent <? 10)%Z then "0" else "")
           +:+ pretty (Z.abs exponent)
       else if (decpt <=? 0)%Z then
         "0." +:+ str_repeat "0" (Z.to_nat (- decpt)) +:+ digits
       else if (ndigits <=? decpt)%Z then
         digits +:+ str_repeat "0" (Z.to_nat (decpt - ndigits)) +:+ ".0"
       else
         str_take (Z.to_nat decpt) digits +:+ "."
           +:+ str_drop (Z.to_nat decpt) digits)
  end.

(** ** Sample environments *)

(** A POSIX host with the module in [/srv/agent], the given text files
    and XML documents on disk, and a Maven that behaves as [mvn]. *)
Definition sample_env (files : gmap string string) (docs : gmap string element)
    (mvn : outcome completed_process) : env :=
  {| os_name := "posix";
     os_sep := "/";
     module_dir := "/srv/agent";
     path_join := posix_join;
     path_exists := fun p => bool_decide (is_Some (files !! p))
                             || bool_decide (is_Some (docs !! p));
     subprocess_run := fun _ _ => mvn;
     et_parse := fun p =>
       match docs !! p with
       | Some root => Ret root
       | None => Raise (EnvError "syntax error: line 1, column 0")
       end;
     read_latin1 := fun p =>
       match files !! p with
       | Some text => Ret text
       | None => Raise (EnvError "[Errno 13] Permission denied")
       end;
     exc_text := py_exc_text 4300;
     float_repr := py_repr_float;
     int_max_str_digits := 4300 |}.

Definition mvn_missing : outcome completed_process :=
  Raise (EnvError "[Errno 2] No such file or directory: 'mvn'").

(** An empty disk. *)
Definition bare_env : env := sample_env ∅ ∅ mvn_missing.

(** A build whose log is 2500 characters long. *)
Definition long_log : string := str_repeat "."%char 2480 +:+ "BUILD SUCCESS [done]".
Definition long_build_env : env :=
  sample_env ∅ ∅ (Ret (CompletedProcess 0 long_log "")).

(** The two report paths the summarizer probes. *)
Definition jacoco_site_report (E : env) : string :=
  path_join E (CODEBASE_DIR E) ["target"; "site"; "jacoco"; "jacoco.xml"].
Definition jacoco_fallback_report (E : env) : string :=
  path_join E (CODEBASE_DIR E) ["target"; "jacoco.xml"].

(** The nine category titles, in the order of the catalog. *)
Definition nine_categories : list string :=
  [ "1. Typical in-range values";
    "2. Lower boundary";
    "3. Just below lower boundary";
    "4. Upper boundary";
    "5. Just above upper boundary";
    "6. Null / empty / default values";
    "7. Degenerate / special cases";
    "8. Large inputs";
    "9. Invalid combinations" ].

(** The source file of the worked example: class [a.b.C] with the
    public methods [foo] and [bar]. *)
Definition C_java : string :=
  py_join nl
    [ "package a.b;";
      "";
      "public class C {";
      "    public int foo(int x) { return x; }";
      "";
      "    public void bar() { }";
      "}";
      "" ].

Definition C_java_path : string := "/srv/agent/codebase/src/main/java/a/b/C.java".

(** The sample host with [C.java] on disk. *)
Definition java_env : env := sample_env {[ C_java_path := C_java ]} ∅ mvn_missing.

Definition backslash : string := String (ascii_of_nat 92) "".

(** Another host for the same file: another platform, another
    separator, another install location. *)
Definition other_host_env : env :=
  {| os_name := "nt";
     os_sep := backslash;
     module_dir := "D:" +:+ backslash +:+ "tools";
     path_join := fun a p => py_join backslash (a :: p);
     path_exists := fun p => true;
     subprocess_run := fun _ _ => mvn_missing;
     et_parse := fun _ => Raise (EnvError "not well-formed");
     read_latin1 := fun _ => Ret C_java;
     exc_text := py_exc_text 0;
     float_repr := py_repr_float;
     int_max_str_digits := 0 |}.

(** A source with two overloads of [area] declared before [add]. *)
Definition overloads_java : string :=
  py_join nl
    [ "public class Shape {";
      "    public double area(double r) { return r * r; }";
      "    public static int area(int w, int h) { return w * h; }";
      "    public int add(int a, int b) { return a + b; }";
      "}" ].

(** The names [method_pattern] captures in [src], in the order of the
    declarations. *)
Definition declared_names (src : string) : list string :=
  group 2 <$> finditer method_pattern src.

(** The skeleton for class [a.b.C] with the methods [bar] and [foo],
    line by line. *)
Definition C_skeleton : list string :=
  [ "Suggested JUnit 4 test skeletons for a.b.C:";
    "";
    "```java";
    "import org.junit.Test;";
    "import static org.junit.Assert.*;";
    "import a.b.C;";
    "";
    "public class CGeneratedTest {";
    "";
    "    @Test";
    "    public void test_bar() {";
    "        // TODO: arrange inputs";
    "        // a.b.C obj = new C();";
    "        // Object result = obj.bar(/* args */);";
    "        // assertNotNull(result);";
    "    }";
    "";
    "    @Test";
    "    public void test_foo() {";
    "        // TODO: arrange inputs";
    "        // a.b.C obj = new C();";
    "        // Object result = obj.foo(/* args */);";
    "        // assertNotNull(result);";
    "    }";
    "";
    "}";
    "```" ].

(** How often a line occurs among the lines of a text. *)
Definition count_lines (line : string) (lines : list string) : nat :=
  length (filter (fun l => l = line) lines).

(** The summary lines of a list of counters, computed in document
    order up to the first exception: what the loop of
    [summarize_coverage] appends. *)
Fixpoint counter_lines (E : env) (counters : list element)
  : outcome (list string) :=
  match counters with
  | [] => Ret []
  | counter :: counters' =>
      line ← counter_line E counter;
      lines ← counter_lines E counters';
      Ret (line :: lines)
  end.

(** The statement that every report that parses yields the header and
    one line per root-level counter, with nothing asked of the
    counters' attributes. *)
Definition one_line_per_counter_unconditionally (E : env) : Prop :=
  forall report_path root,
    List.find (path_exists E) (jacoco_candidates E) = Some report_path ->
    et_parse E report_path = Ret root ->
    exists lines,
      length lines = length (findall "counter" root)
      /\ summarize_coverage E
         = Ret (py_join nl (coverage_header report_path :: lines)).

Definition counter_elt (ctype covered missed : string) : element :=
  Element "counter"
    {[ "type" := ctype; "covered" := covered; "missed" := missed ]} [].

(** A report with three counters at the root and one nested in a
    package. *)
Definition sample_report : element :=
  Element "report" {[ "name" := "codebase" ]}
    [ Element "sessioninfo" {[ "id" := "host-1" ]} [];
      Element "package" {[ "name" := "a/b" ]} [counter_elt "LINE" "1" "1"];
      counter_elt "INSTRUCTION" "45" "5";
      counter_elt "BRANCH" "0" "0";
      counter_elt "LINE" "2" "1" ].

Definition site_report_path : string :=
  "/srv/agent/codebase/target/site/jacoco/jacoco.xml".

Definition report_env : env :=
  sample_env ∅ {[ site_report_path := sample_report ]} mvn_missing.

(** A well-formed report whose one counter is a 401-digit integer. *)
Definition huge_count : string := String "1"%char (str_repeat "0"%char 400).
Definition huge_report : element :=
  Element "report" ∅ [counter_elt "LINE" huge_count "0"].
Definition huge_report_env : env :=
  sample_env ∅ {[ site_report_path := huge_report ]} mvn_missing.

(** A host where the source file exists but cannot be read. *)
Definition unreadable_env : env :=
  {| os_name := "posix";
     os_sep := "/";
     module_dir := "/srv/agent";
     path_join := posix_join;
     path_exists := fun _ => true;
     subprocess_run := fun _ _ => mvn_missing;
     et_parse := fun _ => Raise (EnvError "syntax error: line 1, column 0");
     read_latin1 := fun _ => Raise (EnvError "[Errno 13] Permission denied");
     exc_text := py_exc_text 4300;
     float_repr := py_repr_float;
     int_max_str_digits := 4300 |}.

(** ** Notions the float properties are written with *)

(** The second step of rounding, after the mantissa was rounded. *)
Definition round_finish (m1 e1 : Z) : spec_float :=
  let '(mrs, e2) := shr_fexp prec emax m1 e1 loc_Exact in
  match shr_m mrs with
  | Z0 => S754_zero false
  | Zpos m => if (e2 <=? emax - prec)%Z then S754_finite false m e2
              else S754_infinity false
  | Zneg _ => S754_nan
  end.

Definition bpow (e : Z) : R := powerRZ 2 e.

(** The real number a mantissa and an exponent stand for. *)
Definition F2R (m e : Z) : R := (IZR m * bpow e)%R.

Definition eps : R := (/ 4503599627370496)%R.

(** The largest finite double, [(2^53 - 1) * 2^971]. *)
Definition max_double : R := F2R (2 ^ 53 - 1) 971.

(** [0.0 <= x <= 100.0] *)
Definition pct_in_range (x : spec_float) : bool :=
  SFleb float_zero x && SFleb x float_100.

(** Whether [n] tenths convert to a double in the range of a
    percentage. *)
Definition tenths_in_range (n : Z) : bool :=
  match nearest_double false n 10 with
  | S754_infinity _ => false
  | r => pct_in_range r
  end.

(** A counter of 1 followed by 307 zeros. *)
Definition astronomic_count : Z := 10 ^ 307.

(** A counter as a coverage tool writes it: [covered] and [missed]
    are non-negative integers, with a total below [2^1017]. *)
Definition plain_counter (E : env) (counter : element) : Prop :=
  exists covered missed : Z,
    py_int E (attr_get counter "covered" "0") = Ret covered
    /\ py_int E (attr_get counter "missed" "0") = Ret missed
    /\ (0 <= covered)%Z /\ (0 <= missed)%Z
    /\ (covered + missed < 2 ^ 1017)%Z.

(** ** The git tools *)

(** The host of the git tools: the environment of the other tools, and
    [subprocess.run(argv, capture_output=True, text=True, check=False)]
    called without [cwd], which runs the command in the working
    directory of the server. *)
Record host := Host {
  host_env :> env;
  subprocess_run_here : list string -> outcome completed_process;
}.

Definition _project_root (E : env) : string := module_dir E.

Definition git_status (H : host) : outcome string :=
  let root := _project_root H in
  try_except
    (result ← subprocess_run_here H ["git"; "-C"; root; "status"];
     Ret (py_or (stdout result) (stderr result)))
    (fun e => Ret ("Error running git status: " +:+ exc_text H e)).

Definition git_add_all (H : host) : outcome string :=
  let root := _project_root H in
  try_except
    (result ← subprocess_run_here H ["git"; "-C"; root; "add"; "-A"];
     Ret (py_or (py_or (stdout result) (stderr result)) "git add -A completed."))
    (fun e => Ret ("Error running git add -A: " +:+ exc_text H e)).

Definition git_commit (H : host) (message : string) : outcome string :=
  let root := _project_root H in
  try_except
    (result ← subprocess_run_here H ["git"; "-C"; root; "commit"; "-m"; message];
     Ret (py_or (stdout result) (stderr result)))
    (fun e => Ret ("Error running git commit: " +:+ exc_text H e)).

(** [git_push(remote="origin", branch="main")]: an argument the caller
    leaves out takes its default. *)
Definition git_push (H : host) (remote branch : option string) : outcome string :=
  let remote := default "origin" remote in
  let branch := default "main" branch in
  let root := _project_root H in
  try_except
    (result ← subprocess_run_here H ["git"; "-C"; root; "push"; remote; branch];
     Ret (py_or (stdout result) (stderr result)))
    (fun e => Ret ("Error running git push: " +:+ exc_text H e)).

(** The command line of each git tool. *)
Definition git_argv (H : host) (args : list string) : list string :=
  "git" :: "-C" :: module_dir H :: args.

(** The sample host with a git that behaves as [git]. *)
Definition git_host (git : outcome completed_process) : host :=
  Host bare_env (fun _ => git).

(** A git that is not installed. *)
Definition git_missing : outcome completed_process :=
  Raise (EnvError "[Errno 2] No such file or directory: 'git'").

(** A git that stages a file and says so, one that fails with a
    message, and one that prints nothing. *)
Definition git_verbose : outcome completed_process :=
  Ret (CompletedProcess 0 "add 'notes.txt'" "warning: in the working copy").
Definition git_fatal : outcome completed_process :=
  Ret (CompletedProcess 128 "" "fatal: not a git repository").
Definition git_silent : outcome completed_process :=
  Ret (CompletedProcess 0 "" "").

(** ** More notions the statements are written with *)

(** Every character of [s] is in the class [p]. *)
Fixpoint str_forall (p : ascii -> bool) (s : string) : bool :=
  match s with
  | EmptyString => true
  | String c s' => p c && str_forall p s'
  end.

(** A non-empty run of characters of the class [p]. *)
Definition run1 (p : ascii -> bool) (s : string) : Prop :=
  s <> "" /\ str_forall p s = true.

(** A disk where the site report is not XML and the fallback report
    is the sample report. *)
Definition fallback_report_path : string :=
  "/srv/agent/codebase/target/jacoco.xml".
Definition broken_site_env : env :=
  sample_env {[ site_report_path := "not a report" ]}
             {[ fallback_report_path := sample_report ]} mvn_missing.

(** A disk with the sample report at the fallback path only. *)
Definition fallback_only_env : env :=
  sample_env ∅ {[ fallback_report_path := sample_report ]} mvn_missing.

(** The line that declares the test method of [mname]. *)
Definition test_method_line (mname : string) : string :=
  "    public void test_" +:+ mname +:+ "() " +:+ "{".

(** The sample host with the source of [Shape] on disk. *)
Definition shape_env : env :=
  sample_env {[ "/srv/agent/codebase/src/main/java/Shape.java" := overloads_java ]}
             ∅ mvn_missing.

(** The characters of an integer literal as [int] takes it: digits,
    the underscore between digits, a sign, and white space around. *)
Definition is_int_char (c : ascii) : bool :=
  match digit_value c with
  | Some _ => true
  | None => Ascii.eqb c "_" || Ascii.eqb c "+" || Ascii.eqb c "-" || is_int_space c
  end.

(** A counter as JaCoCo writes it: [covered] and [missed] are the
    decimal numerals of two non-negative integers, with a total below
    [2^1017]. *)
Definition numeral_counter (counter : element) (covered missed : Z) : Prop :=
  attrib counter !! "covered" = Some (py_str_int covered)
  /\ attrib counter !! "missed" = Some (py_str_int missed)
  /\ (0 <= covered)%Z /\ (0 <= missed)%Z
  /\ (covered + missed < 2 ^ 1017)%Z.

(** A report whose second counter holds a fraction. *)
Definition fraction_report : element :=
  Element "report" ∅
    [counter_elt "LINE" "45" "5"; counter_elt "BRANCH" "4.5" "1"].
Definition fraction_report_env : env :=
  sample_env ∅ {[ site_report_path := fraction_report ]} mvn_missing.

(** The texts [method_pattern] matches, written out, with the name
    its second group captures: the word [public], white space, an
    optional [static] with white space, a run of type characters,
    white space, the name (a run of word characters), optional white
    space and an opening parenthesis. *)
Definition declaration_text (text name : string) : Prop :=
  exists ws1 modifier rtype ws2 ws3,
    text = "public" +:+ ws1 +:+ modifier +:+ rtype +:+ ws2 +:+ name +:+ ws3 +:+ "("
    /\ run1 re_space ws1
    /\ (modifier = "" \/ exists ws, modifier = "static" +:+ ws /\ run1 re_space ws)
    /\ run1 re_type_char rtype
    /\ run1 re_space ws2
    /\ run1 re_word name
    /\ str_forall re_space ws3 = true.

(** [src] holds a declaration of [name]: a text of that shape
    somewhere in it. *)
Definition declares (src name : string) : Prop :=
  exists before text after,
    src = before +:+ text +:+ after /\ declaration_text text name.

(** A source without a method: a class with two fields. *)
Definition fields_java : string :=
  py_join nl
    [ "public class Point {";
      "    public int x;";
      "    public static final int ORIGIN = 0;";
      "}" ].
Definition fields_env : env :=
  sample_env {[ "/srv/agent/codebase/src/main/java/Point.java" := fields_java ]}
             ∅ mvn_missing.

(** [s.startswith(p)] *)
Fixpoint str_starts_with (p s : string) : bool :=
  match p, s with
  | EmptyString, _ => true
  | String a p', String b s' => Ascii.eqb a b && str_starts_with p' s'
  | String _ _, EmptyString => false
  end.

(** [text.split("\n")]: the lines of a text. *)
Definition newline : ascii := ascii_of_nat 10.
Definition str_lines (text : string) : list string :=
  str_split_char newline text.

(** Every title among [lines] is followed by a line of guidance, a
    line that opens with three spaces and a dash. *)
Fixpoint titles_have_guidance (lines : list string) : bool :=
  match lines with
  | [] => true
  | line :: rest =>
      (if is_title line
       then match rest with
            | guidance :: _ => str_starts_with "   - " guidance
            | [] => false
            end
       else true)
      && titles_have_guidance rest
  end.

(** The directory the sources are kept in: [src/main/java] in the code
    base. *)
Definition source_root (E : env) : string :=
  path_join E (CODEBASE_DIR E) ["src"; "main"; "java"].

(** The file probed for [class_name] lies in the source directory: its
    path opens with the path of that directory and a separator. *)
Definition probed_under_source_root (E : env) (class_name : string) : bool :=
  str_starts_with (source_root E +:+ os_sep E) (class_candidate E class_name).

(** The directory of the code base on a POSIX host whose module lies
    in [root]: [posixpath.join(root, "codebase")]. *)
Definition posix_codebase (root : string) : string :=
  if String.eqb root "" || str_ends_with_char "/"%char root
  then root +:+ "codebase"
  else root +:+ "/codebase".

(** A POSIX host where the module was loaded from the working
    directory: [os.path.dirname(__file__)] is the empty string. *)
Definition cwd_env : env :=
  {| os_name := "posix";
     os_sep := "/";
     module_dir := "";
     path_join := posix_join;
     path_exists := fun _ => false;
     subprocess_run := fun _ _ => mvn_missing;
     et_parse := fun _ => Raise (EnvError "syntax error: line 1, column 0");
     read_latin1 := fun _ => Raise (EnvError "[Errno 2] No such file or directory");
     exc_text := py_exc_text 4300;
     float_repr := py_repr_float;
     int_max_str_digits := 4300 |}.

(* ================================================================== *)
(** * Properties *)
(* ================================================================== *)

(** ** Strings *)

Lemma str_app_cons c s t : String c s +:+ t = String c (s +:+ t).
Proof. reflexivity. Qed.

Lemma str_app_assoc s t u : (s +:+ t) +:+ u = s +:+ (t +:+ u).
Proof.
  induction s as [|c s IH]; [reflexivity|].
  rewrite !str_app_cons. f_equal. exact IH.
Qed.

Lemma str_app_nil_r s : s +:+ "" = s.
Proof.
  induction s as [|c s IH]; [reflexivity|].
  rewrite str_app_cons. f_equal. exact IH.
Qed.

Lemma str_app_length s t :
  String.length (s +:+ t) = String.length s + String.length t.
Proof.
  induction s as [|c s IH]; [reflexivity|].
  rewrite str_app_cons. simpl. f_equal. exact IH.
Qed.

Lemma str_drop_length n s : String.length (str_drop n s) = String.length s - n.
Proof.
  revert s; induction n as [|n IH]; intros [|c s]; simpl; auto with lia.
Qed.

Lemma str_drop_suffix n s : exists dropped, s = dropped +:+ str_drop n s.
Proof.
  revert s; induction n as [|n IH]; intros s.
  - exists "". destruct s; reflexivity.
  - destruct s as [|c s]; [exists ""; reflexivity|].
    destruct (IH s) as [d Hd]. exists (String c d).
    change (String c s = String c (d +:+ str_drop n s)). f_equal. exact Hd.
Qed.

Lemma py_tail_last_chars n s : last_chars n s (py_tail n s).
Proof.
  split; [apply str_drop_suffix|].
  unfold py_tail. rewrite str_drop_length. lia.
Qed.

Lemma py_tail_nonempty n s : s <> "" -> py_tail (S n) s <> "".
Proof.
  intros Hs Ht.
  assert (Hlen : String.length (py_tail (S n) s) = 0) by (rewrite Ht; reflexivity).
  unfold py_tail in Hlen. rewrite str_drop_length in Hlen.
  destruct s as [|c s]; [destruct Hs; reflexivity|]. simpl in Hlen. lia.
Qed.

Lemma py_or_left a b : a <> "" -> py_or a b = a.
Proof. intros H. destruct a; [destruct H; reflexivity|reflexivity]. Qed.

Lemma str_contains_char_app c a b :
  str_contains_char c (a +:+ b) = str_contains_char c a || str_contains_char c b.
Proof.
  induction a as [|x a IH]; [reflexivity|].
  rewrite str_app_cons. cbn [str_contains_char]. rewrite IH, orb_assoc.
  reflexivity.
Qed.

Lemma str_split_char_absent c s :
  str_contains_char c s = false -> str_split_char c s = [s].
Proof.
  induction s as [|c' s IH]; [reflexivity|]. simpl.
  rewrite (Ascii.eqb_sym c c').
  destruct (Ascii.eqb c' c); [discriminate|].
  simpl. intros H. rewrite IH by exact H. reflexivity.
Qed.

(** ** run_maven_tests *)

(** C2.  [run_maven_tests] returns the last 2000 characters of the
    build's standard output when that is not empty, the last 2000
    characters of its standard error when standard output is empty, and
    an error string when the launch raises; a non-empty standard output
    longer than 2000 characters is cut to exactly its final 2000. *)
Theorem run_maven_tests_tail (E : env) :
  match maven_launch E with
  | Ret result =>
      (stdout result <> "" ->
         exists tail, run_maven_tests E = Ret tail
                      /\ last_chars 2000 (stdout result) tail)
      /\ (stdout result = "" ->
         exists tail, run_maven_tests E = Ret tail
                      /\ last_chars 2000 (stderr result) tail)
      /\ (2000 < String.length (stdout result) ->
         exists dropped tail,
           run_maven_tests E = Ret tail
           /\ stdout result = dropped +:+ tail
           /\ String.length tail = 2000)
  | Raise e =>
      run_maven_tests E = Ret ("Error running mvn test: " +:+ exc_text E e)
  end.
Proof.
  unfold run_maven_tests, maven_launch.
  destruct (subprocess_run E _ _) as [result|e]; simpl; [|reflexivity].
  assert (Hne : stdout result <> "" ->
                py_or (py_tail 2000 (stdout result)) (py_tail 2000 (stderr result))
                = py_tail 2000 (stdout result)).
  { intros Hs. apply py_or_left, py_tail_nonempty, Hs. }
  split; [|split].
  - intros Hs. eexists; split; [rewrite Hne by exact Hs; reflexivity|].
    apply py_tail_last_chars.
  - intros Hs. rewrite Hs. simpl. eexists; split; [reflexivity|].
    apply py_tail_last_chars.
  - intros Hlen.
    assert (Hs : stdout result <> "") by (intros H0; rewrite H0 in Hlen; simpl in Hlen; lia).
    destruct (py_tail_last_chars 2000 (stdout result)) as [[d Hd] Hl].
    exists d, (py_tail 2000 (stdout result)).
    rewrite Hne by exact Hs. repeat split; [exact Hd|lia].
Qed.

Lemma run_maven_tests_tail_witness :
  exists dropped tail,
    run_maven_tests long_build_env = Ret tail
    /\ long_log = dropped +:+ tail
    /\ String.length tail = 2000.
Proof.
  pose proof (run_maven_tests_tail long_build_env) as H.
  change (maven_launch long_build_env)
    with (Ret (A := completed_process) (CompletedProcess 0 long_log "")) in H.
  destruct H as (_ & _ & H).
  apply H. vm_compute. lia.
Defined.

(** ** suggest_boundary_tests *)

Lemma py_join_cons sep line rest :
  rest <> [] -> py_join sep (line :: rest) = line +:+ sep +:+ py_join sep rest.
Proof. destruct rest; [intros []; reflexivity|reflexivity]. Qed.

Lemma str_split_char_sep c piece rest :
  str_contains_char c piece = false ->
  str_split_char c (piece +:+ String c rest) = piece :: str_split_char c rest.
Proof.
  induction piece as [|a piece IH]; intros Hno.
  - change ("" +:+ String c rest) with (String c rest).
    cbn [str_split_char]. rewrite Ascii.eqb_refl. reflexivity.
  - cbn [str_contains_char] in Hno. apply orb_false_iff in Hno as [Ha Hno].
    rewrite str_app_cons. cbn [str_split_char].
    rewrite (Ascii.eqb_sym a c), Ha, (IH Hno). reflexivity.
Qed.

(** Lines without a line feed, joined with line feeds, are the lines
    of the text. *)
Lemma str_lines_join lines :
  lines <> [] ->
  Forall (fun line => str_contains_char newline line = false) lines ->
  str_lines (py_join nl lines) = lines.
Proof.
  unfold str_lines. intros Hne Hall.
  induction Hall as [|l ls Hl Hls IH]; [destruct Hne; reflexivity|].
  destruct ls as [|l' ls'].
  - cbn [py_join]. apply str_split_char_absent, Hl.
  - rewrite py_join_cons by discriminate.
    change (nl +:+ py_join nl (l' :: ls'))
      with (String newline (py_join nl (l' :: ls'))).
    rewrite str_split_char_sep by exact Hl. f_equal. apply IH. discriminate.
Qed.

Lemma boundary_ideas_lines d :
  str_contains_char newline d = false ->
  Forall (fun line => str_contains_char newline line = false) (boundary_ideas d).
Proof.
  intros Hd. unfold boundary_ideas. constructor.
  - unfold boundary_header. rewrite str_contains_char_app, Hd. reflexivity.
  - apply Forall_forall. intros line Hin.
    assert (Hall : forallb (fun l => negb (str_contains_char newline l))
                     boundary_catalog = true)
      by (vm_compute; reflexivity).
    rewrite forallb_forall in Hall. apply negb_true_iff, Hall.
    apply list_elem_of_In, Hin.
Qed.

Lemma suggest_boundary_tests_text d :
  suggest_boundary_tests d
  = Ret ("Boundary test ideas for: " +:+ d +:+ nl +:+ py_join nl boundary_catalog).
Proof.
  unfold suggest_boundary_tests, boundary_ideas, boundary_header.
  rewrite py_join_cons by discriminate. rewrite !str_app_assoc. reflexivity.
Qed.

Lemma suggest_boundary_tests_lines d :
  str_contains_char newline d = false ->
  exists text,
    suggest_boundary_tests d = Ret text
    /\ str_lines text = ("Boundary test ideas for: " +:+ d) :: boundary_catalog.
Proof.
  intros Hd. eexists. split; [reflexivity|].
  apply str_lines_join; [discriminate|]. apply boundary_ideas_lines, Hd.
Qed.

(** C8.  The text [suggest_boundary_tests] returns for a description is
    the header, which carries the description verbatim, a line feed,
    and one fixed text that does not depend on the description: so the
    outputs for two descriptions differ in the header and nowhere
    else.  For descriptions of one line, the lines of the two outputs
    are the header line and then the same list of lines.  The titles
    among those lines are the nine categories, in order, and each
    title is followed by a line of guidance. *)
Theorem boundary_tests_differ_in_header_only (d1 d2 : string) :
  suggest_boundary_tests d1
  = Ret ("Boundary test ideas for: " +:+ d1 +:+ nl +:+ py_join nl boundary_catalog)
  /\ suggest_boundary_tests d2
     = Ret ("Boundary test ideas for: " +:+ d2 +:+ nl
            +:+ py_join nl boundary_catalog)
  /\ (str_contains_char newline d1 = false ->
      str_contains_char newline d2 = false ->
      exists text1 text2,
        suggest_boundary_tests d1 = Ret text1
        /\ suggest_boundary_tests d2 = Ret text2
        /\ str_lines text1
           = ("Boundary test ideas for: " +:+ d1) :: boundary_catalog
        /\ str_lines text2
           = ("Boundary test ideas for: " +:+ d2) :: boundary_catalog)
  /\ filter (fun line => is_title line = true) boundary_catalog = nine_categories
  /\ titles_have_guidance boundary_catalog = true.
Proof.
  split; [apply suggest_boundary_tests_text|].
  split; [apply suggest_boundary_tests_text|].
  split; [|split; vm_compute; reflexivity].
  intros H1 H2.
  destruct (suggest_boundary_tests_lines d1 H1) as (t1 & Ht1 & Hl1).
  destruct (suggest_boundary_tests_lines d2 H2) as (t2 & Ht2 & Hl2).
  exists t1, t2. auto.
Qed.

Lemma boundary_tests_differ_in_header_only_witness :
  exists text1 text2,
    suggest_boundary_tests "Range.between(low, high) with integers" = Ret text1
    /\ suggest_boundary_tests "StringUtils.substring(str, start, end)" = Ret text2
    /\ str_lines text1
       = "Boundary test ideas for: Range.between(low, high) with integers"
         :: boundary_catalog
    /\ str_lines text2
       = "Boundary test ideas for: StringUtils.substring(str, start, end)"
         :: boundary_catalog.
Proof.
  destruct (boundary_tests_differ_in_header_only
              "Range.between(low, high) with integers"
              "StringUtils.substring(str, start, end)") as (_ & _ & H & _).
  apply H; reflexivity.
Defined.

(** ** summarize_coverage: the report is missing *)

(** C6.  When neither candidate report exists, [summarize_coverage]
    returns, as text, a message that lists both candidate paths and
    tells the caller to run the build or the report step first. *)
Theorem coverage_report_missing (E : env)
    (Hsite : path_exists E (jacoco_site_report E) = false)
    (Hfallback : path_exists E (jacoco_fallback_report E) = false) :
  summarize_coverage E
  = Ret ("JaCoCo report not found in expected locations." +:+ nl
         +:+ "I looked for:" +:+ nl
         +:+ "  - " +:+ jacoco_site_report E +:+ nl
         +:+ "  - " +:+ jacoco_fallback_report E +:+ nl +:+ nl
         +:+ "Run `run_maven_tests` or `mvn clean test jacoco:report` first.").
Proof.
  unfold summarize_coverage, jacoco_candidates.
  change (path_join E (path_join E (module_dir E) ["codebase"])
            ["target"; "site"; "jacoco"; "jacoco.xml"])
    with (jacoco_site_report E).
  change (path_join E (path_join E (module_dir E) ["codebase"])
            ["target"; "jacoco.xml"])
    with (jacoco_fallback_report E).
  simpl. rewrite Hsite, Hfallback.
  unfold report_not_found. simpl.
  f_equal. rewrite !str_app_assoc. reflexivity.
Qed.

Lemma coverage_report_missing_witness :
  summarize_coverage bare_env
  = Ret ("JaCoCo report not found in expected locations." +:+ nl
         +:+ "I looked for:" +:+ nl
         +:+ "  - /srv/agent/codebase/target/site/jacoco/jacoco.xml" +:+ nl
         +:+ "  - /srv/agent/codebase/target/jacoco.xml" +:+ nl +:+ nl
         +:+ "Run `run_maven_tests` or `mvn clean test jacoco:report` first.").
Proof.
  exact (coverage_report_missing bare_env eq_refl eq_refl).
Defined.

(** ** suggest_junit_tests_for_class: the class file is missing *)

Lemma str_replace_char_absent c new s :
  str_contains_char c s = false -> str_replace_char c new s = s.
Proof.
  induction s as [|c' s IH]; [reflexivity|]. simpl.
  rewrite (Ascii.eqb_sym c c').
  destruct (Ascii.eqb c' c); [discriminate|].
  simpl. intros H. rewrite IH by exact H. reflexivity.
Qed.

Lemma class_candidate_eq E class_name :
  class_candidate E class_name
  = path_join E (CODEBASE_DIR E)
      ["src"; "main"; "java";
       str_replace_char "."%char (os_sep E) class_name +:+ ".java"].
Proof.
  unfold class_candidate, CODEBASE_DIR, PROJECT_ROOT.
  destruct (str_contains_char "." class_name) eqn:Hdot; [reflexivity|].
  rewrite str_replace_char_absent by exact Hdot. reflexivity.
Qed.

(** ** The probed file on a POSIX host, and the not-found message *)

Lemma str_ends_with_char_app c s a t :
  str_ends_with_char c (s +:+ String a t) = str_ends_with_char c (String a t).
Proof.
  induction s as [|b s IH]; [reflexivity|].
  rewrite str_app_cons.
  change (str_ends_with_char c (String b (s +:+ String a t)))
    with (match s +:+ String a t with
          | EmptyString => Ascii.eqb c b
          | _ => str_ends_with_char c (s +:+ String a t)
          end).
  destruct (s +:+ String a t) eqn:Happ; [|exact IH].
  destruct s; discriminate.
Qed.

Lemma str_app_nonempty s a t : String.eqb (s +:+ String a t) "" = false.
Proof. destruct s; reflexivity. Qed.

Lemma posix_join_app path p1 p2 :
  posix_join path (p1 ++ p2) = posix_join (posix_join path p1) p2.
Proof.
  revert path; induction p1 as [|b p1 IH]; intros path; [reflexivity|].
  simpl. destruct (str_starts_with_char "/" b); [apply IH|].
  destruct (String.eqb path "" || str_ends_with_char "/" path); apply IH.
Qed.

(** One step of [posixpath.join]: a name that does not open with a
    separator goes under a directory whose path does not end with
    one, after a separator. *)
Lemma posix_join_step dir c w name rest :
  str_starts_with_char "/"%char name = false ->
  str_ends_with_char "/"%char (String c w) = false ->
  posix_join (dir +:+ String c w) (name :: rest)
  = posix_join (dir +:+ String c (w +:+ "/" +:+ name)) rest.
Proof.
  intros Hrel Hend. cbn [posix_join].
  rewrite Hrel, str_app_nonempty, str_ends_with_char_app, Hend.
  cbn [orb]. rewrite str_app_assoc, str_app_cons. reflexivity.
Qed.

Lemma package_path_relative class_name :
  str_starts_with_char "."%char class_name = false ->
  str_starts_with_char "/"%char class_name = false ->
  str_starts_with_char "/"%char
    (str_replace_char "."%char "/" class_name +:+ ".java") = false.
Proof.
  destruct class_name as [|c s]; [reflexivity|].
  unfold str_starts_with_char at 1 2. intros Hdot Hsep.
  cbn [str_replace_char]. rewrite (Ascii.eqb_sym c "."), Hdot.
  rewrite !str_app_cons. exact Hsep.
Qed.

Lemma str_starts_with_app p s : str_starts_with p (p +:+ s) = true.
Proof.
  induction p as [|c p IH]; [reflexivity|].
  rewrite str_app_cons. cbn [str_starts_with]. rewrite Ascii.eqb_refl. exact IH.
Qed.

(** What was replaced is gone. *)
Lemma str_replace_char_no_old old new s :
  str_contains_char old new = false ->
  str_contains_char old (str_replace_char old new s) = false.
Proof.
  intros Hnew. induction s as [|c s IH]; [reflexivity|].
  cbn [str_replace_char]. rewrite str_contains_char_app, IH, orb_false_r.
  destruct (Ascii.eqb c old) eqn:Hc; [exact Hnew|].
  cbn [str_contains_char]. rewrite (Ascii.eqb_sym old c), Hc. reflexivity.
Qed.

Lemma posix_codebase_form root :
  exists dir, posix_codebase root = dir +:+ "e".
Proof.
  unfold posix_codebase.
  destruct (String.eqb root "" || str_ends_with_char "/" root).
  - exists (root +:+ "codebas"). rewrite str_app_assoc. reflexivity.
  - exists (root +:+ "/codebas"). rewrite str_app_assoc. reflexivity.
Qed.

Lemma CODEBASE_DIR_posix E :
  path_join E = posix_join -> CODEBASE_DIR E = posix_codebase (module_dir E).
Proof.
  intros Hjoin. unfold CODEBASE_DIR, PROJECT_ROOT, posix_codebase. rewrite Hjoin.
  cbn [posix_join]. change (str_starts_with_char "/" "codebase") with false.
  cbv iota.
  destruct (String.eqb (module_dir E) "" || str_ends_with_char "/" (module_dir E));
    reflexivity.
Qed.

Lemma source_root_posix E :
  path_join E = posix_join ->
  source_root E = posix_codebase (module_dir E) +:+ "/src/main/java".
Proof.
  intros Hjoin. unfold source_root.
  rewrite (CODEBASE_DIR_posix E Hjoin), Hjoin.
  destruct (posix_codebase_form (module_dir E)) as [dir ->].
  rewrite !posix_join_step by reflexivity. cbn [posix_join].
  rewrite !str_app_assoc. reflexivity.
Qed.

(** On a POSIX host the file probed for a class name that opens with
    neither a dot nor a separator is the package path, after a
    separator, in the source directory. *)
Lemma class_candidate_under_root E class_name :
  path_join E = posix_join -> os_sep E = "/" ->
  str_starts_with_char "."%char class_name = false ->
  str_starts_with_char "/"%char class_name = false ->
  class_candidate E class_name
  = source_root E +:+ "/" +:+ str_replace_char "."%char "/" class_name +:+ ".java".
Proof.
  intros Hjoin Hsep Hdot Hslash.
  rewrite (source_root_posix E Hjoin).
  rewrite class_candidate_eq, Hjoin, Hsep, (CODEBASE_DIR_posix E Hjoin).
  destruct (posix_codebase_form (module_dir E)) as [dir ->].
  rewrite !posix_join_step
    by (reflexivity || (apply package_path_relative; assumption)).
  cbn [posix_join]. rewrite !str_app_assoc. reflexivity.
Qed.

(** C7, as the code has it.  When the file probed for a class name does
    not exist, the tool returns the not-found message, which ends with
    exactly the probed path; that path is [os.path.join] of the code
    base, [src], [main], [java] and the name with its dots replaced by
    the path separator and [.java] appended.  On a POSIX host, for a
    class name that opens with neither a dot nor a slash, the probed
    path is [<codebase>/src/main/java/<package path>.java]: it lies in
    the source directory, and the package path holds no dot, so no
    component of it climbs out. *)
Theorem class_source_not_found (E : env) (class_name : string)
    (Hmissing : path_exists E (class_candidate E class_name) = false) :
  suggest_junit_tests_for_class E class_name
  = Ret ("Could not find source file for " +:+ class_name +:+ "." +:+ nl
         +:+ "I looked for: " +:+ class_candidate E class_name)
  /\ class_candidate E class_name
     = path_join E (CODEBASE_DIR E)
         ["src"; "main"; "java";
          str_replace_char "."%char (os_sep E) class_name +:+ ".java"]
  /\ (path_join E = posix_join -> os_sep E = "/" ->
      str_starts_with_char "."%char class_name = false ->
      str_starts_with_char "/"%char class_name = false ->
      class_candidate E class_name
      = posix_codebase (module_dir E) +:+ "/src/main/java/"
        +:+ str_replace_char "."%char "/" class_name +:+ ".java"
      /\ probed_under_source_root E class_name = true
      /\ str_contains_char "."%char (str_replace_char "."%char "/" class_name)
         = false).
Proof.
  split; [|split; [apply class_candidate_eq|]].
  - unfold suggest_junit_tests_for_class. rewrite Hmissing. reflexivity.
  - intros Hjoin Hsep Hdot Hslash.
    pose proof (class_candidate_under_root E class_name Hjoin Hsep Hdot Hslash)
      as Hcandidate.
    split; [|split].
    + rewrite Hcandidate, (source_root_posix E Hjoin), !str_app_assoc.
      reflexivity.
    + unfold probed_under_source_root. rewrite Hcandidate, Hsep.
      rewrite <- (str_app_assoc (source_root E) "/").
      apply str_starts_with_app.
    + apply str_replace_char_no_old. reflexivity.
Qed.

Lemma class_source_not_found_witness :
  suggest_junit_tests_for_class bare_env "org.apache.commons.lang3.Range"
  = Ret ("Could not find source file for org.apache.commons.lang3.Range." +:+ nl
         +:+ "I looked for: /srv/agent/codebase/src/main/java/org/apache/commons/lang3/Range.java")
  /\ probed_under_source_root bare_env "org.apache.commons.lang3.Range" = true.
Proof.
  destruct (class_source_not_found bare_env "org.apache.commons.lang3.Range" eq_refl)
    as (Hmessage & _ & Hposix).
  split; [exact Hmessage|].
  exact (proj1 (proj2 (Hposix eq_refl eq_refl eq_refl eq_refl))).
Defined.

(** The claim for every class name fails: on a POSIX host the class
    name [/etc/hosts] is probed at [/etc/hosts.java], which the
    message shows, and that is not under [src/main/java] of the code
    base. *)
Lemma slash_class_name_probed_outside :
  source_root bare_env = "/srv/agent/codebase/src/main/java"
  /\ class_candidate bare_env "/etc/hosts" = "/etc/hosts.java"
  /\ path_exists bare_env (class_candidate bare_env "/etc/hosts") = false
  /\ suggest_junit_tests_for_class bare_env "/etc/hosts"
     = Ret ("Could not find source file for /etc/hosts." +:+ nl
            +:+ "I looked for: /etc/hosts.java")
  /\ suggest_junit_tests_for_class bare_env "/etc/hosts"
     <> Ret ("Could not find source file for /etc/hosts." +:+ nl
             +:+ "I looked for: /srv/agent/codebase/src/main/java//etc/hosts.java")
  /\ probed_under_source_root bare_env "/etc/hosts" = false
  /\ ~ (forall class_name, probed_under_source_root bare_env class_name = true).
Proof.
  split; [reflexivity|]. split; [reflexivity|]. split; [reflexivity|].
  split; [reflexivity|]. split; [vm_compute; discriminate|].
  split; [reflexivity|].
  intros Hall. specialize (Hall "/etc/hosts"). discriminate Hall.
Qed.

(** ** The matcher *)

(** [s'] is what is left of [s] after a prefix was consumed. *)
Lemma greedy_inv {R} set s (k : string -> option R) r :
  greedy set s k = Some r ->
  exists consumed s', s = consumed +:+ s' /\ k s' = Some r.
Proof.
  induction s as [|c s IH]; simpl.
  - intros Hk. exists "", "". auto.
  - destruct (set c).
    + destruct (greedy set s k) as [r'|] eqn:Hg.
      * intros [= <-]. destruct (IH eq_refl) as (pre & s' & -> & Hk).
        exists (String c pre), s'. auto.
      * intros Hk. exists "", (String c s). auto.
    + intros Hk. exists "", (String c s). auto.
Qed.

(** A successful match hands the continuation a suffix of the text
    and groups that include those it started with. *)
Lemma re_exec_inv r : forall s g k m,
  re_exec r s g k = Some m ->
  exists consumed s' g',
    s = consumed +:+ s'
    /\ (forall i, is_Some (g !! i) -> is_Some (g' !! i))
    /\ k s' g' = Some m.
Proof.
  induction r as [c|r1 IH1 r2 IH2|r1 IH1|set|set|i r1 IH1];
    intros s g k m; simpl.
  - destruct s as [|c' s]; [discriminate|].
    destruct (Ascii.eqb c c'); [|discriminate].
    intros Hk. exists (String c' ""), s, g. auto.
  - intros H. apply IH1 in H as (pre1 & s1 & g1 & -> & Hg1 & H).
    apply IH2 in H as (pre2 & s2 & g2 & -> & Hg2 & H).
    exists (pre1 +:+ pre2), s2, g2. rewrite str_app_assoc. auto.
  - destruct (re_exec r1 s g k) as [m'|] eqn:H1.
    + intros [= <-]. apply IH1 in H1. exact H1.
    + intros Hk. exists "", s, g. auto.
  - destruct s as [|c s]; [discriminate|].
    destruct (set c); [|discriminate].
    intros H. apply greedy_inv in H as (pre & s' & -> & Hk).
    exists (String c pre), s', g. auto.
  - intros H. apply greedy_inv in H as (pre & s' & -> & Hk).
    exists pre, s', g. auto.
  - intros H. apply IH1 in H as (pre & s' & g' & -> & Hg & Hk).
    eexists pre, s', _. split; [reflexivity|]. split; [|exact Hk].
    intros j Hj. destruct (decide (i = j)) as [->|Hne].
    + rewrite lookup_insert_eq. eauto.
    + rewrite lookup_insert_ne by exact Hne. auto.
Qed.

(** After a group has matched, the continuation sees it captured. *)
Lemma re_exec_group i r s g k m :
  re_exec (Grp i r) s g k = Some m ->
  exists consumed s' g',
    s = consumed +:+ s' /\ is_Some (g' !! i) /\ k s' g' = Some m.
Proof.
  simpl. intros H.
  apply re_exec_inv in H as (pre & s' & g' & -> & _ & Hk).
  eexists pre, s', _. split; [reflexivity|]. split; [|exact Hk].
  rewrite lookup_insert_eq. eauto.
Qed.

Lemma re_exec_cat r1 r2 s g k :
  re_exec (Cat r1 r2) s g k
  = re_exec r1 s g (fun s' g' => re_exec r2 s' g' k).
Proof. reflexivity. Qed.

Lemma re_exec_plus set s g k m :
  re_exec (Plus set) s g k = Some m ->
  exists c consumed s', s = String c (consumed +:+ s') /\ k s' g = Some m.
Proof.
  simpl. destruct s as [|c s]; [discriminate|].
  destruct (set c); [|discriminate].
  intros H. apply greedy_inv in H as (pre & s' & -> & Hk).
  exists c, pre, s'. auto.
Qed.

(** Every match of [method_pattern] has captured its second group,
    the method name, and has consumed some of the text. *)
Lemma method_pattern_match s m :
  re_match_at method_pattern s = Some m ->
  is_Some (m_groups m !! 2)
  /\ String.length (m_rest m) < String.length s.
Proof.
  unfold re_match_at, method_pattern. intros H.
  rewrite re_exec_cat in H.
  apply re_exec_inv in H as (pre1 & s1 & g1 & -> & _ & H).
  rewrite re_exec_cat in H.
  apply re_exec_plus in H as (c & pre2 & s2 & -> & H).
  rewrite re_exec_cat in H.
  apply re_exec_inv in H as (pre3 & s3 & g3 & -> & _ & H).
  rewrite re_exec_cat in H.
  apply re_exec_inv in H as (pre4 & s4 & g4 & -> & _ & H).
  rewrite re_exec_cat in H.
  apply re_exec_inv in H as (pre5 & s5 & g5 & -> & _ & H).
  rewrite re_exec_cat in H.
  apply re_exec_group in H as (pre6 & s6 & g6 & -> & Hg6 & H).
  apply re_exec_inv in H as (pre7 & s7 & g7 & -> & Hg7 & [= <-]).
  split; [apply Hg7, Hg6|]. simpl m_rest.
  repeat (rewrite str_app_length || cbn [String.length]). lia.
Qed.

Lemma finditer_from_match r skip s m :
  m ∈ finditer_from r skip s ->
  exists s', re_match_at r s' = Some m.
Proof.
  revert skip; induction s as [|c s IH]; intros skip; simpl.
  - destruct skip; [|intros H; inversion H].
    destruct (re_match_at r "") as [m'|] eqn:Hm; [|intros H; inversion H].
    rewrite list_elem_of_singleton. intros ->. eauto.
  - destruct skip as [|n]; [|apply IH].
    destruct (re_match_at r (String c s)) as [m'|] eqn:Hm; [|apply IH].
    rewrite elem_of_cons. intros [->|Hin]; [eauto|]. eapply IH, Hin.
Qed.

(** The names [extract_methods] collects are captured names: the
    default of [group] is never used. *)
Lemma finditer_method_pattern_group src m :
  m ∈ finditer method_pattern src -> m_groups m !! 2 = Some (group 2 m).
Proof.
  intros Hin. apply finditer_from_match in Hin as [s' Hm].
  apply method_pattern_match in Hm as [[name Hname] _].
  unfold group. rewrite Hname. reflexivity.
Qed.

(** ** Method extraction *)

Lemma py_sorted_sorted names : StronglySorted String.le (py_sorted names).
Proof. apply StronglySorted_merge_sort; apply _. Qed.

Lemma py_sorted_perm names : py_sorted names ≡ₚ names.
Proof. apply merge_sort_Permutation. Qed.

(** Sorting forgets the order the set was iterated in. *)
Lemma py_sorted_order_irrelevant (order1 order2 : list string) :
  order1 ≡ₚ order2 -> py_sorted order1 = py_sorted order2.
Proof.
  intros Hperm.
  apply (StronglySorted_unique String.le); try apply py_sorted_sorted.
  rewrite !py_sorted_perm. exact Hperm.
Qed.

Lemma extract_methods_elem src name :
  name ∈ extract_methods src <-> name ∈ declared_names src.
Proof.
  unfold extract_methods, py_set, declared_names.
  rewrite py_sorted_perm, elem_of_elements, elem_of_list_to_set. reflexivity.
Qed.

Lemma extract_methods_NoDup src : NoDup (extract_methods src).
Proof.
  unfold extract_methods. rewrite py_sorted_perm. apply NoDup_elements.
Qed.

Lemma count_lines_NoDup (name : string) (names : list string) :
  NoDup names -> name ∈ names -> count_lines name names = 1.
Proof.
  unfold count_lines.
  induction 1 as [|x l Hx Hl IH]; intros Hin; [inversion Hin|].
  rewrite filter_cons. destruct (decide (x = name)) as [->|Hne].
  - simpl. f_equal.
    destruct (filter (λ l0 : string, l0 = name) l) as [|y ys] eqn:Hf; [reflexivity|].
    assert (Hy : y ∈ filter (λ l0 : string, l0 = name) l) by (rewrite Hf; left).
    apply list_elem_of_filter in Hy as [-> Hy]. contradiction.
  - apply IH. apply elem_of_cons in Hin as [->|Hin]; [contradiction|exact Hin].
Qed.

(** C3.  For every source text the list of method names is sorted
    ascending in the order of strings and holds no name twice; it
    holds exactly the names the pattern captures, each once, however
    many declarations share it.  The order is not that of the
    declarations: two overloads of [area] before [add] yield [add],
    [area]. *)
Theorem extracted_names_sorted_unique (src : string) :
  StronglySorted String.le (extract_methods src)
  /\ NoDup (extract_methods src)
  /\ (forall name, name ∈ extract_methods src <-> name ∈ declared_names src)
  /\ (forall name, name ∈ declared_names src ->
        count_lines name (extract_methods src) = 1)
  /\ declared_names overloads_java = ["area"; "area"; "add"]
  /\ extract_methods overloads_java = ["add"; "area"].
Proof.
  split; [apply py_sorted_sorted|].
  split; [apply extract_methods_NoDup|].
  split; [apply extract_methods_elem|].
  split.
  - intros name Hin. apply count_lines_NoDup; [apply extract_methods_NoDup|].
    apply extract_methods_elem, Hin.
  - split; vm_compute; reflexivity.
Qed.

Lemma extracted_names_sorted_unique_witness :
  count_lines "area" (extract_methods overloads_java) = 1.
Proof.
  destruct (extracted_names_sorted_unique overloads_java) as (_ & _ & _ & H & Hd & _).
  apply H. rewrite Hd. left.
Defined.

(** ** suggest_junit_tests_for_class on a readable file *)

Lemma suggest_junit_on_source E class_name src :
  path_exists E (class_candidate E class_name) = true ->
  read_latin1 E (class_candidate E class_name) = Ret src ->
  suggest_junit_tests_for_class E class_name
  = match extract_methods src with
    | [] => Ret ("No public methods found in " +:+ class_name +:+ ".")
    | _ => Ret (py_join nl (skeleton_lines class_name (extract_methods src)))
    end.
Proof.
  intros Hex Hrd. unfold suggest_junit_tests_for_class.
  rewrite Hex, Hrd. reflexivity.
Qed.

(** C5.  The output of [suggest_junit_tests_for_class] is a function of
    the class name and the content of the source file alone: two runs
    that find the same content for the same class name, on whatever
    hosts, return the same text; and the list of names does not depend
    on the order in which the set of names is iterated. *)
Theorem suggest_junit_deterministic (E1 E2 : env) (class_name src : string)
    (Hex1 : path_exists E1 (class_candidate E1 class_name) = true)
    (Hrd1 : read_latin1 E1 (class_candidate E1 class_name) = Ret src)
    (Hex2 : path_exists E2 (class_candidate E2 class_name) = true)
    (Hrd2 : read_latin1 E2 (class_candidate E2 class_name) = Ret src) :
  suggest_junit_tests_for_class E1 class_name
  = suggest_junit_tests_for_class E2 class_name
  /\ (forall order : list string,
        order ≡ₚ elements (py_set (declared_names src)) ->
        py_sorted order = extract_methods src).
Proof.
  split.
  - rewrite (suggest_junit_on_source E1 class_name src Hex1 Hrd1).
    rewrite (suggest_junit_on_source E2 class_name src Hex2 Hrd2).
    reflexivity.
  - intros order Hperm. apply py_sorted_order_irrelevant, Hperm.
Qed.

Lemma suggest_junit_deterministic_witness :
  suggest_junit_tests_for_class java_env "a.b.C"
  = suggest_junit_tests_for_class other_host_env "a.b.C".
Proof.
  exact (proj1 (suggest_junit_deterministic java_env other_host_env "a.b.C" C_java
                  eq_refl eq_refl eq_refl eq_refl)).
Defined.

(** C4.  For the class name [a.b.C] and a source whose captured method
    names are [foo] and [bar], extraction yields [bar], [foo], and the
    skeleton declares class [CGeneratedTest] with the two placeholder
    methods [test_bar] and [test_foo], each under an [@Test] line. *)
Theorem example_class_a_b_C (E : env) (src : string)
    (Hex : path_exists E (class_candidate E "a.b.C") = true)
    (Hrd : read_latin1 E (class_candidate E "a.b.C") = Ret src)
    (Hnames : forall name,
        name ∈ declared_names src <-> name = "foo" \/ name = "bar") :
  extract_methods src = ["bar"; "foo"]
  /\ suggest_junit_tests_for_class E "a.b.C" = Ret (py_join nl C_skeleton)
  /\ count_lines "    @Test" C_skeleton = 2
  /\ filter (fun l => String.prefix "    public void " l = true) C_skeleton
     = ["    public void test_bar() {"; "    public void test_foo() {"].
Proof.
  assert (Hm : extract_methods src = ["bar"; "foo"]).
  { apply (StronglySorted_unique String.le).
    - apply py_sorted_sorted.
    - repeat constructor.
    - apply NoDup_Permutation.
      + apply extract_methods_NoDup.
      + apply NoDup_cons. split; [|apply NoDup_singleton].
        rewrite list_elem_of_singleton. discriminate.
      + intros name. rewrite extract_methods_elem, Hnames.
        rewrite !elem_of_cons, elem_of_nil. tauto. }
  split; [exact Hm|].
  split; [|split; vm_compute; reflexivity].
  rewrite (suggest_junit_on_source E "a.b.C" src Hex Hrd), Hm.
  vm_compute. reflexivity.
Qed.

Lemma example_class_a_b_C_witness :
  declared_names C_java = ["foo"; "bar"]
  /\ extract_methods C_java = ["bar"; "foo"]
  /\ suggest_junit_tests_for_class java_env "a.b.C" = Ret (py_join nl C_skeleton).
Proof.
  assert (Hd : declared_names C_java = ["foo"; "bar"]) by (vm_compute; reflexivity).
  split; [exact Hd|].
  assert (Hnames : forall name,
             name ∈ declared_names C_java <-> name = "foo" \/ name = "bar").
  { intros name. rewrite Hd, !elem_of_cons, elem_of_nil. tauto. }
  destruct (example_class_a_b_C java_env C_java eq_refl eq_refl Hnames)
    as (Hm & Hout & _).
  split; [exact Hm|exact Hout].
Defined.

(** ** summarize_coverage on a report that is found *)

Lemma ret_bind {A B} (a : A) (k : A -> outcome B) : (Ret a ≫= k) = k a.
Proof. reflexivity. Qed.

Lemma raise_bind {A B} (e : exn) (k : A -> outcome B) : (Raise e ≫= k) = Raise e.
Proof. reflexivity. Qed.

Lemma for_each_counter_lines E counters acc :
  for_each counters
    (fun lines counter => line ← counter_line E counter; Ret (lines ++ [line]))
    acc
  = (lines ← counter_lines E counters; Ret (acc ++ lines)).
Proof.
  revert acc; induction counters as [|c cs IH]; intros acc; simpl.
  - unfold mret, outcome_ret. rewrite app_nil_r. reflexivity.
  - unfold mbind, outcome_bind at 1 3. unfold bind at 1 3.
    destruct (counter_line E c) as [line|e]; [|reflexivity].
    simpl. rewrite IH.
    unfold mbind, outcome_bind, bind.
    destruct (counter_lines E cs) as [lines|e]; [|reflexivity].
    simpl. rewrite <- app_assoc. reflexivity.
Qed.

Lemma summarize_coverage_found E report_path root :
  List.find (path_exists E) (jacoco_candidates E) = Some report_path ->
  et_parse E report_path = Ret root ->
  summarize_coverage E
  = match counter_lines E (findall "counter" root) with
    | Ret lines => Ret (py_join nl (coverage_header report_path :: lines))
    | Raise e => Ret ("Error reading JaCoCo report: " +:+ exc_text E e)
    end.
Proof.
  intros Hfound Hparse. unfold summarize_coverage.
  rewrite Hfound, Hparse, ret_bind, for_each_counter_lines.
  destruct (counter_lines E (findall "counter" root)); reflexivity.
Qed.

Lemma counter_lines_Forall2 E counters lines :
  counter_lines E counters = Ret lines
  <-> Forall2 (fun counter line => counter_line E counter = Ret line) counters lines.
Proof.
  revert lines; induction counters as [|c cs IH]; intros lines; simpl.
  - split.
    + intros [= <-]. constructor.
    + intros H; inversion H; reflexivity.
  - split.
    + destruct (counter_line E c) as [line|e] eqn:Hc; [|discriminate].
      rewrite ret_bind.
      destruct (counter_lines E cs) as [ls|e] eqn:Hcs; [|discriminate].
      rewrite ret_bind. intros [= <-].
      constructor; [exact Hc|]. apply IH. reflexivity.
    + intros H; inversion H as [|? line ? ls Hl Hls]; subst.
      apply IH in Hls. rewrite Hl, ret_bind, Hls, ret_bind. reflexivity.
Qed.

Lemma py_join_header_first sep c header lines :
  exists rest, py_join sep (String c header :: lines) = String c rest.
Proof.
  destruct lines as [|l ls]; simpl; eauto.
Qed.

(** The claim without the proviso on the counters fails: a
    well-formed report whose one root-level counter holds a 401-digit
    integer parses, and the result is the error string, not a header
    and a line. *)
Lemma huge_counter_yields_error :
  et_parse huge_report_env site_report_path = Ret huge_report
  /\ length (findall "counter" huge_report) = 1
  /\ summarize_coverage huge_report_env
     = Ret "Error reading JaCoCo report: int too large to convert to float"
  /\ ~ one_line_per_counter_unconditionally huge_report_env.
Proof.
  assert (Hsum : summarize_coverage huge_report_env
                 = Ret "Error reading JaCoCo report: int too large to convert to float")
    by (vm_compute; reflexivity).
  split; [reflexivity|]. split; [reflexivity|]. split; [exact Hsum|].
  intros Hclaim.
  destruct (Hclaim site_report_path huge_report) as (lines & _ & Heq);
    [vm_compute; reflexivity|reflexivity|].
  rewrite Hsum in Heq.
  destruct (py_join_header_first nl "J"%char
              ("aCoCo coverage summary from: " +:+ site_report_path) lines)
    as [rest Hrest].
  change (coverage_header site_report_path)
    with (String "J"%char ("aCoCo coverage summary from: " +:+ site_report_path)) in Heq.
  rewrite Hrest in Heq. discriminate Heq.
Qed.

(** ** No exception leaves a tool *)

Lemma try_except_returns {A} (body : outcome A) (handler : exn -> A) :
  exists a, try_except body (fun e => Ret (handler e)) = Ret a.
Proof. destruct body as [a|e]; simpl; eauto. Qed.

Lemma run_maven_tests_returns E : returns_text (run_maven_tests E).
Proof. apply try_except_returns. Qed.

Lemma summarize_coverage_returns E : returns_text (summarize_coverage E).
Proof.
  unfold summarize_coverage.
  destruct (List.find _ _); [apply try_except_returns|eexists; reflexivity].
Qed.

Lemma suggest_junit_returns E class_name :
  returns_text (suggest_junit_tests_for_class E class_name).
Proof.
  unfold suggest_junit_tests_for_class, returns_text.
  destruct (negb _); [eauto|].
  destruct (read_latin1 _ _) as [src|e]; [|eauto].
  destruct (extract_methods src); eauto.
Qed.

(** C9.  Each of the four tools returns a string in every environment
    and for every input: no exception leaves it.  A failure to launch
    the build, a report that does not parse or whose counters do not
    convert, and a source file that cannot be read each become a
    string of the form [Error <doing X>: <cause>]. *)
Theorem tools_always_return_text (E : env) :
  returns_text (run_maven_tests E)
  /\ returns_text (summarize_coverage E)
  /\ (forall class_name, returns_text (suggest_junit_tests_for_class E class_name))
  /\ (forall description, returns_text (suggest_boundary_tests description))
  /\ (forall e, maven_launch E = Raise e ->
        run_maven_tests E = Ret ("Error running mvn test: " +:+ exc_text E e))
  /\ (forall report_path e,
        List.find (path_exists E) (jacoco_candidates E) = Some report_path ->
        et_parse E report_path = Raise e ->
        summarize_coverage E
        = Ret ("Error reading JaCoCo report: " +:+ exc_text E e))
  /\ (forall report_path root e,
        List.find (path_exists E) (jacoco_candidates E) = Some report_path ->
        et_parse E report_path = Ret root ->
        counter_lines E (findall "counter" root) = Raise e ->
        summarize_coverage E
        = Ret ("Error reading JaCoCo report: " +:+ exc_text E e))
  /\ (forall class_name e,
        path_exists E (class_candidate E class_name) = true ->
        read_latin1 E (class_candidate E class_name) = Raise e ->
        suggest_junit_tests_for_class E class_name
        = Ret ("Error reading " +:+ class_candidate E class_name +:+ ": "
               +:+ exc_text E e)).
Proof.
  split; [apply run_maven_tests_returns|].
  split; [apply summarize_coverage_returns|].
  split; [apply suggest_junit_returns|].
  split; [intros d; eexists; reflexivity|].
  split; [|split; [|split]].
  - intros e He. unfold run_maven_tests. fold (maven_launch E).
    rewrite He. reflexivity.
  - intros p e Hfound Hparse. unfold summarize_coverage.
    rewrite Hfound, Hparse. reflexivity.
  - intros p root e Hfound Hparse Hraise.
    rewrite (summarize_coverage_found E p root Hfound Hparse), Hraise.
    reflexivity.
  - intros class_name e Hex Hrd. unfold suggest_junit_tests_for_class.
    rewrite Hex, Hrd. reflexivity.
Qed.

Lemma tools_always_return_text_witness :
  run_maven_tests bare_env
  = Ret "Error running mvn test: [Errno 2] No such file or directory: 'mvn'"
  /\ summarize_coverage huge_report_env
     = Ret "Error reading JaCoCo report: int too large to convert to float"
  /\ suggest_junit_tests_for_class unreadable_env "a.b.C"
     = Ret "Error reading /srv/agent/codebase/src/main/java/a/b/C.java: [Errno 13] Permission denied".
Proof.
  split; [|split].
  - destruct (tools_always_return_text bare_env) as (_ & _ & _ & _ & H & _).
    exact (H _ eq_refl).
  - destruct (tools_always_return_text huge_report_env)
      as (_ & _ & _ & _ & _ & _ & H & _).
    apply (H site_report_path huge_report OverflowError);
      vm_compute; reflexivity.
  - destruct (tools_always_return_text unreadable_env)
      as (_ & _ & _ & _ & _ & _ & _ & H).
    exact (H "a.b.C" _ eq_refl eq_refl).
Defined.

(** ** Binary64 arithmetic *)

Section Binary64.

Local Open Scope Z_scope.

Lemma digits2_pos_size p : digits2_pos p = Pos.size p.
Proof. induction p; simpl; congruence. Qed.

Lemma Zdigits2_log2 m : 0 < m -> Zdigits2 m = Z.log2 m + 1.
Proof.
  destruct m as [|p|p]; try lia. intros _. simpl.
  rewrite digits2_pos_size. destruct p; simpl; lia.
Qed.

Lemma Zdigits2_bounds m :
  0 < m -> 2 ^ (Zdigits2 m - 1) <= m < 2 ^ Zdigits2 m.
Proof.
  intros Hm. rewrite Zdigits2_log2 by exact Hm.
  replace (Z.log2 m + 1 - 1) with (Z.log2 m) by lia.
  apply Z.log2_spec, Hm.
Qed.

Lemma Zdigits2_nonneg m : 0 <= Zdigits2 m.
Proof. destruct m; simpl; lia. Qed.

Lemma Zdigits2_le k m : 0 <= m < 2 ^ k -> 0 <= k -> Zdigits2 m <= k.
Proof.
  intros [Hm Hlt] Hk. destruct (Z.eq_dec m 0) as [->|Hne]; [simpl; lia|].
  rewrite Zdigits2_log2 by lia.
  assert (Z.log2 m < k) by (apply Z.log2_lt_pow2; lia). lia.
Qed.

Lemma Zdigits2_ge k m : 2 ^ k <= m -> 0 <= k -> k + 1 <= Zdigits2 m.
Proof.
  intros Hm Hk. assert (0 < m) by (pose proof (Z.pow_pos_nonneg 2 k); lia).
  rewrite Zdigits2_log2 by lia.
  assert (k <= Z.log2 m) by (apply Z.log2_le_pow2; lia). lia.
Qed.

Lemma shr_1_m mrs : 0 <= shr_m mrs -> shr_m (shr_1 mrs) = shr_m mrs / 2.
Proof.
  destruct mrs as [m r s]. cbn [shr_m]. intros Hm.
  destruct m as [|[p|p|]|p]; cbn [shr_1 shr_m]; try lia; try reflexivity.
  - apply (Z.div_unique_pos _ _ _ 1); lia.
  - apply (Z.div_unique_pos _ _ _ 0); lia.
Qed.

Lemma shr_1_m_nonneg mrs : 0 <= shr_m mrs -> 0 <= shr_m (shr_1 mrs).
Proof.
  intros H. rewrite shr_1_m by exact H. apply Z.div_pos; lia.
Qed.

Lemma pow2_xI n : 2 ^ Z.pos n~1 = 2 * (2 ^ Z.pos n * 2 ^ Z.pos n).
Proof.
  assert (Z.pos n~1 = 1 + (Z.pos n + Z.pos n)) as -> by lia.
  rewrite !Z.pow_add_r by lia. reflexivity.
Qed.

Lemma pow2_xO n : 2 ^ Z.pos n~0 = 2 ^ Z.pos n * 2 ^ Z.pos n.
Proof.
  assert (Z.pos n~0 = Z.pos n + Z.pos n) as -> by lia.
  rewrite !Z.pow_add_r by lia. reflexivity.
Qed.

Lemma iter_pos_shr_m n mrs :
  0 <= shr_m mrs ->
  shr_m (SpecFloat.iter_pos shr_1 n mrs) = shr_m mrs / 2 ^ Z.pos n.
Proof.
  revert mrs; induction n as [n IH|n IH|]; intros mrs Hm; simpl SpecFloat.iter_pos.
  - assert (H1 : 0 <= shr_m (shr_1 mrs)) by (apply shr_1_m_nonneg, Hm).
    assert (H2 : 0 <= shr_m (SpecFloat.iter_pos shr_1 n (shr_1 mrs))).
    { rewrite IH by exact H1. apply Z.div_pos; lia. }
    rewrite IH by exact H2. rewrite IH by exact H1. rewrite shr_1_m by exact Hm.
    rewrite !Z.div_div by lia. rewrite pow2_xI. reflexivity.
  - assert (H2 : 0 <= shr_m (SpecFloat.iter_pos shr_1 n mrs)).
    { rewrite IH by exact Hm. apply Z.div_pos; lia. }
    rewrite IH by exact H2. rewrite IH by exact Hm.
    rewrite !Z.div_div by lia. rewrite pow2_xO. reflexivity.
  - rewrite shr_1_m by exact Hm. reflexivity.
Qed.

Lemma shr_record_of_loc_m m l : shr_m (shr_record_of_loc m l) = m.
Proof. destruct l as [|[]]; reflexivity. Qed.

Lemma loc_of_shr_record_of_loc m l :
  loc_of_shr_record (shr_record_of_loc m l) = l.
Proof. destruct l as [|[]]; reflexivity. Qed.

(** The first step of rounding: the mantissa is cut to the exponent
    the format gives the number. *)
Lemma shr_fexp_spec m e l :
  0 <= m ->
  let e1 := Z.max e (fexp prec emax (Zdigits2 m + e)) in
  snd (shr_fexp prec emax m e l) = e1
  /\ shr_m (fst (shr_fexp prec emax m e l)) = m / 2 ^ (e1 - e)
  /\ (e1 = e -> loc_of_shr_record (fst (shr_fexp prec emax m e l)) = l).
Proof.
  intros Hm e1. unfold shr_fexp, shr.
  destruct (fexp prec emax (Zdigits2 m + e) - e) as [|n|n] eqn:Hn; simpl.
  - replace e1 with e by lia. rewrite Z.sub_diag, shr_record_of_loc_m.
    rewrite Z.div_1_r. auto using loc_of_shr_record_of_loc.
  - replace e1 with (e + Z.pos n) by lia.
    rewrite iter_pos_shr_m by (rewrite shr_record_of_loc_m; exact Hm).
    rewrite shr_record_of_loc_m.
    replace (e + Z.pos n - e) with (Z.pos n) by lia.
    repeat split; lia.
  - replace e1 with e by lia. rewrite Z.sub_diag, shr_record_of_loc_m.
    rewrite Z.div_1_r. auto using loc_of_shr_record_of_loc.
Qed.

Lemma round_nearest_even_bounds m l :
  m <= round_nearest_even m l <= m + 1.
Proof. destruct l as [|[]]; simpl; try destruct (Z.even m); lia. Qed.

Lemma binary_round_aux_steps mx ex lx :
  0 < mx ->
  let e1 := Z.max ex (fexp prec emax (Zdigits2 mx + ex)) in
  let m0 := mx / 2 ^ (e1 - ex) in
  exists m1,
    m0 <= m1 <= m0 + 1
    /\ (lx = loc_Exact -> e1 = ex -> m1 = mx)
    /\ binary_round_aux prec emax false mx ex lx = round_finish m1 e1.
Proof.
  intros Hmx e1 m0.
  destruct (shr_fexp_spec mx ex lx) as (He & Hm & Hl); [lia|].
  fold e1 in He, Hm, Hl. fold m0 in Hm.
  unfold binary_round_aux.
  destruct (shr_fexp prec emax mx ex lx) as [mrs' e'] eqn:Hshr.
  simpl in He, Hm, Hl. subst e'.
  exists (round_nearest_even (shr_m mrs') (loc_of_shr_record mrs')).
  split; [rewrite Hm; apply round_nearest_even_bounds|].
  split; [|reflexivity].
  intros -> Heq. rewrite (Hl Heq). simpl. rewrite Hm. unfold m0.
  rewrite Heq, Z.sub_diag. apply Z.div_1_r.
Qed.

Lemma fexp_succ_le x : fexp prec emax (x + 1) <= fexp prec emax x + 1.
Proof. unfold fexp, emin, prec, emax. lia. Qed.

Lemma fexp_mono x y : x <= y -> fexp prec emax x <= fexp prec emax y.
Proof. unfold fexp, emin, prec, emax. lia. Qed.

Lemma Zdigits2_mono m m' : 0 <= m <= m' -> Zdigits2 m <= Zdigits2 m'.
Proof.
  intros [H0 Hle]. destruct (Z.eq_dec m 0) as [->|Hne].
  - apply Zdigits2_nonneg.
  - rewrite !Zdigits2_log2 by lia.
    pose proof (Z.log2_le_mono m m' Hle). lia.
Qed.

Lemma Zdigits2_pow2 k : 0 <= k -> Zdigits2 (2 ^ k) = k + 1.
Proof.
  intros Hk. rewrite Zdigits2_log2 by (apply Z.pow_pos_nonneg; lia).
  rewrite Z.log2_pow2 by lia. reflexivity.
Qed.

Lemma Zdigits2_succ m0 :
  0 <= m0 ->
  Zdigits2 (m0 + 1) = Zdigits2 m0
  \/ (m0 + 1 = 2 ^ Zdigits2 m0 /\ Zdigits2 (m0 + 1) = Zdigits2 m0 + 1).
Proof.
  intros H0.
  assert (Hlt : m0 < 2 ^ Zdigits2 m0).
  { destruct (Z.eq_dec m0 0) as [->|Hne]; [simpl; lia|].
    apply Zdigits2_bounds; lia. }
  destruct (Z.eq_dec (m0 + 1) (2 ^ Zdigits2 m0)) as [Heq|Hne].
  - right. split; [exact Heq|]. rewrite Heq.
    apply Zdigits2_pow2, Zdigits2_nonneg.
  - left. apply Z.le_antisymm.
    + apply Zdigits2_le; [lia|apply Zdigits2_nonneg].
    + apply Zdigits2_mono; lia.
Qed.

(** After the mantissa was rounded the second cut loses nothing: it
    happens only when the mantissa was rounded up to a power of two. *)
Lemma round_finish_exact m0 m1 e1 :
  0 <= m0 -> m0 <= m1 <= m0 + 1 ->
  fexp prec emax (Zdigits2 m0 + e1) <= e1 ->
  let e2 := Z.max e1 (fexp prec emax (Zdigits2 m1 + e1)) in
  e1 <= e2 /\ (m1 / 2 ^ (e2 - e1)) * 2 ^ (e2 - e1) = m1.
Proof.
  intros H0 Hm1 Hcan e2. split; [lia|].
  assert (Hsame : e2 = e1 -> m1 / 2 ^ (e2 - e1) * 2 ^ (e2 - e1) = m1).
  { intros ->. rewrite Z.sub_diag. simpl. rewrite Z.div_1_r. lia. }
  assert (Hemin : -1074 <= e1) by (unfold fexp, emin, prec, emax in Hcan; lia).
  assert (Hcase : m1 = m0 \/ m1 = m0 + 1) by lia.
  destruct Hcase as [Heq|Heq].
  - apply Hsame. unfold e2. rewrite Heq. lia.
  - destruct (Zdigits2_succ m0 H0) as [Hd|[Hpow Hd]].
    + apply Hsame. unfold e2. rewrite Heq, Hd. lia.
    + pose proof (fexp_succ_le (Zdigits2 m0 + e1)) as Hs.
      assert (He2 : e2 = Z.max e1 (fexp prec emax (Zdigits2 m0 + e1 + 1))).
      { unfold e2. rewrite Heq, Hd. f_equal. f_equal. lia. }
      assert (Hor : e2 = e1 \/ e2 = e1 + 1) by lia.
      destruct Hor as [He|He]; [apply Hsame, He|].
      assert (Hdpos : 0 < Zdigits2 m0).
      { pose proof (Zdigits2_nonneg m0).
        destruct (Z.eq_dec (Zdigits2 m0) 0) as [Hz|]; [|lia].
        exfalso. rewrite Hz in He2.
        unfold fexp, emin, prec, emax in He2. lia. }
      rewrite He. replace (e1 + 1 - e1) with 1 by lia. rewrite Z.pow_1_r.
      rewrite Heq, Hpow.
      replace (Zdigits2 m0) with (1 + (Zdigits2 m0 - 1)) by lia.
      rewrite Z.pow_add_r by lia. rewrite Z.pow_1_r.
      rewrite (Z.mul_comm 2), Z.div_mul by lia. lia.
Qed.

Lemma round_finish_value m0 m1 e1 :
  0 <= m0 -> m0 <= m1 <= m0 + 1 -> 0 < m1 ->
  fexp prec emax (Zdigits2 m0 + e1) <= e1 ->
  Z.max e1 (fexp prec emax (Zdigits2 m1 + e1)) <= emax - prec ->
  exists m e,
    round_finish m1 e1 = S754_finite false m e
    /\ e1 <= e <= emax - prec /\ Z.pos m * 2 ^ (e - e1) = m1.
Proof.
  intros H0 Hm1 Hpos Hcan Hmax.
  destruct (round_finish_exact m0 m1 e1 H0 Hm1 Hcan) as [Hle Hex].
  destruct (shr_fexp_spec m1 e1 loc_Exact) as (He & Hm & _); [lia|].
  unfold round_finish.
  destruct (shr_fexp prec emax m1 e1 loc_Exact) as [mrs e2].
  simpl in He, Hm. cbv zeta in Hle, Hex.
  rewrite <- He in Hle, Hex, Hmax, Hm. rewrite <- Hm in Hex.
  destruct (shr_m mrs) as [|m|m] eqn:Hs.
  - lia.
  - exists m, e2. pose proof Hmax as Hmax'. apply Z.leb_le in Hmax'.
    rewrite Hmax'. auto.
  - pose proof (Z.pow_nonneg 2 (e2 - e1)). nia.
Qed.

(** Rounding a positive number in the normal range and below the
    largest float to the format is off by at most [2^-52] of the
    number, and by nothing when the number was given exactly with at
    most 53 digits. *)
Lemma binary_round_aux_rel mx ex lx :
  0 < mx -> ex <= emax - prec ->
  3 - emax <= Zdigits2 mx + ex <= emax ->
  (Zdigits2 mx + ex = emax -> prec <= Zdigits2 mx ->
   mx < (2 ^ 53 - 1) * 2 ^ (Zdigits2 mx - 53)) ->
  (lx = loc_Exact \/ prec <= Zdigits2 mx) ->
  exists m e,
    binary_round_aux prec emax false mx ex lx = S754_finite false m e
    /\ ex <= e <= emax - prec
    /\ 2 ^ 52 * Z.abs (Z.pos m * 2 ^ (e - ex) - mx) <= mx
    /\ (lx = loc_Exact -> Zdigits2 mx <= prec -> Z.pos m * 2 ^ (e - ex) = mx).
Proof.
  intros Hmx Hex Hrange Htop Hwide.
  destruct (binary_round_aux_steps mx ex lx Hmx) as (m1 & Hm1 & Hexact & ->).
  pose proof (Zdigits2_bounds mx Hmx) as Hdx.
  set (dx := Zdigits2 mx) in *.
  assert (Hfexp : fexp prec emax (dx + ex) = dx + ex - 53)
    by (unfold fexp, emin, prec, emax in *; lia).
  rewrite Hfexp in *.
  destruct (Z_lt_le_dec dx 53) as [Hsmall|Hbig].
  - (* at most 53 digits and exact: nothing is cut *)
    assert (Hl : lx = loc_Exact) by (destruct Hwide as [H|H]; [exact H|unfold prec in H; lia]).
    rewrite Z.max_l in * by lia.
    rewrite Z.sub_diag, Z.pow_0_r, Z.div_1_r in Hm1.
    pose proof (Hexact Hl eq_refl) as ->.
    destruct (round_finish_value mx mx ex) as (m & e & Hr & He & Hv);
      try lia.
    { fold dx. rewrite Hfexp. lia. }
    { fold dx. rewrite Hfexp. unfold emax, prec in *. lia. }
    exists m, e. rewrite Hv. rewrite Z.sub_diag. simpl.
    repeat split; try assumption; lia.
  - (* 53 digits or more: the mantissa is cut to 53 digits and rounded *)
    rewrite Z.max_r in * by lia.
    replace (dx + ex - 53 - ex) with (dx - 53) in * by lia.
    set (k := dx - 53) in *.
    assert (Hk : 0 <= k) by lia.
    assert (Hpk : 0 < 2 ^ k) by (apply Z.pow_pos_nonneg; lia).
    assert (Hsplit : 2 ^ (dx - 1) = 2 ^ 52 * 2 ^ k).
    { replace (dx - 1) with (52 + k) by lia. apply Z.pow_add_r; lia. }
    assert (Hsplit' : 2 ^ dx = 2 ^ 53 * 2 ^ k).
    { replace dx with (53 + k) at 1 by lia. apply Z.pow_add_r; lia. }
    set (m0 := mx / 2 ^ k) in *.
    assert (Hdiv : m0 * 2 ^ k <= mx < (m0 + 1) * 2 ^ k).
    { pose proof (Z.div_mod mx (2 ^ k)). pose proof (Z.mod_pos_bound mx (2 ^ k)).
      fold m0 in H. lia. }
    assert (Hm0 : 2 ^ 52 <= m0 < 2 ^ 53) by nia.
    assert (Hd1 : Zdigits2 m1 <= 54).
    { apply Zdigits2_le; [|lia]. split; [lia|].
      change (2 ^ 54) with (2 * 2 ^ 53). lia. }
    assert (Hd1' : dx + ex = 1024 -> Zdigits2 m1 <= 53).
    { intros Htopmost. apply Zdigits2_le; [|lia]. split; [lia|].
      assert (mx < (2 ^ 53 - 1) * 2 ^ k)
        by (apply Htop; unfold emax, prec; lia).
      assert (m0 < 2 ^ 53 - 1) by nia. lia. }
    destruct (round_finish_value m0 m1 (dx + ex - 53)) as (m & e & Hr & He & Hv);
      try lia.
    { assert (Zdigits2 m0 <= 53) by (apply Zdigits2_le; lia).
      unfold fexp, emin, prec, emax in *. lia. }
    { unfold fexp, emin, prec, emax in *. lia. }
    exists m, e. split; [exact Hr|]. split; [lia|].
    assert (Hval : Z.pos m * 2 ^ (e - ex) = m1 * 2 ^ k).
    { replace (e - ex) with ((e - (dx + ex - 53)) + k) by lia.
      rewrite Z.pow_add_r by lia. rewrite Z.mul_assoc, Hv. reflexivity. }
    rewrite Hval. split.
    + assert (Z.abs (m1 * 2 ^ k - mx) <= 2 ^ k) by nia. nia.
    + intros Hl Hd. unfold prec in Hd.
      assert (Hm1x : m1 = mx) by (apply Hexact; [exact Hl|lia]).
      assert (Hk0 : k = 0) by lia.
      rewrite Hm1x, Hk0, Z.pow_0_r. lia.
Qed.

(** *** Values as real numbers *)

Local Open Scope R_scope.

Lemma bpow_pos e : 0 < bpow e.
Proof. apply powerRZ_lt. lra. Qed.

Lemma bpow_add a b : bpow (a + b) = bpow a * bpow b.
Proof. apply powerRZ_add. lra. Qed.

Lemma bpow_IZR k : (0 <= k)%Z -> bpow k = IZR (2 ^ k).
Proof.
  intros Hk. unfold bpow.
  rewrite <- (Z2Nat.id k Hk) at 1. rewrite <- pow_powerRZ.
  rewrite pow_IZR, Z2Nat.id by exact Hk. reflexivity.
Qed.

Lemma bpow_ge_1 k : (0 <= k)%Z -> 1 <= bpow k.
Proof.
  intros Hk. rewrite bpow_IZR by exact Hk. apply IZR_le.
  pose proof (Z.pow_pos_nonneg 2 k). lia.
Qed.

Lemma bpow_le a b : (a <= b)%Z -> bpow a <= bpow b.
Proof.
  intros Hab. replace b with (a + (b - a))%Z by lia. rewrite bpow_add.
  pose proof (bpow_pos a).
  assert (1 <= bpow (b - a)) by (apply bpow_ge_1; lia). nra.
Qed.

Lemma bpow_lt_inv a b : bpow a < bpow b -> (a < b)%Z.
Proof.
  intros Hlt. destruct (Z_lt_le_dec a b) as [H|H]; [exact H|].
  apply bpow_le in H. lra.
Qed.

Lemma bpow_m52 : bpow (-52) = eps.
Proof.
  unfold eps. apply (Rmult_eq_reg_r 4503599627370496); [|lra].
  rewrite Rinv_l by lra.
  change 4503599627370496 with (IZR (2 ^ 52)).
  rewrite <- bpow_IZR, <- bpow_add by lia. reflexivity.
Qed.

Lemma F2R_shift m e k :
  (0 <= k)%Z -> F2R (m * 2 ^ k) e = F2R m (e + k).
Proof.
  intros Hk. unfold F2R. rewrite mult_IZR, <- bpow_IZR by exact Hk.
  rewrite bpow_add. ring.
Qed.

Lemma F2R_digits m e :
  (0 < m)%Z -> bpow (Zdigits2 m + e - 1) <= F2R m e < bpow (Zdigits2 m + e).
Proof.
  intros Hm. destruct (Zdigits2_bounds m Hm) as [Hlo Hhi].
  pose proof (Zdigits2_nonneg m) as Hd.
  assert (Hd1 : (1 <= Zdigits2 m)%Z) by (rewrite Zdigits2_log2 by lia; pose proof (Z.log2_nonneg m); lia).
  unfold F2R.
  replace (Zdigits2 m + e - 1)%Z with ((Zdigits2 m - 1) + e)%Z by lia.
  rewrite !bpow_add.
  rewrite (bpow_IZR (Zdigits2 m - 1)), (bpow_IZR (Zdigits2 m)) by lia.
  pose proof (bpow_pos e). apply IZR_le in Hlo. apply IZR_lt in Hhi.
  split; nra.
Qed.

Lemma max_double_lt : max_double < bpow 1024.
Proof.
  unfold max_double, F2R. replace 1024%Z with (53 + 971)%Z by lia.
  rewrite bpow_add, (bpow_IZR 53) by lia. pose proof (bpow_pos 971).
  apply Rmult_lt_compat_r; [lra|]. apply IZR_lt. reflexivity.
Qed.

Lemma max_double_ge : bpow 1023 <= max_double.
Proof.
  unfold max_double, F2R. replace 1023%Z with (52 + 971)%Z by lia.
  rewrite bpow_add, (bpow_IZR 52) by lia. pose proof (bpow_pos 971).
  apply Rmult_le_compat_r; [lra|]. apply IZR_le. discriminate.
Qed.

(** Rounding to the format, on values. *)
Lemma binary_round_aux_value mx ex lx :
  (0 < mx)%Z -> (ex <= emax - prec)%Z ->
  bpow (-1022) <= F2R mx ex < max_double ->
  (lx = loc_Exact \/ (prec <= Zdigits2 mx)%Z) ->
  exists m e,
    binary_round_aux prec emax false mx ex lx = S754_finite false m e
    /\ (e <= emax - prec)%Z
    /\ F2R mx ex * (1 - eps) <= F2R (Z.pos m) e <= F2R mx ex * (1 + eps)
    /\ (lx = loc_Exact -> (Zdigits2 mx <= prec)%Z -> F2R (Z.pos m) e = F2R mx ex).
Proof.
  intros Hmx Hex [Hlo Hhi] Hwide.
  destruct (F2R_digits mx ex Hmx) as [Hdlo Hdhi].
  pose proof max_double_lt as Hmax.
  assert (Hrange : (3 - emax <= Zdigits2 mx + ex <= emax)%Z).
  { unfold emax. split.
    - assert (-1022 < Zdigits2 mx + ex)%Z by (apply bpow_lt_inv; lra). lia.
    - assert (Zdigits2 mx + ex - 1 < 1024)%Z by (apply bpow_lt_inv; lra). lia. }
  assert (Htop : (Zdigits2 mx + ex = emax -> prec <= Zdigits2 mx ->
                  mx < (2 ^ 53 - 1) * 2 ^ (Zdigits2 mx - 53))%Z).
  { unfold emax, prec. intros Heq Hd. apply lt_IZR.
    apply Rmult_lt_reg_r with (bpow ex); [apply bpow_pos|].
    change (IZR mx * bpow ex) with (F2R mx ex).
    change (IZR ((2 ^ 53 - 1) * 2 ^ (Zdigits2 mx - 53)) * bpow ex)
      with (F2R ((2 ^ 53 - 1) * 2 ^ (Zdigits2 mx - 53)) ex).
    rewrite F2R_shift by lia.
    replace (ex + (Zdigits2 mx - 53))%Z with 971%Z by lia. exact Hhi. }
  destruct (binary_round_aux_rel mx ex lx Hmx Hex Hrange Htop Hwide)
    as (m & e & Hr & He & Hrel & Hexact).
  exists m, e. split; [exact Hr|]. split; [lia|].
  assert (Hval : F2R (Z.pos m) e = F2R (Z.pos m * 2 ^ (e - ex)) ex).
  { rewrite F2R_shift by lia. f_equal. lia. }
  rewrite Hval. split.
  - unfold F2R. pose proof (bpow_pos ex) as Hb.
    set (M := (Z.pos m * 2 ^ (e - ex))%Z) in *.
    assert (Hr1 : (2 ^ 52 * (M - mx) <= mx)%Z) by lia.
    assert (Hr2 : (2 ^ 52 * (mx - M) <= mx)%Z) by lia.
    apply IZR_le in Hr1, Hr2.
    rewrite mult_IZR, minus_IZR in Hr1, Hr2.
    change (IZR (2 ^ 52)) with 4503599627370496 in Hr1, Hr2.
    unfold eps. split; nra.
  - intros Hl Hd. rewrite (Hexact Hl Hd). reflexivity.
Qed.

(** *** The conversion of an integer *)

Lemma pos_iter_xO m d : Z.pos (Pos.iter xO m d) = (Z.pos m * 2 ^ Z.pos d)%Z.
Proof.
  induction d as [|d IH] using Pos.peano_ind.
  - simpl. lia.
  - rewrite Pos.iter_succ, Pos2Z.inj_xO, IH, Pos2Z.inj_succ, Z.pow_succ_r by lia.
    lia.
Qed.

Lemma shl_align_spec mx ex ex' :
  let '(mz, ez) := shl_align mx ex ex' in
  ez = Z.min ex ex' /\ Z.pos mz = (Z.pos mx * 2 ^ (ex - ez))%Z.
Proof.
  unfold shl_align. destruct (ex' - ex)%Z as [|d|d] eqn:Hd.
  - split; [lia|]. rewrite Z.sub_diag. lia.
  - split; [lia|]. rewrite Z.sub_diag. lia.
  - split; [lia|]. rewrite pos_iter_xO. f_equal. f_equal. lia.
Qed.

Lemma binary_normalize_value n :
  (0 < n < 2 ^ 1023)%Z ->
  exists m e,
    binary_normalize prec emax n 0 false = S754_finite false m e
    /\ (e <= emax - prec)%Z
    /\ IZR n * (1 - eps) <= F2R (Z.pos m) e <= IZR n * (1 + eps).
Proof.
  intros [Hpos Hlt]. destruct n as [|p|p]; try lia.
  unfold binary_normalize, binary_round.
  pose proof (shl_align_spec p 0 (fexp prec emax (Z.pos (digits2_pos p) + 0)))
    as Hal.
  destruct (shl_align p 0 _) as [mz ez]. destruct Hal as [Hez Hmz].
  assert (Hval : F2R (Z.pos mz) ez = IZR (Z.pos p)).
  { rewrite Hmz, F2R_shift by lia. unfold F2R.
    replace (ez + (0 - ez))%Z with 0%Z by lia. unfold bpow. simpl. ring. }
  destruct (binary_round_aux_value (Z.pos mz) ez loc_Exact)
    as (m & e & Hr & He & Hb & _).
  - lia.
  - unfold emax, prec. lia.
  - rewrite Hval. split.
    + apply Rle_trans with (bpow 0); [apply bpow_le; lia|].
      unfold bpow. simpl. apply IZR_le. lia.
    + apply Rlt_le_trans with (bpow 1023); [|apply max_double_ge].
      rewrite bpow_IZR by lia. apply IZR_lt. exact Hlt.
  - left. reflexivity.
  - exists m, e. rewrite Hval in Hb. auto.
Qed.

(** *** Multiplication *)

Lemma SFmul_value m1 e1 m2 e2 :
  (e1 + e2 <= emax - prec)%Z ->
  bpow (-1022) <= F2R (Z.pos m1) e1 * F2R (Z.pos m2) e2 < max_double ->
  exists m e,
    SFmul prec emax (S754_finite false m1 e1) (S754_finite false m2 e2)
    = S754_finite false m e
    /\ F2R (Z.pos m1) e1 * F2R (Z.pos m2) e2 * (1 - eps)
       <= F2R (Z.pos m) e
       <= F2R (Z.pos m1) e1 * F2R (Z.pos m2) e2 * (1 + eps).
Proof.
  intros He Hrange. simpl.
  assert (Hval : F2R (Z.pos (m1 * m2)) (e1 + e2)
                 = F2R (Z.pos m1) e1 * F2R (Z.pos m2) e2).
  { unfold F2R. rewrite Pos2Z.inj_mul, mult_IZR, bpow_add. ring. }
  destruct (binary_round_aux_value (Z.pos (m1 * m2)) (e1 + e2) loc_Exact)
    as (m & e & Hr & _ & Hb & _); try lia.
  - rewrite Hval. exact Hrange.
  - left. reflexivity.
  - exists m, e. rewrite Hval in Hb. auto.
Qed.

(** *** Division *)

Lemma Zdigits2_pos m : (0 < m)%Z -> (1 <= Zdigits2 m)%Z.
Proof.
  intros Hm. rewrite Zdigits2_log2 by exact Hm.
  pose proof (Z.log2_nonneg m). lia.
Qed.

Lemma SFdiv_core_binary_spec m1 e1 m2 e2 :
  (0 < m1)%Z -> (0 < m2)%Z ->
  let D := (Zdigits2 m1 + e1 - (Zdigits2 m2 + e2))%Z in
  (3 - emax - prec <= D - prec)%Z ->
  let '(q, e, l) := SFdiv_core_binary prec emax m1 e1 m2 e2 in
  (2 ^ 52 <= q)%Z /\ (e <= D - prec)%Z
  /\ F2R q e * F2R m2 e2 <= F2R m1 e1 < F2R (q + 1) e * F2R m2 e2.
Proof.
  intros Hm1 Hm2 D HD.
  pose proof (Zdigits2_bounds m1 Hm1) as Hd1.
  pose proof (Zdigits2_bounds m2 Hm2) as Hd2.
  pose proof (Zdigits2_pos m1 Hm1) as Hp1.
  pose proof (Zdigits2_pos m2 Hm2) as Hp2.
  unfold SFdiv_core_binary.
  remember (Zdigits2 m1) as d1 eqn:Ed1. remember (Zdigits2 m2) as d2 eqn:Ed2.
  assert (ED : D = (d1 + e1 - (d2 + e2))%Z) by reflexivity. clearbody D.
  unfold prec, emax in HD.
  assert (Hfexp : fexp prec emax (d1 + e1 - (d2 + e2)) = (D - 53)%Z)
    by (unfold fexp, emin, prec, emax; lia).
  rewrite Hfexp.
  remember (Z.min (D - 53) (e1 - e2)) as e' eqn:Ee'.
  remember (e1 - e2 - e')%Z as s eqn:Es.
  assert (Hs : (0 <= s)%Z) by lia.
  assert (Hm' : match s with
                | Z.pos _ => Z.shiftl m1 s
                | 0%Z => m1
                | Z.neg _ => 0%Z
                end = (m1 * 2 ^ s)%Z).
  { destruct s as [|p|p]; [lia| |lia]. apply Z.shiftl_mul_pow2. lia. }
  rewrite Hm'.
  pose proof (Z.div_mod (m1 * 2 ^ s) m2 ltac:(lia)) as Hdm.
  pose proof (Z.mod_pos_bound (m1 * 2 ^ s) m2 Hm2) as Hmod.
  unfold Z.div, Z.modulo in Hdm, Hmod.
  destruct (Z.div_eucl (m1 * 2 ^ s) m2) as [q r].
  assert (Hq : (2 ^ 52 <= q)%Z).
  { assert (Hge : (2 ^ (52 + d2) <= m1 * 2 ^ s)%Z).
    { apply Z.le_trans with (2 ^ (d1 - 1) * 2 ^ s)%Z.
      - rewrite <- Z.pow_add_r by lia.
        apply Z.pow_le_mono_r; lia.
      - apply Z.mul_le_mono_nonneg_r; [apply Z.pow_nonneg|]; lia. }
    rewrite Z.pow_add_r in Hge by lia.
    nia. }
  split; [exact Hq|]. split; [unfold prec; lia|].
  assert (Hscale : F2R (m1 * 2 ^ s) (e' + e2) = F2R m1 e1).
  { rewrite F2R_shift by lia. f_equal. lia. }
  rewrite <- Hscale.
  assert (Hprod : forall x, F2R x e' * F2R m2 e2 = F2R (x * m2) (e' + e2)).
  { intros x. unfold F2R. rewrite mult_IZR, bpow_add. ring. }
  rewrite !Hprod. unfold F2R. pose proof (bpow_pos (e' + e2)).
  split.
  - apply Rmult_le_compat_r; [lra|]. apply IZR_le. lia.
  - apply Rmult_lt_compat_r; [lra|]. apply IZR_lt. lia.
Qed.

Lemma SFdiv_value m1 e1 m2 e2 :
  let V := F2R (Z.pos m1) e1 / F2R (Z.pos m2) e2 in
  bpow (-1021) <= V < bpow 1022 ->
  exists m e,
    SFdiv prec emax (S754_finite false m1 e1) (S754_finite false m2 e2)
    = S754_finite false m e
    /\ F2R (Z.pos m) e <= V * (1 + eps).
Proof.
  intros V [Hlo Hhi].
  pose proof (F2R_digits (Z.pos m1) e1 ltac:(lia)) as [Hx1 Hx2].
  pose proof (F2R_digits (Z.pos m2) e2 ltac:(lia)) as [Hy1 Hy2].
  set (X := F2R (Z.pos m1) e1) in *. set (Y := F2R (Z.pos m2) e2) in *.
  set (D := (Zdigits2 (Z.pos m1) + e1 - (Zdigits2 (Z.pos m2) + e2))%Z).
  assert (HY : 0 < Y) by (pose proof (bpow_pos (Zdigits2 (Z.pos m2) + e2 - 1)); lra).
  assert (HX : 0 < X) by (pose proof (bpow_pos (Zdigits2 (Z.pos m1) + e1 - 1)); lra).
  assert (HVY : V * Y = X) by (unfold V; field; lra).
  assert (HD1 : bpow (D - 1) < V).
  { assert (bpow (D - 1) * bpow (Zdigits2 (Z.pos m2) + e2)
            = bpow (Zdigits2 (Z.pos m1) + e1 - 1)).
    { rewrite <- bpow_add. f_equal. unfold D. lia. }
    pose proof (bpow_pos (D - 1)).
    apply Rmult_lt_reg_r with Y; [exact HY|]. nra. }
  assert (HD2 : V < bpow (D + 1)).
  { assert (bpow (D + 1) * bpow (Zdigits2 (Z.pos m2) + e2 - 1)
            = bpow (Zdigits2 (Z.pos m1) + e1)).
    { rewrite <- bpow_add. f_equal. unfold D. lia. }
    pose proof (bpow_pos (D + 1)).
    apply Rmult_lt_reg_r with Y; [exact HY|]. nra. }
  assert (HDlo : (-1021 < D + 1)%Z) by (apply bpow_lt_inv; lra).
  assert (HDhi : (D - 1 < 1022)%Z) by (apply bpow_lt_inv; lra).
  pose proof (SFdiv_core_binary_spec (Z.pos m1) e1 (Z.pos m2) e2
                ltac:(lia) ltac:(lia)) as Hcore.
  cbv zeta in Hcore. fold D in Hcore.
  specialize (Hcore ltac:(unfold emax, prec; lia)).
  unfold SFdiv. simpl xorb.
  destruct (SFdiv_core_binary prec emax (Z.pos m1) e1 (Z.pos m2) e2)
    as [[q e'] l].
  destruct Hcore as (Hq & He' & Hql & Hqu). fold X Y in Hql, Hqu.
  assert (HqV : F2R q e' <= V < F2R (q + 1) e').
  { split.
    - apply Rmult_le_reg_r with Y; [exact HY|]. lra.
    - apply Rmult_lt_reg_r with Y; [exact HY|]. lra. }
  assert (Hulp : F2R (q + 1) e' <= F2R q e' * (1 + eps)).
  { unfold F2R. rewrite plus_IZR. pose proof (bpow_pos e').
    apply IZR_le in Hq. change (IZR (2 ^ 52)) with 4503599627370496 in Hq.
    unfold eps. 
    assert (1 <= IZR q * / 4503599627370496) by lra.
    nra. }
  destruct (binary_round_aux_value q e' l) as (m & e & Hr & _ & Hb & _).
  - lia.
  - unfold emax, prec in *. lia.
  - split.
    + assert (Hhalf : bpow (-1022) * 2 = bpow (-1021)).
      { replace (-1021)%Z with (-1022 + 1)%Z by lia. rewrite bpow_add.
        unfold bpow at 2. simpl. ring. }
      assert (eps <= 1) by (unfold eps; lra).
      assert (0 < F2R q e').
      { unfold F2R. pose proof (bpow_pos e'). apply IZR_le in Hq.
        change (IZR (2 ^ 52)) with 4503599627370496 in Hq. nra. }
      nra.
    + apply Rle_lt_trans with V; [lra|].
      apply Rlt_le_trans with (bpow 1022); [lra|].
      apply Rle_trans with (bpow 1023); [apply bpow_le; lia|].
      apply max_double_ge.
  - right. pose proof (Zdigits2_ge 52 q Hq ltac:(lia)). unfold prec. lia.
  - exists m, e. split; [exact Hr|].
    assert (0 < eps) by (unfold eps; lra).
    assert (0 < F2R q e').
    { unfold F2R. pose proof (bpow_pos e'). apply IZR_le in Hq.
      change (IZR (2 ^ 52)) with 4503599627370496 in Hq. nra. }
    nra.
Qed.

End Binary64.

(** ** The percentage of a counter *)

Section CoveragePct.

Local Open Scope Z_scope.
Local Open Scope R_scope.

Lemma float_100_value : F2R 7036874417766400 (-46) = 100.
Proof.
  change 7036874417766400%Z with (100 * 2 ^ 46)%Z.
  rewrite F2R_shift by lia. unfold F2R, bpow. simpl. ring.
Qed.

Lemma float_of_int_zero : float_of_int 0 = Ret float_zero.
Proof. reflexivity. Qed.

Lemma float_of_int_value n :
  (0 < n < 2 ^ 1023)%Z ->
  exists m e,
    float_of_int n = Ret (S754_finite false m e)
    /\ (e <= emax - prec)%Z
    /\ IZR n * (1 - eps) <= F2R (Z.pos m) e <= IZR n * (1 + eps).
Proof.
  intros Hn. destruct (binary_normalize_value n Hn) as (m & e & Hr & He & Hb).
  exists m, e. unfold float_of_int. rewrite Hr. auto.
Qed.

Lemma round_half_even_bounds a b :
  (0 <= a)%Z -> (0 < b)%Z ->
  (0 <= round_half_even a b)%Z
  /\ (2 * b * round_half_even a b <= 2 * a + b)%Z.
Proof.
  intros Ha Hb. unfold round_half_even.
  pose proof (Z.div_mod a b ltac:(lia)) as Hdm.
  pose proof (Z.mod_pos_bound a b Hb) as Hmod.
  assert (Hq : (0 <= a / b)%Z) by (apply Z.div_pos; lia).
  destruct (Z.compare_spec (2 * (a mod b)) b) as [Heq|Hlt|Hgt];
    [destruct (Z.even (a / b))| |]; split; nia.
Qed.

Lemma decimal_tenths_bounds m e :
  F2R (Z.pos m) e <= 100 + / 25 ->
  (0 <= decimal_tenths m e <= 1000)%Z.
Proof.
  intros HV. unfold decimal_tenths.
  destruct (Z.leb_spec 0 e) as [He|He].
  - assert (Hval : IZR (10 * Z.pos m * 2 ^ e) = 10 * F2R (Z.pos m) e).
    { unfold F2R. rewrite !mult_IZR, <- bpow_IZR by exact He. ring. }
    split.
    + pose proof (Z.pow_nonneg 2 e). nia.
    + apply Z.lt_succ_r. change (Z.succ 1000) with 1001%Z.
      apply lt_IZR. rewrite Hval. lra.
  - set (b := (2 ^ (- e))%Z).
    assert (Hb : (0 < b)%Z) by (apply Z.pow_pos_nonneg; lia).
    destruct (round_half_even_bounds (10 * Z.pos m) b ltac:(lia) Hb)
      as [H0 Hup].
    split; [exact H0|].
    assert (Hbe : IZR b * bpow e = 1).
    { unfold b. rewrite <- bpow_IZR by lia. rewrite <- bpow_add.
      replace (- e + e)%Z with 0%Z by lia. reflexivity. }
    apply IZR_le in Hup. rewrite plus_IZR, !mult_IZR in Hup.
    unfold F2R in HV.
    apply Z.lt_succ_r. change (Z.succ 1000) with 1001%Z. apply lt_IZR.
    set (n := IZR (round_half_even (10 * Z.pos m) b)) in *.
    assert (HbR : 0 < IZR b) by (apply IZR_lt; exact Hb).
    pose proof (bpow_pos e) as Hpe.
    apply Rmult_lt_reg_r with (2 * IZR b); [lra|].
    assert (Hm : IZR (Z.pos m) = IZR (Z.pos m) * bpow e * IZR b).
    { rewrite Rmult_assoc, (Rmult_comm (bpow e)), Hbe. ring. }
    nra.
Qed.

Lemma tenths_in_range_all n : (0 <= n <= 1000)%Z -> tenths_in_range n = true.
Proof.
  intros Hn.
  assert (Hall : forallb tenths_in_range (map Z.of_nat (seq 0 1001)) = true)
    by (vm_compute; reflexivity).
  rewrite forallb_forall in Hall. apply Hall.
  apply in_map_iff. exists (Z.to_nat n). split; [lia|].
  apply in_seq. lia.
Qed.

(** Rounding a finite, non-negative float that is barely above 100 to
    one decimal place gives a float from 0.0 to 100.0. *)
Lemma py_round1_in_range m e :
  F2R (Z.pos m) e <= 100 + / 25 ->
  exists pct, py_round1 (S754_finite false m e) = Ret pct
              /\ pct_in_range pct = true.
Proof.
  intros HV. pose proof (decimal_tenths_bounds m e HV) as Hn.
  pose proof (tenths_in_range_all _ Hn) as Hok.
  unfold py_round1, tenths_in_range in *.
  destruct (nearest_double false (decimal_tenths m e) 10) as [s|s| |s m' e'];
    try discriminate; eauto.
Qed.

(** The error analysis of [covered * 100.0 / total] on the values:
    with every operation within [eps] of the exact one, the product
    is below the largest float, and the quotient is in the normal
    range and at most a hair above 100. *)
Lemma pct_error_chain (C T Vc Vt Vp : R) :
  1 <= C <= T -> T < bpow 1017 ->
  C * (1 - eps) <= Vc <= C * (1 + eps) ->
  T * (1 - eps) <= Vt <= T * (1 + eps) ->
  Vc * 100 * (1 - eps) <= Vp <= Vc * 100 * (1 + eps) ->
  bpow (-1021) <= Vp / Vt < bpow 1022
  /\ Vp / Vt * (1 + eps) <= 100 + / 25.
Proof.
  intros [HC HCT] HT [Hc1 Hc2] [Ht1 Ht2] [Hp1 Hp2].
  assert (He : 0 < eps < / 1000000) by (unfold eps; lra).
  assert (Hb1018 : bpow 1018 = bpow 1017 * 2).
  { replace 1018%Z with (1017 + 1)%Z by lia. rewrite bpow_add.
    f_equal. unfold bpow. simpl. lra. }
  assert (Hb3 : bpow (-1021) * bpow 1018 <= 1).
  { rewrite <- bpow_add. change 1 with (bpow 0). apply bpow_le. lia. }
  assert (Hb1022 : 128 <= bpow 1022).
  { apply Rle_trans with (bpow 7); [unfold bpow; simpl; lra|apply bpow_le; lia]. }
  assert (HVc : 0 < Vc) by nra.
  assert (HVt : 0 < Vt) by nra.
  assert (HVp : 99 <= Vp) by nra.
  assert (HVpu : Vp <= 100 * C * ((1 + eps) * (1 + eps))) by nra.
  assert (HV : Vp / Vt * Vt = Vp) by (field; lra).
  set (V := Vp / Vt) in *.
  assert (HVpos : 0 < V) by (unfold V; apply Rdiv_lt_0_compat; lra).
  assert (HK : V <= 100 + / 100).
  { apply Rmult_le_reg_r with Vt; [exact HVt|]. rewrite HV.
    apply Rle_trans with (100 * T * ((1 + eps) * (1 + eps))); [nra|].
    apply Rle_trans with ((100 + / 100) * (T * (1 - eps))); [|nra].
    assert (100 * ((1 + eps) * (1 + eps)) <= (100 + / 100) * (1 - eps)) by nra.
    nra. }
  split; [split|].
  - destruct (Rle_lt_dec (bpow (-1021)) V) as [Hle|Hlt]; [exact Hle|].
    exfalso.
    assert (Vt < bpow 1018) by (rewrite Hb1018; nra).
    pose proof (bpow_pos (-1021)). pose proof (bpow_pos 1018).
    assert (V * Vt < bpow (-1021) * bpow 1018) by nra.
    lra.
  - lra.
  - nra.
Qed.

(** A hundred times an integer below [2^1017], converted to a float,
    is in the range of the floats. *)
Lemma scaled_in_range (C Vc : R) :
  1 <= C -> C < bpow 1017 ->
  C * (1 - eps) <= Vc <= C * (1 + eps) ->
  bpow (-1022) <= Vc * 100 < max_double.
Proof.
  intros HC HT [Hc1 Hc2].
  assert (He : 0 < eps < / 1000000) by (unfold eps; lra).
  assert (Hb0 : bpow (-1022) <= 1).
  { change 1 with (bpow 0). apply bpow_le. lia. }
  assert (Hb1017 : bpow 1017 = 70368744177664 * bpow 971).
  { replace 1017%Z with (46 + 971)%Z by lia.
    rewrite bpow_add, (bpow_IZR 46) by lia. reflexivity. }
  assert (Hmax : max_double = 9007199254740991 * bpow 971) by reflexivity.
  pose proof (bpow_pos 971) as HB.
  rewrite Hmax. rewrite Hb1017 in HT.
  assert (Vc <= C * (1 + / 1000000)) by nra.
  split; nra.
Qed.

(** The percentage of a counter with [0 <= covered <= total] and
    [0 < total < 2^1017]. *)
Lemma coverage_pct_in_range covered total :
  (0 <= covered <= total)%Z -> (0 < total < 2 ^ 1017)%Z ->
  exists fc ft pct,
    float_of_int covered = Ret fc
    /\ float_of_int total = Ret ft
    /\ py_round1 (SFdiv prec emax (SFmul prec emax fc float_100) ft) = Ret pct
    /\ coverage_pct covered total = Ret pct
    /\ pct_in_range pct = true.
Proof.
  intros [Hc Hct] [Ht Htb].
  assert (Hpow : (2 ^ 1017 < 2 ^ 1023)%Z) by (apply Z.pow_lt_mono_r; lia).
  destruct (float_of_int_value total ltac:(lia)) as (mt & et & Hft & Het & Hvt).
  assert (Hpct : forall fc q,
             float_of_int covered = Ret fc ->
             SFdiv prec emax (SFmul prec emax fc float_100)
               (S754_finite false mt et) = q ->
             forall pct, py_round1 q = Ret pct ->
             coverage_pct covered total = Ret pct).
  { intros fc q Hfc Hq pct Hr. unfold coverage_pct.
    destruct (Z.eqb_spec total 0%Z) as [H0|_]; [lia|].
    unfold int_mul_float, float_div_int.
    rewrite Hfc, ret_bind, ret_bind, Hft, ret_bind. simpl float_is_zero.
    cbv iota. rewrite ret_bind, Hq. exact Hr. }
  destruct (Z.eq_dec covered 0%Z) as [->|Hne].
  - exists float_zero, (S754_finite false mt et), float_zero.
    split; [reflexivity|]. split; [exact Hft|].
    split; [reflexivity|]. split; [|reflexivity].
    apply (Hpct float_zero float_zero); reflexivity.
  - destruct (float_of_int_value covered ltac:(lia))
      as (mc & ec & Hfc & Hec & Hvc).
    assert (HC : 1 <= IZR covered <= IZR total)
      by (split; apply IZR_le; lia).
    assert (HT : IZR total < bpow 1017)
      by (rewrite bpow_IZR by lia; apply IZR_lt; exact Htb).
    assert (Hmul : exists mp ep,
               SFmul prec emax (S754_finite false mc ec) float_100
               = S754_finite false mp ep
               /\ F2R (Z.pos mc) ec * 100 * (1 - eps)
                  <= F2R (Z.pos mp) ep
                  <= F2R (Z.pos mc) ec * 100 * (1 + eps)).
    { rewrite <- float_100_value. apply SFmul_value.
      - unfold emax, prec in *. lia.
      - rewrite float_100_value.
        apply (scaled_in_range (IZR covered)); [lra|lra|exact Hvc]. }
    destruct Hmul as (mp & ep & Hp & Hvp).
    destruct (pct_error_chain _ _ _ _ _ HC HT Hvc Hvt Hvp) as (Hrange & Hup).
    destruct (SFdiv_value mp ep mt et Hrange) as (mq & eq & Hq & Hvq).
    destruct (py_round1_in_range mq eq ltac:(lra)) as (pct & Hr & Hin).
    exists (S754_finite false mc ec), (S754_finite false mt et), pct.
    rewrite Hp, Hq. repeat split; try assumption.
    apply (Hpct (S754_finite false mc ec) (S754_finite false mq eq));
      [exact Hfc|rewrite Hp; exact Hq|exact Hr].
Qed.

End CoveragePct.

(** C1, as the code has it.  For a root-level counter whose [covered]
    and [missed] attributes are non-negative integers with a total
    below [2^1017], the loop body computes [total = covered + missed]
    exactly and puts both in the line; the percentage is [0.0] when
    the total is zero and otherwise [round(covered * 100.0 / total, 1)]
    in binary64 arithmetic, and it lies between [0.0] and [100.0]. *)
Theorem counter_percentage_in_range (E : env) (counter : element)
    (covered missed : Z)
    (Hcovered : py_int E (attr_get counter "covered" "0") = Ret covered)
    (Hmissed : py_int E (attr_get counter "missed" "0") = Ret missed)
    (Hc : (0 <= covered)%Z) (Hm : (0 <= missed)%Z)
    (Hbound : (covered + missed < 2 ^ 1017)%Z) :
  exists pct,
    coverage_pct covered (covered + missed) = Ret pct
    /\ counter_line E counter
       = Ret ("- " +:+ py_str_opt (attrib counter !! "type") +:+ ": "
              +:+ float_repr E pct +:+ "% ("
              +:+ py_str_int covered +:+ "/"
              +:+ py_str_int (covered + missed) +:+ " covered)")
    /\ ((covered + missed = 0)%Z -> pct = float_zero)
    /\ ((0 < covered + missed)%Z ->
        exists fc ft,
          float_of_int covered = Ret fc
          /\ float_of_int (covered + missed) = Ret ft
          /\ py_round1 (SFdiv prec emax (SFmul prec emax fc float_100) ft)
             = Ret pct)
    /\ pct_in_range pct = true.
Proof.
  assert (Hline : forall pct,
             coverage_pct covered (covered + missed) = Ret pct ->
             counter_line E counter
             = Ret ("- " +:+ py_str_opt (attrib counter !! "type") +:+ ": "
                    +:+ float_repr E pct +:+ "% ("
                    +:+ py_str_int covered +:+ "/"
                    +:+ py_str_int (covered + missed) +:+ " covered)")).
  { intros pct Hpct. unfold counter_line.
    rewrite Hcovered, ret_bind, Hmissed, ret_bind, Hpct, ret_bind.
    reflexivity. }
  destruct (Z.eq_dec (covered + missed)%Z 0%Z) as [Hzero|Hpos].
  - exists float_zero.
    assert (Hpct : coverage_pct covered (covered + missed) = Ret float_zero)
      by (unfold coverage_pct; rewrite Hzero; reflexivity).
    split; [exact Hpct|]. split; [exact (Hline _ Hpct)|].
    split; [reflexivity|]. split; [lia|reflexivity].
  - destruct (coverage_pct_in_range covered (covered + missed)%Z)
      as (fc & ft & pct & Hfc & Hft & Hr & Hpct & Hin); [lia|lia|].
    exists pct. split; [exact Hpct|]. split; [exact (Hline _ Hpct)|].
    split; [lia|]. split; [|exact Hin].
    intros _. exists fc, ft. auto.
Qed.

Lemma counter_percentage_in_range_witness :
  exists pct,
    coverage_pct 45 (45 + 5) = Ret pct
    /\ counter_line bare_env (counter_elt "LINE" "45" "5")
       = Ret ("- LINE: " +:+ float_repr bare_env pct +:+ "% (45/50 covered)")
    /\ pct_in_range pct = true.
Proof.
  destruct (counter_percentage_in_range bare_env (counter_elt "LINE" "45" "5")
              45 5 eq_refl eq_refl)
    as (pct & Hpct & Hline & _ & _ & Hin).
  - lia.
  - lia.
  - vm_compute. reflexivity.
  - exists pct. split; [exact Hpct|]. split; [exact Hline|exact Hin].
Defined.

(** The claim without the bound fails: a counter of [10^307] covered
    out of [10^307] is a non-negative integer that [int] accepts, and
    its percentage is [+inf], because [covered * 100.0] overflows. *)
Lemma astronomic_counter_percentage :
  py_int bare_env (String "1"%char (str_repeat "0"%char 307))
  = Ret astronomic_count
  /\ (0 <= astronomic_count)%Z
  /\ coverage_pct astronomic_count (astronomic_count + 0)
     = Ret (S754_infinity false)
  /\ pct_in_range (S754_infinity false) = false
  /\ counter_line bare_env
       (counter_elt "LINE" (String "1"%char (str_repeat "0"%char 307)) "0")
     = Ret ("- LINE: inf% (" +:+ py_str_int astronomic_count +:+ "/"
            +:+ py_str_int astronomic_count +:+ " covered)").
Proof.
  split; [vm_compute; reflexivity|].
  split; [vm_compute; discriminate|].
  split; [vm_compute; reflexivity|].
  split; vm_compute; reflexivity.
Qed.

(** The rounding is that of the float, not of the exact quotient:
    3 covered out of 2000 is exactly 0.15 %, a tie that rounds to two
    tenths, but the double nearest 0.15 lies below it and the
    percentage is 0.1. *)
Remark percentage_rounds_the_float :
  round_half_even (10 * (3 * 100)) 2000 = 2%Z
  /\ coverage_pct 3 2000 = Ret (nearest_double false 1 10)
  /\ float_repr bare_env (nearest_double false 1 10) = "0.1".
Proof. repeat split; vm_compute; reflexivity. Qed.

(** The worked example of a report with one counter. *)
Example line_counter_45_of_50 :
  counter_line bare_env (counter_elt "LINE" "45" "5")
  = Ret "- LINE: 90.0% (45/50 covered)".
Proof. vm_compute. reflexivity. Qed.

(** ** Reports of plain counters *)

Lemma plain_counter_line E counter :
  plain_counter E counter -> exists line, counter_line E counter = Ret line.
Proof.
  intros (covered & missed & Hc & Hm & H0c & H0m & Hb).
  assert (Hpct : exists pct, coverage_pct covered (covered + missed) = Ret pct).
  { destruct (Z.eq_dec (covered + missed)%Z 0%Z) as [Hz|Hnz].
    - exists float_zero. unfold coverage_pct. rewrite Hz. reflexivity.
    - destruct (coverage_pct_in_range covered (covered + missed)%Z)
        as (_ & _ & pct & _ & _ & _ & Hpct & _); [lia|lia|eauto]. }
  destruct Hpct as [pct Hpct]. unfold counter_line.
  rewrite Hc, ret_bind, Hm, ret_bind, Hpct, ret_bind. eauto.
Qed.

(** A report that parses and whose root-level counters are plain is
    summarized: the header and one line per counter. *)
Lemma coverage_summary_of_plain_counters E report_path root :
  List.find (path_exists E) (jacoco_candidates E) = Some report_path ->
  et_parse E report_path = Ret root ->
  Forall (plain_counter E) (findall "counter" root) ->
  exists lines,
    Forall2 (fun counter line => counter_line E counter = Ret line)
      (findall "counter" root) lines
    /\ summarize_coverage E
       = Ret (py_join nl (coverage_header report_path :: lines)).
Proof.
  intros Hfound Hparse Hplain.
  assert (Hlines : exists lines,
             counter_lines E (findall "counter" root) = Ret lines).
  { induction Hplain as [|c cs Hc _ [lines IH]]; [exists []; reflexivity|].
    destruct (plain_counter_line E c Hc) as [line Hline].
    exists (line :: lines). simpl. rewrite Hline, ret_bind, IH. reflexivity. }
  destruct Hlines as [lines Hlines]. exists lines.
  split; [apply counter_lines_Forall2, Hlines|].
  rewrite (summarize_coverage_found E report_path root Hfound Hparse), Hlines.
  reflexivity.
Qed.

(** ** The summary, counter by counter *)

(** The loop over the counters stops at the first one whose line
    raises: the counters before it yielded theirs. *)
Lemma counter_lines_first_raise E counters e :
  counter_lines E counters = Raise e
  <-> exists before counter after,
        counters = before ++ counter :: after
        /\ Forall (fun c => exists line, counter_line E c = Ret line) before
        /\ counter_line E counter = Raise e.
Proof.
  induction counters as [|c cs IH]; cbn [counter_lines].
  - split; [discriminate|].
    intros (before & counter & after & Heq & _). destruct before; discriminate Heq.
  - destruct (counter_line E c) as [line|e'] eqn:Hc.
    + rewrite ret_bind.
      destruct (counter_lines E cs) as [lines|e''] eqn:Hcs.
      * rewrite ret_bind. split; [discriminate|].
        intros (before & counter & after & Heq & Hbefore & Hraise).
        destruct before as [|b before].
        -- injection Heq as -> _. rewrite Hraise in Hc. discriminate Hc.
        -- injection Heq as -> Heq. inversion Hbefore as [|? ? _ Hrest]; subst.
           assert (H0 : @Ret (list string) lines = Raise e); [|discriminate H0].
           apply IH. exists before, counter, after. auto.
      * rewrite raise_bind. split.
        -- intros [= ->]. destruct (proj1 IH eq_refl)
             as (before & counter & after & -> & Hbefore & Hraise).
           exists (c :: before), counter, after.
           split; [reflexivity|]. split; [|exact Hraise].
           constructor; [eauto|exact Hbefore].
        -- intros (before & counter & after & Heq & Hbefore & Hraise).
           destruct before as [|b before].
           ++ injection Heq as -> _. rewrite Hraise in Hc. discriminate Hc.
           ++ injection Heq as -> Heq. inversion Hbefore as [|? ? _ Hrest]; subst.
              apply IH. exists before, counter, after. auto.
    + rewrite raise_bind. split.
      * intros [= ->]. exists [], c, cs. auto.
      * intros (before & counter & after & Heq & Hbefore & Hraise).
        destruct before as [|b before].
        -- injection Heq as -> _. rewrite Hraise in Hc. injection Hc as ->.
           reflexivity.
        -- injection Heq as -> _. inversion Hbefore as [|? ? [line Hline] _]; subst.
           rewrite Hline in Hc. discriminate Hc.
Qed.

(** C10, as the code has it.  On a report that is found and parses, the
    counters that are children of the root are taken in document
    order.  When each of them yields its line, the result is the
    header line with the report path followed by exactly those lines,
    one per counter, in document order.  When one of them raises, the
    counters before it having yielded their lines, the whole result is
    the error string with the cause of that counter, and no line at
    all.  One of the two is always the case, and counters whose
    [covered] and [missed] are non-negative integers with a total
    below [2^1017] all yield their lines. *)
Theorem coverage_summary_one_line_per_counter (E : env)
    (report_path : string) (root : element)
    (Hfound : List.find (path_exists E) (jacoco_candidates E) = Some report_path)
    (Hparse : et_parse E report_path = Ret root) :
  (forall lines,
      Forall2 (fun counter line => counter_line E counter = Ret line)
        (filter (fun child => tag child = "counter") (children root)) lines ->
      summarize_coverage E
      = Ret (py_join nl
               (("JaCoCo coverage summary from: " +:+ report_path) :: lines))
      /\ length lines
         = length (filter (fun child => tag child = "counter") (children root)))
  /\ (forall before counter after e,
        filter (fun child => tag child = "counter") (children root)
        = before ++ counter :: after ->
        Forall (fun c => exists line, counter_line E c = Ret line) before ->
        counter_line E counter = Raise e ->
        summarize_coverage E
        = Ret ("Error reading JaCoCo report: " +:+ exc_text E e))
  /\ ((exists lines,
          Forall2 (fun counter line => counter_line E counter = Ret line)
            (filter (fun child => tag child = "counter") (children root)) lines)
      \/ (exists before counter after e,
            filter (fun child => tag child = "counter") (children root)
            = before ++ counter :: after
            /\ Forall (fun c => exists line, counter_line E c = Ret line) before
            /\ counter_line E counter = Raise e))
  /\ (Forall (plain_counter E)
        (filter (fun child => tag child = "counter") (children root)) ->
      exists lines,
        Forall2 (fun counter line => counter_line E counter = Ret line)
          (filter (fun child => tag child = "counter") (children root)) lines).
Proof.
  pose proof (summarize_coverage_found E report_path root Hfound Hparse) as Hsum.
  unfold findall in Hsum.
  split; [|split; [|split]].
  - intros lines Hlines. split.
    + apply counter_lines_Forall2 in Hlines. rewrite Hsum, Hlines. reflexivity.
    + symmetry. eapply Forall2_length, Hlines.
  - intros before counter after e Heq Hbefore Hraise.
    assert (Hr : counter_lines E
                   (filter (fun child => tag child = "counter") (children root))
                 = Raise e).
    { apply counter_lines_first_raise. exists before, counter, after. auto. }
    rewrite Hsum, Hr. reflexivity.
  - destruct (counter_lines E
                (filter (fun child => tag child = "counter") (children root)))
      as [lines|e] eqn:Hl.
    + left. exists lines. apply counter_lines_Forall2, Hl.
    + right. apply counter_lines_first_raise in Hl
        as (before & counter & after & Heq & Hbefore & Hraise).
      exists before, counter, after, e. auto.
  - intros Hplain.
    destruct (coverage_summary_of_plain_counters E report_path root
                Hfound Hparse Hplain) as (lines & Hlines & _).
    exists lines. exact Hlines.
Qed.

Lemma coverage_summary_one_line_per_counter_witness :
  summarize_coverage report_env
  = Ret (py_join nl
           [ "JaCoCo coverage summary from: /srv/agent/codebase/target/site/jacoco/jacoco.xml";
             "- INSTRUCTION: 90.0% (45/50 covered)";
             "- BRANCH: 0.0% (0/0 covered)";
             "- LINE: 66.7% (2/3 covered)" ])
  /\ summarize_coverage fraction_report_env
     = Ret "Error reading JaCoCo report: invalid literal for int() with base 10: '4.5'".
Proof.
  split.
  - refine (proj1 (proj1 (coverage_summary_one_line_per_counter report_env
                     site_report_path sample_report _ _)
                   [ "- INSTRUCTION: 90.0% (45/50 covered)";
                     "- BRANCH: 0.0% (0/0 covered)";
                     "- LINE: 66.7% (2/3 covered)" ] _)).
    + vm_compute. reflexivity.
    + vm_compute. reflexivity.
    + change (filter (fun child => tag child = "counter") (children sample_report))
        with [counter_elt "INSTRUCTION" "45" "5"; counter_elt "BRANCH" "0" "0";
              counter_elt "LINE" "2" "1"].
      repeat constructor; vm_compute; reflexivity.
  - refine (proj1 (proj2 (coverage_summary_one_line_per_counter fraction_report_env
                     site_report_path fraction_report _ _))
              [counter_elt "LINE" "45" "5"] (counter_elt "BRANCH" "4.5" "1") []
              (ValueError "4.5") _ _ _).
    + vm_compute. reflexivity.
    + vm_compute. reflexivity.
    + vm_compute. reflexivity.
    + constructor; [|constructor]. eexists. vm_compute. reflexivity.
    + vm_compute. reflexivity.
Defined.

(** ** The git tools *)

Lemma py_or_nonempty a b : b <> "" -> py_or a b <> "".
Proof. destruct a; [intros H; exact H|discriminate]. Qed.

(** X1.  What [git_add_all] answers, case by case: what git printed on
    standard output when that is not empty; what it printed on standard
    error when standard output is empty and standard error is not; the
    completion message when git printed nothing on either stream; and
    the error string when git could not be launched.  So the answer is
    never the empty text. *)
Theorem git_add_all_never_empty (H : host) :
  match subprocess_run_here H (git_argv H ["add"; "-A"]) with
  | Ret result =>
      (stdout result <> "" -> git_add_all H = Ret (stdout result))
      /\ (stdout result = "" -> stderr result <> "" ->
          git_add_all H = Ret (stderr result))
      /\ (stdout result = "" -> stderr result = "" ->
          git_add_all H = Ret "git add -A completed.")
  | Raise e =>
      git_add_all H = Ret ("Error running git add -A: " +:+ exc_text H e)
  end
  /\ exists text, git_add_all H = Ret text /\ text <> "".
Proof.
  unfold git_add_all, git_argv, _project_root.
  destruct (subprocess_run_here H _) as [result|e]; simpl.
  - split.
    + split; [|split].
      * intros Hout. rewrite (py_or_left (stdout result)) by exact Hout.
        rewrite py_or_left by exact Hout. reflexivity.
      * intros -> Herr. simpl. rewrite py_or_left by exact Herr. reflexivity.
      * intros -> ->. reflexivity.
    + eexists. split; [reflexivity|]. apply py_or_nonempty. discriminate.
  - split; [reflexivity|]. eexists. split; [reflexivity|discriminate].
Qed.

Lemma git_add_all_never_empty_witness :
  git_add_all (git_host git_verbose) = Ret "add 'notes.txt'"
  /\ git_add_all (git_host git_fatal) = Ret "fatal: not a git repository"
  /\ git_add_all (git_host git_silent) = Ret "git add -A completed."
  /\ git_add_all (git_host git_missing)
     = Ret "Error running git add -A: [Errno 2] No such file or directory: 'git'".
Proof.
  split; [|split; [|split]].
  - destruct (git_add_all_never_empty (git_host git_verbose)) as [Hcases _].
    apply Hcases. discriminate.
  - destruct (git_add_all_never_empty (git_host git_fatal)) as [Hcases _].
    apply Hcases; [reflexivity|discriminate].
  - destruct (git_add_all_never_empty (git_host git_silent)) as [Hcases _].
    apply Hcases; reflexivity.
  - destruct (git_add_all_never_empty (git_host git_missing)) as [Hcases _].
    exact Hcases.
Defined.

(** X2.  No exception leaves a git tool: each of the four returns a
    string on every host and for every argument, and a launch that
    raises becomes the string [Error running git <command>: <cause>]. *)
Theorem git_tools_always_return_text (H : host) :
  returns_text (git_status H)
  /\ returns_text (git_add_all H)
  /\ (forall message, returns_text (git_commit H message))
  /\ (forall remote branch, returns_text (git_push H remote branch))
  /\ (forall e, subprocess_run_here H (git_argv H ["status"]) = Raise e ->
        git_status H = Ret ("Error running git status: " +:+ exc_text H e))
  /\ (forall e, subprocess_run_here H (git_argv H ["add"; "-A"]) = Raise e ->
        git_add_all H = Ret ("Error running git add -A: " +:+ exc_text H e))
  /\ (forall message e,
        subprocess_run_here H (git_argv H ["commit"; "-m"; message]) = Raise e ->
        git_commit H message
        = Ret ("Error running git commit: " +:+ exc_text H e))
  /\ (forall remote branch e,
        subprocess_run_here H
          (git_argv H ["push"; default "origin" remote; default "main" branch])
        = Raise e ->
        git_push H remote branch
        = Ret ("Error running git push: " +:+ exc_text H e)).
Proof.
  split; [apply try_except_returns|].
  split; [apply try_except_returns|].
  split; [intros message; apply try_except_returns|].
  split; [intros remote branch; apply try_except_returns|].
  unfold git_argv.
  split; [|split; [|split]].
  - intros e He. unfold git_status, _project_root. rewrite He. reflexivity.
  - intros e He. unfold git_add_all, _project_root. rewrite He. reflexivity.
  - intros message e He. unfold git_commit, _project_root.
    rewrite He. reflexivity.
  - intros remote branch e He. unfold git_push, _project_root.
    rewrite He. reflexivity.
Qed.

(** ** summarize_coverage: which report is read *)

Lemma jacoco_candidates_eq E :
  jacoco_candidates E = [jacoco_site_report E; jacoco_fallback_report E].
Proof. reflexivity. Qed.

(** X3.  The report read is the first candidate that exists: the site
    report whenever it exists, the fallback only when the site report
    does not.  There is no falling through: a report that exists but
    does not parse yields the error string, whatever the other
    candidate holds. *)
Theorem coverage_report_resolution (E : env) (report_path : string)
    (Hfirst : path_exists E (jacoco_site_report E) = true
              /\ report_path = jacoco_site_report E
              \/ path_exists E (jacoco_site_report E) = false
                 /\ path_exists E (jacoco_fallback_report E) = true
                 /\ report_path = jacoco_fallback_report E) :
  (forall e, et_parse E report_path = Raise e ->
     summarize_coverage E
     = Ret ("Error reading JaCoCo report: " +:+ exc_text E e))
  /\ (forall root lines,
        et_parse E report_path = Ret root ->
        Forall2 (fun counter line => counter_line E counter = Ret line)
          (findall "counter" root) lines ->
        summarize_coverage E
        = Ret (py_join nl
                 (("JaCoCo coverage summary from: " +:+ report_path) :: lines))).
Proof.
  assert (Hfound : List.find (path_exists E) (jacoco_candidates E)
                   = Some report_path).
  { rewrite jacoco_candidates_eq. simpl.
    destruct Hfirst as [[Hs ->]|(Hs & Hf & ->)].
    - rewrite Hs. reflexivity.
    - rewrite Hs, Hf. reflexivity. }
  split.
  - intros e Hparse. unfold summarize_coverage. rewrite Hfound, Hparse.
    reflexivity.
  - intros root lines Hparse Hlines.
    rewrite (summarize_coverage_found E report_path root Hfound Hparse).
    apply counter_lines_Forall2 in Hlines. rewrite Hlines. reflexivity.
Qed.

Lemma coverage_report_resolution_witness :
  summarize_coverage broken_site_env
  = Ret "Error reading JaCoCo report: syntax error: line 1, column 0"
  /\ summarize_coverage fallback_only_env
     = Ret (py_join nl
              [ "JaCoCo coverage summary from: /srv/agent/codebase/target/jacoco.xml";
                "- INSTRUCTION: 90.0% (45/50 covered)";
                "- BRANCH: 0.0% (0/0 covered)";
                "- LINE: 66.7% (2/3 covered)" ]).
Proof.
  split.
  - refine (proj1 (coverage_report_resolution broken_site_env site_report_path _)
              (EnvError "syntax error: line 1, column 0") _).
    + left. split; vm_compute; reflexivity.
    + vm_compute. reflexivity.
  - refine (proj2 (coverage_report_resolution fallback_only_env
                     fallback_report_path _)
              sample_report
              [ "- INSTRUCTION: 90.0% (45/50 covered)";
                "- BRANCH: 0.0% (0/0 covered)";
                "- LINE: 66.7% (2/3 covered)" ] _ _).
    + right. repeat split; vm_compute; reflexivity.
    + vm_compute. reflexivity.
    + change (findall "counter" sample_report)
        with [counter_elt "INSTRUCTION" "45" "5"; counter_elt "BRANCH" "0" "0";
              counter_elt "LINE" "2" "1"].
      repeat constructor; vm_compute; reflexivity.
Defined.

(** ** Where the class file is looked for *)

Lemma str_split_char_nonempty sep s : str_split_char sep s <> [].
Proof.
  destruct s as [|c s]; simpl; [discriminate|].
  destruct (Ascii.eqb c sep); [discriminate|].
  destruct (str_split_char sep s); discriminate.
Qed.

(** Replacing a separator is splitting at it and joining the pieces. *)
Lemma str_replace_char_join_split old new s :
  str_replace_char old new s = py_join new (str_split_char old s).
Proof.
  induction s as [|c s IH]; [reflexivity|].
  cbn [str_replace_char str_split_char].
  destruct (Ascii.eqb c old).
  - rewrite py_join_cons by apply str_split_char_nonempty.
    rewrite IH. reflexivity.
  - rewrite IH. pose proof (str_split_char_nonempty old s) as Hne.
    destruct (str_split_char old s) as [|piece pieces]; [destruct Hne; reflexivity|].
    destruct pieces as [|p ps]; reflexivity.
Qed.

(** X10.  The file probed for a class name is named after the pieces of
    the name between its dots: the pieces are joined with the path
    separator of the host, [.java] is appended, and the result is
    joined under [src/main/java] of the code base. *)
Theorem package_path_joins_components (E : env) (class_name : string) :
  class_candidate E class_name
  = path_join E (CODEBASE_DIR E)
      ["src"; "main"; "java";
       py_join (os_sep E) (str_split_char "."%char class_name) +:+ ".java"].
Proof.
  rewrite class_candidate_eq, str_replace_char_join_split. reflexivity.
Qed.

Lemma package_path_absolute class_name :
  str_starts_with_char "."%char class_name = true
  \/ str_starts_with_char "/"%char class_name = true ->
  str_starts_with_char "/"%char
    (str_replace_char "."%char "/" class_name +:+ ".java") = true.
Proof.
  destruct class_name as [|c s]; [intros [H|H]; discriminate H|].
  unfold str_starts_with_char at 1 2. cbn [str_replace_char].
  rewrite (Ascii.eqb_sym "." c).
  destruct (Ascii.eqb c ".") eqn:Hdot; [reflexivity|].
  intros [H|H]; [discriminate H|]. rewrite !str_app_cons. exact H.
Qed.

(** X9.  On a POSIX host a class name that opens with a dot or a
    slash leaves the source directory: its package path is absolute,
    [os.path.join] drops everything before an absolute part, and the
    file probed is the package path itself, whatever the directory of
    the code base. *)
Theorem absolute_class_name_leaves_source_root (E : env) (class_name : string)
    (Hjoin : path_join E = posix_join) (Hsep : os_sep E = "/")
    (Habsolute : str_starts_with_char "."%char class_name = true
                 \/ str_starts_with_char "/"%char class_name = true) :
  class_candidate E class_name
  = str_replace_char "."%char "/" class_name +:+ ".java"
  /\ str_starts_with_char "/"%char (class_candidate E class_name) = true.
Proof.
  apply package_path_absolute in Habsolute.
  assert (Hcandidate : class_candidate E class_name
                       = str_replace_char "."%char "/" class_name +:+ ".java").
  { rewrite class_candidate_eq, Hjoin, Hsep.
    change ["src"; "main"; "java";
            str_replace_char "."%char "/" class_name +:+ ".java"]
      with (["src"; "main"; "java"]
            ++ [str_replace_char "."%char "/" class_name +:+ ".java"]).
    rewrite posix_join_app. cbn [posix_join]. rewrite Habsolute. reflexivity. }
  split; [exact Hcandidate|]. rewrite Hcandidate. exact Habsolute.
Qed.

Lemma absolute_class_name_leaves_source_root_witness :
  class_candidate bare_env "/etc/hosts" = "/etc/hosts.java"
  /\ class_candidate bare_env ".profile" = "/profile.java".
Proof.
  split.
  - exact (proj1 (absolute_class_name_leaves_source_root bare_env "/etc/hosts"
                    eq_refl eq_refl (or_intror eq_refl))).
  - exact (proj1 (absolute_class_name_leaves_source_root bare_env ".profile"
                    eq_refl eq_refl (or_introl eq_refl))).
Defined.

(** ** The simple name of a class *)

Lemma str_ends_with_char_cons c a s :
  s <> "" -> str_ends_with_char c (String a s) = str_ends_with_char c s.
Proof. destruct s; [intros []; reflexivity|reflexivity]. Qed.

(** The last piece of a split, with what precedes it: nothing when
    there is one piece, and otherwise a text that ends with the
    separator. *)
Lemma str_split_char_last c s :
  str_contains_char c (py_last (str_split_char c s)) = false
  /\ match str_split_char c s with
     | [piece] => s = piece
     | pieces =>
         exists qualifier,
           s = qualifier +:+ py_last pieces
           /\ str_ends_with_char c qualifier = true
     end.
Proof.
  unfold py_last. induction s as [|a s [IHdot IH]]; [split; reflexivity|].
  cbn [str_split_char].
  pose proof (str_split_char_nonempty c s) as Hne.
  destruct (Ascii.eqb a c) eqn:Hac.
  - apply Ascii.eqb_eq in Hac. subst a.
    destruct (str_split_char c s) as [|piece pieces]; [destruct Hne; reflexivity|].
    split; [exact IHdot|].
    destruct pieces as [|p ps].
    + subst s. exists (String c ""). split; [reflexivity|].
      simpl. apply Ascii.eqb_refl.
    + destruct IH as (q & Hs & Hq). exists (String c q).
      split; [rewrite str_app_cons; f_equal; exact Hs|].
      rewrite str_ends_with_char_cons; [exact Hq|].
      intros ->. discriminate Hq.
  - destruct (str_split_char c s) as [|piece pieces]; [destruct Hne; reflexivity|].
    destruct pieces as [|p ps].
    + subst s. split; [|reflexivity].
      cbn [List.last str_contains_char] in *.
      rewrite (Ascii.eqb_sym c a), Hac. exact IHdot.
    + split; [exact IHdot|].
      destruct IH as (q & Hs & Hq). exists (String a q).
      split; [rewrite str_app_cons; f_equal; exact Hs|].
      rewrite str_ends_with_char_cons; [exact Hq|].
      intros ->. discriminate Hq.
Qed.

(** X11.  The simple name that names the generated test class is what
    follows the last dot of the class name: it holds no dot, and the
    class name is the simple name itself or a qualifier that ends with
    a dot followed by the simple name.  A class name that ends with a
    dot has the empty simple name. *)
Theorem simple_name_follows_last_dot (class_name : string) :
  str_contains_char "."%char (simple_name class_name) = false
  /\ (class_name = simple_name class_name
      \/ exists qualifier,
           class_name = qualifier +:+ simple_name class_name
           /\ str_ends_with_char "."%char qualifier = true)
  /\ (str_contains_char "."%char class_name = false ->
      simple_name class_name = class_name)
  /\ (str_ends_with_char "."%char class_name = true ->
      simple_name class_name = "").
Proof.
  unfold simple_name.
  destruct (str_split_char_last "."%char class_name) as [Hdot Hshape].
  split; [exact Hdot|]. split; [|split].
  - destruct (str_split_char "." class_name) as [|piece [|p ps]].
    + right. exact Hshape.
    + left. exact Hshape.
    + right. exact Hshape.
  - intros Hno. rewrite str_split_char_absent by exact Hno. reflexivity.
  - intros Hend.
    assert (Hor : class_name = py_last (str_split_char "." class_name)
                  \/ exists qualifier,
                       class_name
                       = qualifier +:+ py_last (str_split_char "." class_name)
                       /\ str_ends_with_char "."%char qualifier = true).
    { destruct (str_split_char "." class_name) as [|piece [|p ps]];
        [right; exact Hshape|left; exact Hshape|right; exact Hshape]. }
    destruct (py_last (str_split_char "." class_name)) as [|a t] eqn:Hlast;
      [reflexivity|].
    exfalso.
    assert (Hlastdot : str_ends_with_char "." (String a t) = false).
    { clear -Hdot. revert a Hdot. induction t as [|b t IH]; intros a Hdot.
      - cbn [str_contains_char] in Hdot. cbn [str_ends_with_char].
        apply orb_false_iff in Hdot as [Ha _]. exact Ha.
      - rewrite str_ends_with_char_cons by discriminate. apply IH.
        cbn [str_contains_char] in Hdot.
        apply orb_false_iff in Hdot as [_ Hdot]. exact Hdot. }
    destruct Hor as [Heq|(q & Heq & _)].
    + rewrite Heq in Hend. rewrite Hend in Hlastdot. discriminate.
    + rewrite Heq, str_ends_with_char_app in Hend.
      rewrite Hend in Hlastdot. discriminate.
Qed.

(** ** The shape of the skeleton *)

Lemma count_lines_app line l1 l2 :
  count_lines line (l1 ++ l2) = count_lines line l1 + count_lines line l2.
Proof. unfold count_lines. rewrite filter_app, length_app. reflexivity. Qed.

Lemma count_lines_nil line : count_lines line [] = 0.
Proof. reflexivity. Qed.

Lemma count_lines_cons_ne line l ls :
  l <> line -> count_lines line (l :: ls) = count_lines line ls.
Proof. intros H. unfold count_lines. rewrite filter_cons_False by exact H. reflexivity. Qed.

Lemma count_lines_cons_eq line ls :
  count_lines line (line :: ls) = S (count_lines line ls).
Proof. unfold count_lines. rewrite filter_cons_True by reflexivity. reflexivity. Qed.

Lemma str_app_inv_r s s' t : s +:+ t = s' +:+ t -> s = s'.
Proof.
  revert s'; induction s as [|c s IH]; intros [|c' s'] H.
  - reflexivity.
  - exfalso. apply (f_equal String.length) in H.
    rewrite !str_app_length in H. simpl in H. lia.
  - exfalso. apply (f_equal String.length) in H.
    rewrite !str_app_length in H. simpl in H. lia.
  - rewrite !str_app_cons in H. injection H as -> H. f_equal. apply IH, H.
Qed.

Lemma test_method_line_inj m1 m2 :
  test_method_line m1 = test_method_line m2 -> m1 = m2.
Proof.
  unfold test_method_line. intros H. cbn in H.
  injection H as H. eapply str_app_inv_r, H.
Qed.

Lemma skeleton_method_tests class_name mname :
  count_lines "    @Test" (skeleton_method class_name mname) = 1.
Proof.
  unfold skeleton_method.
  rewrite count_lines_cons_eq.
  repeat (rewrite count_lines_cons_ne by (cbn; discriminate)).
  reflexivity.
Qed.

Lemma skeleton_method_line class_name mname name :
  count_lines (test_method_line name) (skeleton_method class_name mname)
  = if decide (mname = name) then 1 else 0.
Proof.
  unfold skeleton_method.
  rewrite count_lines_cons_ne by (unfold test_method_line; cbn; discriminate).
  fold (test_method_line mname).
  destruct (decide (mname = name)) as [->|Hne].
  - rewrite count_lines_cons_eq.
    repeat (rewrite count_lines_cons_ne
              by (unfold test_method_line; cbn; discriminate)).
    reflexivity.
  - rewrite count_lines_cons_ne
      by (intros Heq; apply Hne, test_method_line_inj, Heq).
    repeat (rewrite count_lines_cons_ne
              by (unfold test_method_line; cbn; discriminate)).
    reflexivity.
Qed.

Lemma skeleton_methods_tests class_name methods :
  count_lines "    @Test" (concat (map (skeleton_method class_name) methods))
  = length methods.
Proof.
  induction methods as [|m ms IH]; [reflexivity|].
  cbn [map concat]. rewrite count_lines_app, skeleton_method_tests, IH.
  reflexivity.
Qed.

Lemma skeleton_methods_line class_name methods name :
  count_lines (test_method_line name)
    (concat (map (skeleton_method class_name) methods))
  = count_lines name methods.
Proof.
  induction methods as [|m ms IH]; [reflexivity|].
  cbn [map concat]. rewrite count_lines_app, skeleton_method_line, IH.
  destruct (decide (m = name)) as [->|Hne].
  - rewrite count_lines_cons_eq. reflexivity.
  - rewrite count_lines_cons_ne by exact Hne. reflexivity.
Qed.

Lemma skeleton_methods_length class_name methods :
  length (concat (map (skeleton_method class_name) methods))
  = 8 * length methods.
Proof.
  induction methods as [|m ms IH]; [reflexivity|].
  cbn [map concat]. rewrite length_app, IH. simpl. lia.
Qed.

(** X15.  When the source has public methods the answer is the
    skeleton built from the sorted names: eleven lines around eight
    lines per method, with one [@Test] line per extracted name, and
    for every name the pattern captures exactly one test method
    [test_<name>], however many declarations share that name. *)
Theorem skeleton_one_test_per_method (E : env) (class_name src : string)
    (Hex : path_exists E (class_candidate E class_name) = true)
    (Hrd : read_latin1 E (class_candidate E class_name) = Ret src)
    (Hsome : extract_methods src <> []) :
  let lines := skeleton_lines class_name (extract_methods src) in
  suggest_junit_tests_for_class E class_name = Ret (py_join nl lines)
  /\ length lines = 11 + 8 * length (extract_methods src)
  /\ count_lines "    @Test" lines = length (extract_methods src)
  /\ (forall name, name ∈ declared_names src ->
        count_lines ("    public void test_" +:+ name +:+ "() {") lines = 1)
  /\ (forall name, name ∉ declared_names src ->
        count_lines ("    public void test_" +:+ name +:+ "() {") lines = 0).
Proof.
  intros lines. split; [|split; [|split; [|split]]].
  - rewrite (suggest_junit_on_source E class_name src Hex Hrd).
    destruct (extract_methods src) eqn:Hm; [destruct Hsome; reflexivity|].
    reflexivity.
  - unfold lines, skeleton_lines.
    rewrite !length_app, skeleton_methods_length. simpl. lia.
  - unfold lines, skeleton_lines.
    rewrite !count_lines_app, skeleton_methods_tests.
    repeat (rewrite count_lines_cons_ne by (cbn; discriminate)).
    rewrite !count_lines_nil. lia.
  - intros name Hin.
    change ("    public void test_" +:+ name +:+ "() {")
      with (test_method_line name).
    unfold lines, skeleton_lines.
    rewrite !count_lines_app, skeleton_methods_line.
    repeat (rewrite count_lines_cons_ne
              by (unfold test_method_line; cbn; discriminate)).
    rewrite !count_lines_nil, count_lines_NoDup;
      [reflexivity|apply extract_methods_NoDup|apply extract_methods_elem, Hin].
  - intros name Hin.
    change ("    public void test_" +:+ name +:+ "() {")
      with (test_method_line name).
    unfold lines, skeleton_lines.
    rewrite !count_lines_app, skeleton_methods_line.
    repeat (rewrite count_lines_cons_ne
              by (unfold test_method_line; cbn; discriminate)).
    assert (Hnot : name ∉ extract_methods src)
      by (rewrite extract_methods_elem; exact Hin).
    assert (Hzero : count_lines name (extract_methods src) = 0).
    { clear -Hnot. induction (extract_methods src) as [|m ms IH]; [reflexivity|].
      apply not_elem_of_cons in Hnot as [Hne Hnot].
      rewrite count_lines_cons_ne by (intros ->; apply Hne; reflexivity).
      apply IH, Hnot. }
    rewrite Hzero, !count_lines_nil. reflexivity.
Qed.

Lemma skeleton_one_test_per_method_witness :
  suggest_junit_tests_for_class shape_env "Shape"
  = Ret (py_join nl (skeleton_lines "Shape" ["add"; "area"]))
  /\ length (skeleton_lines "Shape" ["add"; "area"]) = 27
  /\ count_lines "    @Test" (skeleton_lines "Shape" ["add"; "area"]) = 2
  /\ count_lines "    public void test_area() {"
       (skeleton_lines "Shape" ["add"; "area"]) = 1.
Proof.
  assert (Hex : path_exists shape_env (class_candidate shape_env "Shape") = true)
    by (vm_compute; reflexivity).
  assert (Hrd : read_latin1 shape_env (class_candidate shape_env "Shape")
                = Ret overloads_java)
    by (vm_compute; reflexivity).
  assert (Hm : extract_methods overloads_java = ["add"; "area"])
    by (vm_compute; reflexivity).
  assert (Hd : declared_names overloads_java = ["area"; "area"; "add"])
    by (vm_compute; reflexivity).
  assert (Hsome : extract_methods overloads_java <> [])
    by (rewrite Hm; discriminate).
  destruct (skeleton_one_test_per_method shape_env "Shape" overloads_java
              Hex Hrd Hsome) as (Hout & Hlen & Htests & Hone & _).
  rewrite Hm in Hout, Hlen, Htests, Hone.
  split; [exact Hout|]. split; [exact Hlen|]. split; [exact Htests|].
  apply (Hone "area"). rewrite Hd. left.
Defined.

(** ** How close the percentage is *)

Section PercentageAccuracy.

Local Open Scope Z_scope.
Local Open Scope R_scope.

Lemma round_half_even_near a b :
  (0 <= a)%Z -> (0 < b)%Z ->
  (2 * a - b <= 2 * b * round_half_even a b <= 2 * a + b)%Z.
Proof.
  intros Ha Hb. unfold round_half_even.
  pose proof (Z.div_mod a b ltac:(lia)) as Hdm.
  pose proof (Z.mod_pos_bound a b Hb) as Hmod.
  destruct (Z.compare_spec (2 * (a mod b)) b) as [Heq|Hlt|Hgt];
    [destruct (Z.even (a / b))| |]; split; nia.
Qed.

(** The tenths of a float are within half a tenth of its value. *)
Lemma decimal_tenths_near m e :
  - / 2 <= IZR (decimal_tenths m e) - 10 * F2R (Z.pos m) e <= / 2.
Proof.
  unfold decimal_tenths.
  destruct (Z.leb_spec 0 e) as [He|He].
  - assert (Hval : IZR (10 * Z.pos m * 2 ^ e) = 10 * F2R (Z.pos m) e).
    { unfold F2R. rewrite !mult_IZR, <- bpow_IZR by exact He. ring. }
    rewrite Hval. lra.
  - set (b := (2 ^ (- e))%Z).
    assert (Hb : (0 < b)%Z) by (apply Z.pow_pos_nonneg; lia).
    destruct (round_half_even_near (10 * Z.pos m) b ltac:(lia) Hb)
      as [Hlo Hup].
    assert (Hbe : IZR b * bpow e = 1).
    { unfold b. rewrite <- bpow_IZR by lia. rewrite <- bpow_add.
      replace (- e + e)%Z with 0%Z by lia. reflexivity. }
    apply IZR_le in Hlo, Hup.
    rewrite minus_IZR, !mult_IZR in Hlo. rewrite plus_IZR, !mult_IZR in Hup.
    unfold F2R.
    set (n := IZR (round_half_even (10 * Z.pos m) b)) in *.
    assert (HbR : 0 < IZR b) by (apply IZR_lt; exact Hb).
    pose proof (bpow_pos e) as Hpe.
    assert (Hm : IZR (Z.pos m) * bpow e * IZR b = IZR (Z.pos m)).
    { rewrite Rmult_assoc, (Rmult_comm (bpow e)), Hbe. ring. }
    set (v := IZR (Z.pos m) * bpow e) in *.
    change (IZR 10) with 10 in *. change (IZR 2) with 2 in *.
    rewrite <- Hm in Hlo, Hup.
    split.
    + apply Rmult_le_reg_r with (2 * IZR b); [lra|]. nra.
    + apply Rmult_le_reg_r with (2 * IZR b); [lra|]. nra.
Qed.

(** Division, with the error on both sides. *)
Lemma SFdiv_value_near m1 e1 m2 e2 :
  let V := F2R (Z.pos m1) e1 / F2R (Z.pos m2) e2 in
  bpow (-1021) <= V < bpow 1022 ->
  exists m e,
    SFdiv prec emax (S754_finite false m1 e1) (S754_finite false m2 e2)
    = S754_finite false m e
    /\ V * (1 - 2 * eps) <= F2R (Z.pos m) e <= V * (1 + eps).
Proof.
  intros V [Hlo Hhi].
  pose proof (F2R_digits (Z.pos m1) e1 ltac:(lia)) as [Hx1 Hx2].
  pose proof (F2R_digits (Z.pos m2) e2 ltac:(lia)) as [Hy1 Hy2].
  set (X := F2R (Z.pos m1) e1) in *. set (Y := F2R (Z.pos m2) e2) in *.
  set (D := (Zdigits2 (Z.pos m1) + e1 - (Zdigits2 (Z.pos m2) + e2))%Z).
  assert (HY : 0 < Y) by (pose proof (bpow_pos (Zdigits2 (Z.pos m2) + e2 - 1)); lra).
  assert (HX : 0 < X) by (pose proof (bpow_pos (Zdigits2 (Z.pos m1) + e1 - 1)); lra).
  assert (HVY : V * Y = X) by (unfold V; field; lra).
  assert (HD1 : bpow (D - 1) < V).
  { assert (bpow (D - 1) * bpow (Zdigits2 (Z.pos m2) + e2)
            = bpow (Zdigits2 (Z.pos m1) + e1 - 1)).
    { rewrite <- bpow_add. f_equal. unfold D. lia. }
    pose proof (bpow_pos (D - 1)).
    apply Rmult_lt_reg_r with Y; [exact HY|]. nra. }
  assert (HD2 : V < bpow (D + 1)).
  { assert (bpow (D + 1) * bpow (Zdigits2 (Z.pos m2) + e2 - 1)
            = bpow (Zdigits2 (Z.pos m1) + e1)).
    { rewrite <- bpow_add. f_equal. unfold D. lia. }
    pose proof (bpow_pos (D + 1)).
    apply Rmult_lt_reg_r with Y; [exact HY|]. nra. }
  assert (HDlo : (-1021 < D + 1)%Z) by (apply bpow_lt_inv; lra).
  assert (HDhi : (D - 1 < 1022)%Z) by (apply bpow_lt_inv; lra).
  pose proof (SFdiv_core_binary_spec (Z.pos m1) e1 (Z.pos m2) e2
                ltac:(lia) ltac:(lia)) as Hcore.
  cbv zeta in Hcore. fold D in Hcore.
  specialize (Hcore ltac:(unfold emax, prec; lia)).
  unfold SFdiv. simpl xorb.
  destruct (SFdiv_core_binary prec emax (Z.pos m1) e1 (Z.pos m2) e2)
    as [[q e'] l].
  destruct Hcore as (Hq & He' & Hql & Hqu). fold X Y in Hql, Hqu.
  assert (HqV : F2R q e' <= V < F2R (q + 1) e').
  { split.
    - apply Rmult_le_reg_r with Y; [exact HY|]. lra.
    - apply Rmult_lt_reg_r with Y; [exact HY|]. lra. }
  assert (Hulp : F2R (q + 1) e' <= F2R q e' * (1 + eps)).
  { unfold F2R. rewrite plus_IZR. pose proof (bpow_pos e').
    apply IZR_le in Hq. change (IZR (2 ^ 52)) with 4503599627370496 in Hq.
    unfold eps.
    assert (1 <= IZR q * / 4503599627370496) by lra.
    nra. }
  assert (HQ : 0 < F2R q e').
  { unfold F2R. pose proof (bpow_pos e'). apply IZR_le in Hq.
    change (IZR (2 ^ 52)) with 4503599627370496 in Hq. nra. }
  assert (He : 0 < eps < / 1000000) by (unfold eps; lra).
  destruct (binary_round_aux_value q e' l) as (m & e & Hr & _ & Hb & _).
  - lia.
  - unfold emax, prec in *. lia.
  - split.
    + assert (Hhalf : bpow (-1022) * 2 = bpow (-1021)).
      { replace (-1021)%Z with (-1022 + 1)%Z by lia. rewrite bpow_add.
        unfold bpow at 2. simpl. ring. }
      nra.
    + apply Rle_lt_trans with V; [lra|].
      apply Rlt_le_trans with (bpow 1022); [lra|].
      apply Rle_trans with (bpow 1023); [apply bpow_le; lia|].
      apply max_double_ge.
  - right. pose proof (Zdigits2_ge 52 q Hq ltac:(lia)). unfold prec. lia.
  - exists m, e. split; [exact Hr|].
    set (Q := F2R q e') in *. set (M := F2R (Z.pos m) e) in *.
    assert (HV : V < Q * (1 + eps)) by lra.
    split; nra.
Qed.

(** The error analysis of [covered * 100.0 / total], on both sides:
    the quotient, times ten, is within [10^-11] of the exact number
    of tenths. *)
Lemma pct_error_near (C T Vc Vt Vp V : R) :
  1 <= C <= T ->
  C * (1 - eps) <= Vc <= C * (1 + eps) ->
  T * (1 - eps) <= Vt <= T * (1 + eps) ->
  Vc * 100 * (1 - eps) <= Vp <= Vc * 100 * (1 + eps) ->
  Vp / Vt * (1 - 2 * eps) <= V <= Vp / Vt * (1 + eps) ->
  - / 100000000000 <= 10 * V - 1000 * (C / T) <= / 100000000000.
Proof.
  intros [HC HCT] [Hc1 Hc2] [Ht1 Ht2] [Hp1 Hp2] [Hv1 Hv2].
  assert (He : 0 < eps < / 1000000000000000) by (unfold eps; lra).
  assert (HT : 0 < T) by lra.
  assert (HVt : 0 < Vt).
  { apply Rlt_le_trans with (T * (1 - eps)); [|exact Ht1].
    apply Rmult_lt_0_compat; lra. }
  assert (HW : Vp / Vt * Vt = Vp) by (field; lra).
  assert (HR : C / T * T = C) by (field; lra).
  set (W := Vp / Vt) in *. set (R := C / T) in *.
  assert (HR0 : 0 < R) by (unfold R; apply Rdiv_lt_0_compat; lra).
  assert (HR1 : R <= 1).
  { apply Rmult_le_reg_r with T; [exact HT|]. rewrite HR. lra. }
  assert (HRT : 0 <= 100 * R * T) by (apply Rmult_le_pos; lra).
  (* the product, against the exact one *)
  assert (Hpu : Vp <= 100 * C * ((1 + eps) * (1 + eps))).
  { apply Rle_trans with (Vc * 100 * (1 + eps)); [exact Hp2|].
    replace (100 * C * ((1 + eps) * (1 + eps)))
      with (C * (1 + eps) * 100 * (1 + eps)) by ring.
    apply Rmult_le_compat_r; [lra|]. apply Rmult_le_compat_r; [lra|exact Hc2]. }
  assert (Hpl : 100 * C * ((1 - eps) * (1 - eps)) <= Vp).
  { apply Rle_trans with (Vc * 100 * (1 - eps)); [|exact Hp1].
    replace (100 * C * ((1 - eps) * (1 - eps)))
      with (C * (1 - eps) * 100 * (1 - eps)) by ring.
    apply Rmult_le_compat_r; [lra|]. apply Rmult_le_compat_r; [lra|exact Hc1]. }
  assert (HWpos : 0 < W).
  { unfold W. apply Rdiv_lt_0_compat; [|exact HVt].
    apply Rlt_le_trans with (100 * C * ((1 - eps) * (1 - eps))); [|exact Hpl].
    repeat apply Rmult_lt_0_compat; lra. }
  clearbody W R.
  (* the quotient, against the exact one *)
  assert (HWup : W <= 100 * R * (1 + 4 * eps)).
  { apply Rmult_le_reg_r with (T * (1 - eps)); [apply Rmult_lt_0_compat; lra|].
    apply Rle_trans with (W * Vt);
      [apply Rmult_le_compat_l; [lra|exact Ht1]|].
    rewrite HW. apply Rle_trans with (100 * C * ((1 + eps) * (1 + eps)));
      [exact Hpu|].
    rewrite <- HR.
    replace (100 * (R * T) * ((1 + eps) * (1 + eps)))
      with (100 * R * T * ((1 + eps) * (1 + eps))) by ring.
    replace (100 * R * (1 + 4 * eps) * (T * (1 - eps)))
      with (100 * R * T * ((1 + 4 * eps) * (1 - eps))) by ring.
    apply Rmult_le_compat_l; [exact HRT|].
    clear -He. nra. }
  assert (HWlo : 100 * R * (1 - 3 * eps) <= W).
  { apply Rmult_le_reg_r with (T * (1 + eps)); [apply Rmult_lt_0_compat; lra|].
    apply Rle_trans with (W * Vt);
      [|apply Rmult_le_compat_l; [lra|exact Ht2]].
    rewrite HW. apply Rle_trans with (100 * C * ((1 - eps) * (1 - eps)));
      [|exact Hpl].
    rewrite <- HR.
    replace (100 * (R * T) * ((1 - eps) * (1 - eps)))
      with (100 * R * T * ((1 - eps) * (1 - eps))) by ring.
    replace (100 * R * (1 - 3 * eps) * (T * (1 + eps)))
      with (100 * R * T * ((1 - 3 * eps) * (1 + eps))) by ring.
    apply Rmult_le_compat_l; [exact HRT|].
    clear -He. nra. }
  (* the rounded quotient *)
  assert (HVup : V <= 100 * R * (1 + 6 * eps)).
  { apply Rle_trans with (W * (1 + eps)); [exact Hv2|].
    apply Rle_trans with (100 * R * (1 + 4 * eps) * (1 + eps));
      [apply Rmult_le_compat_r; [lra|exact HWup]|].
    replace (100 * R * (1 + 4 * eps) * (1 + eps))
      with (100 * R * ((1 + 4 * eps) * (1 + eps))) by ring.
    apply Rmult_le_compat_l; [lra|]. clear -He. nra. }
  assert (HVlo : 100 * R * (1 - 5 * eps) <= V).
  { apply Rle_trans with (W * (1 - 2 * eps)); [|exact Hv1].
    apply Rle_trans with (100 * R * (1 - 3 * eps) * (1 - 2 * eps));
      [|apply Rmult_le_compat_r; [lra|exact HWlo]].
    replace (100 * R * (1 - 3 * eps) * (1 - 2 * eps))
      with (100 * R * ((1 - 3 * eps) * (1 - 2 * eps))) by ring.
    apply Rmult_le_compat_l; [lra|]. clear -He. nra. }
  assert (HRe : 0 <= R * eps <= eps).
  { split; [apply Rmult_le_pos; lra|].
    rewrite <- (Rmult_1_l eps) at 2. apply Rmult_le_compat_r; lra. }
  clear -HVup HVlo HRe He. lra.
Qed.

(** The percentage of a counter with [0 < covered <= total < 2^1017]
    is the double nearest to a whole number of tenths, and that number
    is within half a tenth, and [10^-11], of the exact
    [1000 * covered / total]. *)
Lemma coverage_pct_tenths covered total :
  (0 < covered <= total)%Z -> (total < 2 ^ 1017)%Z ->
  exists tenths : Z,
    coverage_pct covered total = Ret (nearest_double false tenths 10)
    /\ (0 <= tenths <= 1000)%Z
    /\ - (/ 2 + / 100000000000)
       <= IZR tenths - 1000 * (IZR covered / IZR total)
       <= / 2 + / 100000000000.
Proof.
  intros [Hc Hct] Htb.
  assert (Hpow : (2 ^ 1017 < 2 ^ 1023)%Z) by (apply Z.pow_lt_mono_r; lia).
  destruct (float_of_int_value total ltac:(lia)) as (mt & et & Hft & Het & Hvt).
  destruct (float_of_int_value covered ltac:(lia)) as (mc & ec & Hfc & Hec & Hvc).
  assert (HC : 1 <= IZR covered <= IZR total)
    by (split; apply IZR_le; lia).
  assert (HT : IZR total < bpow 1017)
    by (rewrite bpow_IZR by lia; apply IZR_lt; exact Htb).
  assert (Hmul : exists mp ep,
             SFmul prec emax (S754_finite false mc ec) float_100
             = S754_finite false mp ep
             /\ F2R (Z.pos mc) ec * 100 * (1 - eps)
                <= F2R (Z.pos mp) ep
                <= F2R (Z.pos mc) ec * 100 * (1 + eps)).
  { rewrite <- float_100_value. apply SFmul_value.
    - unfold emax, prec in *. lia.
    - rewrite float_100_value.
      apply (scaled_in_range (IZR covered)); [lra|lra|exact Hvc]. }
  destruct Hmul as (mp & ep & Hp & Hvp).
  destruct (pct_error_chain _ _ _ _ _ HC HT Hvc Hvt Hvp) as (Hrange & Hup).
  destruct (SFdiv_value_near mp ep mt et Hrange) as (mq & eq & Hq & Hvq).
  pose proof (pct_error_near _ _ _ _ _ _ HC Hvc Hvt Hvp Hvq) as Hnear.
  pose proof (decimal_tenths_near mq eq) as Hten.
  assert (Hbound : F2R (Z.pos mq) eq <= 100 + / 25) by lra.
  pose proof (decimal_tenths_bounds mq eq Hbound) as Hn.
  pose proof (tenths_in_range_all _ Hn) as Hok.
  exists (decimal_tenths mq eq). split; [|split; [exact Hn|lra]].
  unfold coverage_pct.
  destruct (Z.eqb_spec total 0%Z) as [H0|_]; [lia|].
  unfold int_mul_float, float_div_int.
  rewrite Hfc, ret_bind, ret_bind, Hft, ret_bind. simpl float_is_zero.
  cbv iota. rewrite ret_bind, Hp, Hq.
  unfold py_round1, tenths_in_range in *.
  destruct (nearest_double false (decimal_tenths mq eq) 10) as [s|s| |s m' e'];
    try discriminate; reflexivity.
Qed.

(** Nothing covered is [0.0]. *)
Lemma coverage_pct_none total :
  (0 <= total < 2 ^ 1023)%Z -> coverage_pct 0 total = Ret float_zero.
Proof.
  intros [H0 Hlt]. unfold coverage_pct.
  destruct (Z.eqb_spec total 0%Z) as [_|Hne]; [reflexivity|].
  destruct (float_of_int_value total ltac:(lia)) as (mt & et & Hft & _ & _).
  unfold int_mul_float, float_div_int.
  rewrite float_of_int_zero, ret_bind, ret_bind, Hft, ret_bind. reflexivity.
Qed.

(** Everything covered is [100.0]. *)
Lemma coverage_pct_full total :
  (0 < total < 2 ^ 1017)%Z -> coverage_pct total total = Ret float_100.
Proof.
  intros [H0 Hlt].
  destruct (coverage_pct_tenths total total ltac:(lia) Hlt)
    as (tenths & Hpct & Hrange & Hnear).
  assert (Hone : IZR total / IZR total = 1).
  { field. apply not_0_IZR. lia. }
  rewrite Hone in Hnear.
  assert (Hten : tenths = 1000%Z).
  { assert (Hlo : (999 < tenths)%Z) by (apply lt_IZR; lra).
    lia. }
  rewrite Hpct, Hten. vm_compute. reflexivity.
Qed.

End PercentageAccuracy.

(** X7.  For a counter with [0 <= covered <= total] and
    [0 < total < 2^1017] the percentage is the double nearest to a
    whole number of tenths between 0 and 1000, and that number is
    within half a tenth (and [10^-11] of a tenth, for the float
    arithmetic) of the exact [1000 * covered / total]: the figure
    shown is off by at most 0.05 percentage points. *)
Theorem percentage_accuracy (covered total : Z)
    (Hcovered : (0 <= covered <= total)%Z)
    (Htotal : (0 < total < 2 ^ 1017)%Z) :
  exists tenths : Z,
    coverage_pct covered total = Ret (nearest_double false tenths 10)
    /\ (0 <= tenths <= 1000)%Z
    /\ (Rabs (IZR tenths - 1000 * (IZR covered / IZR total))
        <= / 2 + / 100000000000)%R.
Proof.
  destruct (Z.eq_dec covered 0%Z) as [->|Hne].
  - exists 0%Z. split; [|split; [lia|]].
    + rewrite coverage_pct_none; [reflexivity|].
      assert ((2 ^ 1017 < 2 ^ 1023)%Z) by (apply Z.pow_lt_mono_r; lia). lia.
    + unfold Rdiv. rewrite Rmult_0_l, Rmult_0_r, Rminus_diag, Rabs_R0. lra.
  - destruct (coverage_pct_tenths covered total) as (tenths & Hpct & Hrange & Hnear);
      [lia|lia|].
    exists tenths. split; [exact Hpct|]. split; [exact Hrange|].
    apply Rabs_le. exact Hnear.
Qed.

Lemma percentage_accuracy_witness :
  exists tenths : Z,
    coverage_pct 2 3 = Ret (nearest_double false tenths 10)
    /\ (0 <= tenths <= 1000)%Z
    /\ (Rabs (IZR tenths - 1000 * (IZR 2 / IZR 3))
        <= / 2 + / 100000000000)%R.
Proof.
  apply (percentage_accuracy 2 3); [lia|].
  split; [lia|vm_compute; reflexivity].
Defined.

Lemma below_100_tenths n :
  (0 <= n < 1000)%Z -> SFltb (nearest_double false n 10) float_100 = true.
Proof.
  intros Hn.
  assert (Hall : forallb (fun n => SFltb (nearest_double false n 10) float_100)
                   (map Z.of_nat (seq 0 1000)) = true)
    by (vm_compute; reflexivity).
  rewrite forallb_forall in Hall. apply Hall.
  apply in_map_iff. exists (Z.to_nat n). split; [lia|].
  apply in_seq. lia.
Qed.

(** X8.  The ends of the scale are exact, for [0 < total < 2^1017]:
    a counter with everything covered shows [100.0], one with nothing
    covered shows [0.0].  Because of the rounding [100.0] does not
    mean that everything is covered, but it is shown only when the
    covered share is at least 99.95 % (less [10^-12] %). *)
Theorem percentage_extremes (total : Z) (Htotal : (0 < total < 2 ^ 1017)%Z) :
  coverage_pct total total = Ret float_100
  /\ coverage_pct 0 total = Ret float_zero
  /\ (forall covered, (0 <= covered <= total)%Z ->
        coverage_pct covered total = Ret float_100 ->
        ((9995 / 10000 - / 100000000000000) * IZR total <= IZR covered)%R).
Proof.
  split; [apply coverage_pct_full, Htotal|].
  split.
  { apply coverage_pct_none.
    assert ((2 ^ 1017 < 2 ^ 1023)%Z) by (apply Z.pow_lt_mono_r; lia). lia. }
  intros covered Hc Hpct.
  destruct (Z.eq_dec covered 0%Z) as [->|Hne].
  { rewrite coverage_pct_none in Hpct; [discriminate Hpct|].
    assert ((2 ^ 1017 < 2 ^ 1023)%Z) by (apply Z.pow_lt_mono_r; lia). lia. }
  destruct (coverage_pct_tenths covered total) as (tenths & Hpct' & Hrange & Hnear);
    [lia|lia|].
  rewrite Hpct' in Hpct. injection Hpct as Hpct.
  assert (Hten : tenths = 1000%Z).
  { destruct (Z.eq_dec tenths 1000%Z) as [Heq|Hneq]; [exact Heq|].
    exfalso. pose proof (below_100_tenths tenths ltac:(lia)) as Hlt.
    rewrite Hpct in Hlt. vm_compute in Hlt. discriminate Hlt. }
  subst tenths.
  assert (HT : (0 < IZR total)%R) by (apply IZR_lt; lia).
  assert (HR : (IZR covered / IZR total * IZR total = IZR covered)%R)
    by (field; lra).
  set (R := (IZR covered / IZR total)%R) in *.
  rewrite <- HR. apply Rmult_le_compat_r; [lra|]. lra.
Qed.

Lemma percentage_extremes_witness :
  coverage_pct 7 7 = Ret float_100 /\ coverage_pct 0 7 = Ret float_zero.
Proof.
  assert (H : (0 < 7 < 2 ^ 1017)%Z)
    by (split; [lia|vm_compute; reflexivity]).
  destruct (percentage_extremes 7 H) as (Hfull & Hnone & _).
  split; [exact Hfull|exact Hnone].
Defined.

(** ** Counters with an attribute missing *)

Lemma py_int_zero E : py_int E "0" = Ret 0%Z.
Proof. reflexivity. Qed.

(** X4.  A counter without a [covered] attribute counts as nothing
    covered: the default ["0"] is read, the percentage is [0.0] and
    the line shows [0/<missed>].  With [missed] absent as well the
    line shows [0/0]. *)
Theorem counter_without_covered (E : env) (counter : element) (missed : Z)
    (Habsent : attrib counter !! "covered" = None)
    (Hmissed : py_int E (attr_get counter "missed" "0") = Ret missed)
    (Hrange : (0 <= missed < 2 ^ 1023)%Z) :
  counter_line E counter
  = Ret ("- " +:+ py_str_opt (attrib counter !! "type") +:+ ": "
         +:+ float_repr E float_zero +:+ "% (0/"
         +:+ py_str_int missed +:+ " covered)")
  /\ (attrib counter !! "missed" = None -> missed = 0%Z).
Proof.
  split.
  - assert (Hdefault : attr_get counter "covered" "0" = "0")
      by (unfold attr_get; rewrite Habsent; reflexivity).
    unfold counter_line.
    rewrite Hdefault, py_int_zero, ret_bind, Hmissed, ret_bind.
    change (0 + missed)%Z with missed.
    rewrite coverage_pct_none by exact Hrange. reflexivity.
  - intros Hno. unfold attr_get in Hmissed. rewrite Hno in Hmissed.
    cbn [default] in Hmissed. rewrite py_int_zero in Hmissed.
    injection Hmissed as <-. reflexivity.
Qed.

Lemma counter_without_covered_witness :
  counter_line bare_env (Element "counter" {[ "type" := "LINE"; "missed" := "7" ]} [])
  = Ret "- LINE: 0.0% (0/7 covered)".
Proof.
  refine (proj1 (counter_without_covered bare_env
                   (Element "counter" {[ "type" := "LINE"; "missed" := "7" ]} [])
                   7 _ _ _)).
  - vm_compute. reflexivity.
  - vm_compute. reflexivity.
  - split; [lia|vm_compute; reflexivity].
Defined.

(** X5.  A counter without a [missed] attribute counts as nothing
    missed: the total is the covered count, and with anything covered
    (below [2^1017]) the percentage is [100.0]. *)
Theorem counter_without_missed (E : env) (counter : element) (covered : Z)
    (Habsent : attrib counter !! "missed" = None)
    (Hcovered : py_int E (attr_get counter "covered" "0") = Ret covered)
    (Hrange : (0 < covered < 2 ^ 1017)%Z) :
  counter_line E counter
  = Ret ("- " +:+ py_str_opt (attrib counter !! "type") +:+ ": "
         +:+ float_repr E float_100 +:+ "% ("
         +:+ py_str_int covered +:+ "/" +:+ py_str_int covered +:+ " covered)").
Proof.
  assert (Hdefault : attr_get counter "missed" "0" = "0")
    by (unfold attr_get; rewrite Habsent; reflexivity).
  unfold counter_line.
  rewrite Hcovered, ret_bind, Hdefault, py_int_zero, ret_bind, Z.add_0_r.
  rewrite coverage_pct_full by exact Hrange. reflexivity.
Qed.

Lemma counter_without_missed_witness :
  counter_line bare_env (Element "counter" {[ "type" := "CLASS"; "covered" := "12" ]} [])
  = Ret "- CLASS: 100.0% (12/12 covered)".
Proof.
  refine (counter_without_missed bare_env
            (Element "counter" {[ "type" := "CLASS"; "covered" := "12" ]} [])
            12 _ _ _).
  - vm_compute. reflexivity.
  - vm_compute. reflexivity.
  - split; [lia|vm_compute; reflexivity].
Defined.

(** ** Reading back a decimal numeral *)

Lemma pretty_N_char_digit y :
  (y < 10)%N ->
  digit_value (pretty_N_char y) = Some (Z.of_N y)
  /\ is_int_space (pretty_N_char y) = false
  /\ Ascii.eqb (pretty_N_char y) "+" = false
  /\ Ascii.eqb (pretty_N_char y) "-" = false
  /\ Ascii.eqb "_" (pretty_N_char y) = false.
Proof.
  intros Hy.
  assert (y = 0 \/ y = 1 \/ y = 2 \/ y = 3 \/ y = 4 \/ y = 5
          \/ y = 6 \/ y = 7 \/ y = 8 \/ y = 9)%N as Hcases by lia.
  repeat (destruct Hcases as [->|Hcases]); try subst y; repeat split; reflexivity.
Qed.

Lemma pretty_N_go_head x s :
  (0 < x)%N ->
  exists y rest, (y < 10)%N /\ pretty_N_go x s = String (pretty_N_char y) rest.
Proof.
  revert s. induction (N.lt_wf_0 x) as [x _ IH]; intros s Hx.
  rewrite pretty_N_go_step by exact Hx.
  destruct (N.eq_dec (N.div x 10) 0%N) as [Hz|Hnz].
  - rewrite Hz, pretty_N_go_0. exists (N.modulo x 10), s.
    split; [apply N.mod_lt; discriminate|reflexivity].
  - apply IH; [apply N.div_lt; [exact Hx|reflexivity]|].
    apply N.neq_0_lt_0, Hnz.
Qed.

(** Scanning the numeral of [x]: its digits are taken in, every one
    of them, and they add up to [x]. *)
Lemma scan_digits_pretty x : forall s,
  exists d : nat,
    (x = 0%N -> d = 0)
    /\ ((0 < x)%N -> (10 ^ (Z.of_nat d - 1) <= Z.of_N x < 10 ^ Z.of_nat d)%Z
                     /\ 0 < d)
    /\ forall acc k,
         scan_digits (pretty_N_go x s) acc k false
         = scan_digits s (acc * 10 ^ Z.of_nat d + Z.of_N x)%Z (k + d) false.
Proof.
  induction (N.lt_wf_0 x) as [x _ IH]; intros s.
  destruct (N.eq_dec x 0%N) as [->|Hnz].
  - exists 0. split; [reflexivity|]. split; [lia|].
    intros acc k. rewrite pretty_N_go_0. f_equal; [|lia].
    change (10 ^ Z.of_nat 0)%Z with 1%Z. change (Z.of_N 0) with 0%Z. lia.
  - assert (Hx : (0 < x)%N) by lia.
    destruct (IH (N.div x 10) ltac:(apply N.div_lt; [exact Hx|reflexivity])
                (String (pretty_N_char (N.modulo x 10)) s))
      as (d & Hd0 & Hdpos & Hscan).
    exists (S d). split; [intros ->; lia|].
    pose proof (N.div_mod x 10 ltac:(discriminate)) as Hdm.
    pose proof (N.mod_lt x 10 ltac:(discriminate)) as Hmod.
    assert (HdmZ : Z.of_N x
                   = (10 * Z.of_N (N.div x 10) + Z.of_N (N.modulo x 10))%Z).
    { rewrite Hdm at 1. rewrite N2Z.inj_add, N2Z.inj_mul. reflexivity. }
    assert (Hr : (0 <= Z.of_N (N.modulo x 10) < 10)%Z).
    { split; [apply N2Z.is_nonneg|]. apply N2Z.inj_lt in Hmod. exact Hmod. }
    assert (Hq0 : (0 <= Z.of_N (N.div x 10))%Z) by apply N2Z.is_nonneg.
    assert (HxZ : (0 < Z.of_N x)%Z) by (apply N2Z.inj_lt in Hx; exact Hx).
    assert (Hqz : N.div x 10 = 0%N <-> Z.of_N (N.div x 10) = 0%Z).
    { split; [intros ->; reflexivity|]. intros H0.
      apply N2Z.inj. exact H0. }

    assert (Hpow : (10 ^ Z.of_nat (S d) = 10 * 10 ^ Z.of_nat d)%Z).
    { rewrite Nat2Z.inj_succ, Z.pow_succ_r by lia. reflexivity. }
    split.
    + intros _. split; [|lia].
      replace (Z.of_nat (S d) - 1)%Z with (Z.of_nat d) by lia. rewrite Hpow.
      destruct (N.eq_dec (N.div x 10) 0%N) as [Hz|Hq].
      * rewrite (Hd0 Hz). change (10 ^ Z.of_nat 0)%Z with 1%Z.
        apply Hqz in Hz. clear IH Hdpos Hd0 Hdm Hnz Hx Hqz Hmod Hscan.
        set (q := Z.of_N (N.div x 10)) in *.
        set (r := Z.of_N (N.modulo x 10)) in *. clearbody q r. lia.
      * destruct (Hdpos ltac:(apply N.neq_0_lt_0, Hq)) as [[Hlo Hhi] Hd].
        assert (Hpow' : (10 ^ Z.of_nat d = 10 * 10 ^ (Z.of_nat d - 1))%Z).
        { replace (Z.of_nat d) with (Z.succ (Z.of_nat d - 1)) at 1 by lia.
          rewrite Z.pow_succ_r by lia. reflexivity. }
        clear Hscan Hpow.
        set (P := (10 ^ Z.of_nat d)%Z) in *.
        set (Q := (10 ^ (Z.of_nat d - 1))%Z) in *.
        clearbody P Q. clear IH Hdpos Hd0 Hdm Hq Hnz Hx Hqz Hmod.
        set (q := Z.of_N (N.div x 10)) in *.
        set (r := Z.of_N (N.modulo x 10)) in *. clearbody q r. lia.
    + intros acc k. rewrite pretty_N_go_step by exact Hx.
      rewrite Hscan. cbn [scan_digits].
      destruct (pretty_N_char_digit (N.modulo x 10) Hmod) as (-> & _).
      f_equal; [|lia]. rewrite Hpow, HdmZ. ring.
Qed.

Lemma str_starts_with_char_cons c c' s :
  str_starts_with_char c (String c' s) = Ascii.eqb c c'.
Proof. reflexivity. Qed.

Lemma py_int_pretty_N E x :
  (0 < x)%N -> (Z.of_N x < 10 ^ 640)%Z ->
  py_int E (pretty_N_go x "") = Ret (Z.of_N x)
  /\ py_int E ("-" +:+ pretty_N_go x "") = Ret (- Z.of_N x)%Z.
Proof.
  intros Hx Hlt.
  destruct (pretty_N_go_head x "" Hx) as (y & rest & Hy & Hhead).
  destruct (pretty_N_char_digit y Hy) as (_ & Hsp & Hplus & Hminus & Hus).
  destruct (scan_digits_pretty x "") as (d & _ & Hd & Hscan).
  destruct (Hd Hx) as [[Hlo _] Hdpos].
  assert (Hd640 : d <= 640).
  { assert (Hlt' : (10 ^ (Z.of_nat d - 1) < 10 ^ 640)%Z) by lia.
    apply Z.pow_lt_mono_r_iff in Hlt'; lia. }
  assert (Hlimit : (MAX_STR_DIGITS_THRESHOLD <? d)%nat = false)
    by (apply Nat.ltb_ge; exact Hd640).
  assert (Hnz : (d =? 0)%nat = false) by (apply Nat.eqb_neq; lia).
  assert (Hall : scan_digits (String (pretty_N_char y) rest) 0%Z 0 false
                 = Some (Z.of_N x, d, "")).
  { rewrite <- Hhead, Hscan. cbn [scan_digits]. repeat f_equal; lia. }
  split.
  - rewrite Hhead. unfold py_int. cbn [skip_spaces]. rewrite Hsp, Hplus, Hminus.
    cbv beta iota zeta. rewrite str_starts_with_char_cons. rewrite Hus, Hall, Hlimit, Hnz. reflexivity.
  - rewrite Hhead. unfold py_int.
    change ("-" +:+ String (pretty_N_char y) rest)
      with (String "-" (String (pretty_N_char y) rest)).
    cbn [skip_spaces]. change (is_int_space "-") with false.
    cbv beta iota zeta delta [Ascii.eqb Bool.eqb andb].
    rewrite str_starts_with_char_cons. rewrite Hus, Hall, Hlimit, Hnz. reflexivity.
Qed.

Lemma pretty_Zpos p : pretty (Z.pos p) = pretty_N_go (N.pos p) "".
Proof. reflexivity. Qed.

Lemma pretty_Zneg p : pretty (Z.neg p) = "-" +:+ pretty_N_go (N.pos p) "".
Proof. reflexivity. Qed.

(** X6.  Reading back what was written: the decimal numeral of an
    integer of fewer than 641 digits, as the summary line prints the
    counts, is read by [int] as that integer, on every host (above 640
    digits the length limit of the interpreter can refuse it). *)
Theorem int_of_str_round_trip (E : env) (n : Z)
    (Hn : (- 10 ^ 640 < n < 10 ^ 640)%Z) :
  py_int E (py_str_int n) = Ret n.
Proof.
  unfold py_str_int. destruct n as [|p|p].
  - reflexivity.
  - rewrite pretty_Zpos.
    change (Z.pos p) with (Z.of_N (N.pos p)).
    apply py_int_pretty_N; [reflexivity|]. change (Z.of_N (N.pos p)) with (Z.pos p). lia.
  - rewrite pretty_Zneg.
    change (Z.neg p) with (- Z.of_N (N.pos p))%Z.
    apply py_int_pretty_N; [reflexivity|]. change (Z.of_N (N.pos p)) with (Z.pos p). lia.
Qed.

Lemma int_of_str_round_trip_witness :
  py_int bare_env (py_str_int 4096) = Ret 4096%Z
  /\ py_int bare_env (py_str_int (-17)) = Ret (-17)%Z.
Proof.
  split.
  - apply (int_of_str_round_trip bare_env 4096). split; vm_compute; reflexivity.
  - apply (int_of_str_round_trip bare_env (-17)). split; vm_compute; reflexivity.
Defined.

(** ** Counters that are not integers *)

Lemma str_forall_app p a b :
  str_forall p (a +:+ b) = str_forall p a && str_forall p b.
Proof.
  induction a as [|c a IH]; [reflexivity|].
  rewrite str_app_cons. cbn [str_forall]. rewrite IH, andb_assoc. reflexivity.
Qed.

Lemma str_forall_impl (p q : ascii -> bool) s :
  (forall c, p c = true -> q c = true) ->
  str_forall p s = true -> str_forall q s = true.
Proof.
  intros Hpq. induction s as [|c s IH]; [reflexivity|].
  cbn [str_forall]. rewrite !andb_true_iff. intros [Hc Hs]. auto.
Qed.

Lemma is_int_space_char c : is_int_space c = true -> is_int_char c = true.
Proof.
  intros H. unfold is_int_char. destruct (digit_value c); [reflexivity|].
  rewrite H. apply orb_true_r.
Qed.

Lemma skip_spaces_spec s :
  exists sp, s = sp +:+ skip_spaces s /\ str_forall is_int_space sp = true.
Proof.
  induction s as [|c s (sp & Hs & Hsp)]; [exists ""; split; reflexivity|].
  cbn [skip_spaces]. destruct (is_int_space c) eqn:Hc.
  - exists (String c sp). rewrite str_app_cons, <- Hs. split; [reflexivity|].
    cbn [str_forall]. rewrite Hc, Hsp. reflexivity.
  - exists "". split; reflexivity.
Qed.

Lemma scan_digits_spec s : forall acc n us v nd rest,
  scan_digits s acc n us = Some (v, nd, rest) ->
  exists ds, s = ds +:+ rest /\ str_forall is_int_char ds = true.
Proof.
  induction s as [|c s IH]; intros acc n us v nd rest; cbn [scan_digits].
  - destruct us; [discriminate|]. intros [= <- <- <-]. exists "". split; reflexivity.
  - destruct (digit_value c) as [d|] eqn:Hd.
    + intros H. apply IH in H as (ds & -> & Hds). exists (String c ds).
      split; [reflexivity|]. cbn [str_forall]. unfold is_int_char at 1.
      rewrite Hd, Hds. reflexivity.
    + destruct (Ascii.eqb c "_") eqn:Hus.
      * destruct us; [discriminate|].
        intros H. apply IH in H as (ds & -> & Hds). exists (String c ds).
        split; [reflexivity|]. cbn [str_forall]. unfold is_int_char at 1.
        rewrite Hd, Hus, Hds. reflexivity.
      * destruct us; [discriminate|]. intros [= <- <- <-].
        exists "". split; reflexivity.
Qed.

(** [int] accepts only texts made of digits, underscores, signs and
    white space. *)
Lemma py_int_chars E s v :
  py_int E s = Ret v -> str_forall is_int_char s = true.
Proof.
  intros H.
  destruct (skip_spaces_spec s) as (sp & Hs & Hsp).
  apply (str_forall_impl _ is_int_char) in Hsp; [|apply is_int_space_char].
  assert (Hbody : forall (negative : bool) (s2 : string),
             (if str_starts_with_char "_" s2 then Raise (ValueError s)
              else match scan_digits s2 0%Z 0 false with
                   | None => Raise (ValueError s)
                   | Some (v0, ndigits, rest) =>
                       if (MAX_STR_DIGITS_THRESHOLD <? ndigits)%nat
                          && (0 <? int_max_str_digits E)%nat
                          && (int_max_str_digits E <? ndigits)%nat
                       then Raise (ValueError s)
                       else if (ndigits =? 0)%nat then Raise (ValueError s)
                       else match skip_spaces rest with
                            | EmptyString => Ret (if negative then (- v0)%Z else v0)
                            | _ => Raise (ValueError s)
                            end
                   end) = Ret v ->
             str_forall is_int_char s2 = true).
  { intros negative s2 Hb.
    destruct (str_starts_with_char "_" s2); [discriminate|].
    destruct (scan_digits s2 0%Z 0 false) as [[[v' nd] rest]|] eqn:Hscan;
      [|discriminate].
    destruct (_ && _ && _); [discriminate|].
    destruct (nd =? 0)%nat; [discriminate|].
    destruct (skip_spaces rest) eqn:Hrest; [|discriminate].
    apply scan_digits_spec in Hscan as (ds & -> & Hds).
    destruct (skip_spaces_spec rest) as (sp' & Hr & Hsp').
    rewrite Hrest, str_app_nil_r in Hr. subst sp'.
    apply (str_forall_impl _ is_int_char) in Hsp'; [|apply is_int_space_char].
    rewrite str_forall_app, Hds, Hsp'. reflexivity. }
  unfold py_int in H. rewrite Hs, str_forall_app, Hsp. cbn [andb].
  destruct (skip_spaces s) as [|c s1] eqn:Hs1.
  - apply (Hbody false "") in H. exact H.
  - destruct (Ascii.eqb c "+") eqn:Hplus.
    + apply (Hbody false) in H. cbn [str_forall]. rewrite H, andb_true_r.
      unfold is_int_char. destruct (digit_value c); [reflexivity|].
      rewrite Hplus. rewrite orb_true_r. reflexivity.
    + destruct (Ascii.eqb c "-") eqn:Hminus.
      * apply (Hbody true) in H. cbn [str_forall]. rewrite H, andb_true_r.
        unfold is_int_char. destruct (digit_value c); [reflexivity|].
        rewrite Hminus. rewrite orb_true_r. reflexivity.
      * apply (Hbody false) in H. exact H.
Qed.

Lemma counter_line_bad_count E counter text :
  attrib counter !! "covered" = Some text
  \/ attrib counter !! "missed" = Some text ->
  str_forall is_int_char text = false ->
  exists e, counter_line E counter = Raise e.
Proof.
  intros Hattr Hbad. unfold counter_line.
  assert (Hraise : exists e, py_int E text = Raise e).
  { destruct (py_int E text) as [v|e] eqn:Hv; [|eauto].
    apply py_int_chars in Hv. rewrite Hv in Hbad. discriminate Hbad. }
  destruct Hraise as [e0 He0].
  destruct Hattr as [Hc|Hm].
  - assert (Hget : attr_get counter "covered" "0" = text)
      by (unfold attr_get; rewrite Hc; reflexivity).
    rewrite Hget, He0. eauto.
  - assert (Hget : attr_get counter "missed" "0" = text)
      by (unfold attr_get; rewrite Hm; reflexivity).
    destruct (py_int E (attr_get counter "covered" "0")) as [c|e]; [|eauto].
    rewrite ret_bind, Hget, He0. eauto.
Qed.

Lemma counter_lines_raise E counters counter e0 :
  counter ∈ counters -> counter_line E counter = Raise e0 ->
  exists e, counter_lines E counters = Raise e.
Proof.
  intros Hin Hraise. induction counters as [|c cs IH]; [inversion Hin|].
  cbn [counter_lines].
  destruct (counter_line E c) as [line|e] eqn:Hc; [|eauto].
  rewrite ret_bind.
  apply elem_of_cons in Hin as [->|Hin]; [rewrite Hraise in Hc; discriminate|].
  destruct (IH Hin) as [e He]. rewrite He. eauto.
Qed.

(** X14.  One count that is not an integer spoils the whole summary:
    when any counter at the root of the report has a [covered] or
    [missed] attribute with a character other than a digit, an
    underscore, a sign or white space (a fraction, a hexadecimal
    number, a word), the answer is the error string, with no line for
    the counters that were fine. *)
Theorem malformed_count_spoils_summary (E : env) (report_path : string)
    (root counter : element) (text : string)
    (Hfound : List.find (path_exists E) (jacoco_candidates E) = Some report_path)
    (Hparse : et_parse E report_path = Ret root)
    (Hcounter : counter ∈ findall "counter" root)
    (Hattr : attrib counter !! "covered" = Some text
             \/ attrib counter !! "missed" = Some text)
    (Hbad : str_forall is_int_char text = false) :
  exists e,
    summarize_coverage E = Ret ("Error reading JaCoCo report: " +:+ exc_text E e).
Proof.
  destruct (counter_line_bad_count E counter text Hattr Hbad) as [e0 He0].
  destruct (counter_lines_raise E _ counter e0 Hcounter He0) as [e He].
  exists e. rewrite (summarize_coverage_found E report_path root Hfound Hparse), He.
  reflexivity.
Qed.

Lemma malformed_count_spoils_summary_witness :
  exists e,
    summarize_coverage fraction_report_env
    = Ret ("Error reading JaCoCo report: " +:+ exc_text fraction_report_env e).
Proof.
  apply (malformed_count_spoils_summary fraction_report_env site_report_path
           fraction_report (counter_elt "BRANCH" "4.5" "1") "4.5").
  - vm_compute. reflexivity.
  - vm_compute. reflexivity.
  - change (findall "counter" fraction_report)
      with [counter_elt "LINE" "45" "5"; counter_elt "BRANCH" "4.5" "1"].
    right. left.
  - left. vm_compute. reflexivity.
  - vm_compute. reflexivity.
Defined.

(** ** Reports as JaCoCo writes them *)

Lemma py_int_numeral E n :
  (0 <= n < 10 ^ 640)%Z -> py_int E (py_str_int n) = Ret n.
Proof.
  intros [H0 Hlt]. unfold py_str_int. destruct n as [|p|p]; [reflexivity| |lia].
  rewrite pretty_Zpos. change (Z.pos p) with (Z.of_N (N.pos p)).
  apply py_int_pretty_N; [reflexivity|exact Hlt].
Qed.

Lemma numeral_counter_line E counter covered missed :
  numeral_counter counter covered missed ->
  exists pct,
    counter_line E counter
    = Ret ("- " +:+ py_str_opt (attrib counter !! "type") +:+ ": "
           +:+ float_repr E pct +:+ "% ("
           +:+ py_str_int covered +:+ "/"
           +:+ py_str_int (covered + missed) +:+ " covered)")
    /\ pct_in_range pct = true.
Proof.
  intros (Hc & Hm & H0c & H0m & Hb).
  assert (Hbig : (2 ^ 1017 < 10 ^ 640)%Z) by (vm_compute; reflexivity).
  assert (Hpc : py_int E (attr_get counter "covered" "0") = Ret covered).
  { unfold attr_get. rewrite Hc. cbn [default].
    apply py_int_numeral; lia. }
  assert (Hpm : py_int E (attr_get counter "missed" "0") = Ret missed).
  { unfold attr_get. rewrite Hm. cbn [default].
    apply py_int_numeral; lia. }
  assert (Hpct : exists pct, coverage_pct covered (covered + missed) = Ret pct
                             /\ pct_in_range pct = true).
  { destruct (Z.eq_dec (covered + missed)%Z 0%Z) as [Hz|Hnz].
    - exists float_zero. unfold coverage_pct. rewrite Hz. split; reflexivity.
    - destruct (coverage_pct_in_range covered (covered + missed)%Z)
        as (_ & _ & pct & _ & _ & _ & Hpct & Hin); [lia|lia|eauto]. }
  destruct Hpct as (pct & Hpct & Hin). exists pct. split; [|exact Hin].
  unfold counter_line. rewrite Hpc, ret_bind, Hpm, ret_bind, Hpct, ret_bind.
  reflexivity.
Qed.

Lemma numeral_counter_lines E counters :
  Forall (fun counter => exists covered missed,
            numeral_counter counter covered missed) counters ->
  exists lines,
    counter_lines E counters = Ret lines
    /\ Forall2 (fun counter line =>
                  exists covered missed pct,
                    numeral_counter counter covered missed
                    /\ line = "- " +:+ py_str_opt (attrib counter !! "type") +:+ ": "
                              +:+ float_repr E pct +:+ "% ("
                              +:+ py_str_int covered +:+ "/"
                              +:+ py_str_int (covered + missed) +:+ " covered)"
                    /\ pct_in_range pct = true)
         counters lines.
Proof.
  induction 1 as [|counter counters (c & m & Hnum) _ (lines & Hlines & Hall)].
  - exists []. split; [reflexivity|constructor].
  - destruct (numeral_counter_line E counter c m Hnum) as (pct & Hline & Hin).
    eexists (_ :: lines). cbn [counter_lines].
    rewrite Hline, ret_bind, Hlines, ret_bind. split; [reflexivity|].
    constructor; [|exact Hall]. exists c, m, pct. auto.
Qed.

(** X16.  A report as JaCoCo writes it is always summarized: when the
    report is found and parses, and every counter at its root carries
    the decimal numerals of two non-negative counts with a total below
    [2^1017], the answer is the header and one line per counter, in
    document order, each with the counts as they were written and a
    percentage from [0.0] to [100.0]; it is never the error string. *)
Theorem numeral_report_is_summarized (E : env) (report_path : string)
    (root : element)
    (Hfound : List.find (path_exists E) (jacoco_candidates E) = Some report_path)
    (Hparse : et_parse E report_path = Ret root)
    (Hcounters : Forall (fun counter => exists covered missed,
                           numeral_counter counter covered missed)
                   (findall "counter" root)) :
  exists lines,
    summarize_coverage E
    = Ret (py_join nl (("JaCoCo coverage summary from: " +:+ report_path) :: lines))
    /\ Forall2 (fun counter line =>
                  exists covered missed pct,
                    numeral_counter counter covered missed
                    /\ line = "- " +:+ py_str_opt (attrib counter !! "type") +:+ ": "
                              +:+ float_repr E pct +:+ "% ("
                              +:+ py_str_int covered +:+ "/"
                              +:+ py_str_int (covered + missed) +:+ " covered)"
                    /\ pct_in_range pct = true)
         (findall "counter" root) lines.
Proof.
  destruct (numeral_counter_lines E _ Hcounters) as (lines & Hlines & Hall).
  exists lines. split; [|exact Hall].
  rewrite (summarize_coverage_found E report_path root Hfound Hparse), Hlines.
  reflexivity.
Qed.

Lemma numeral_report_is_summarized_witness :
  exists lines,
    summarize_coverage report_env
    = Ret (py_join nl
             ("JaCoCo coverage summary from: /srv/agent/codebase/target/site/jacoco/jacoco.xml"
              :: lines))
    /\ length lines = 3.
Proof.
  destruct (numeral_report_is_summarized report_env site_report_path sample_report)
    as (lines & Hsum & Hall).
  - vm_compute. reflexivity.
  - vm_compute. reflexivity.
  - change (findall "counter" sample_report)
      with [counter_elt "INSTRUCTION" "45" "5"; counter_elt "BRANCH" "0" "0";
            counter_elt "LINE" "2" "1"].
    repeat constructor.
    + exists 45%Z, 5%Z. repeat split; try (vm_compute; reflexivity); discriminate.
    + exists 0%Z, 0%Z. repeat split; try (vm_compute; reflexivity); discriminate.
    + exists 2%Z, 1%Z. repeat split; try (vm_compute; reflexivity); discriminate.
  - exists lines. split; [exact Hsum|].
    apply Forall2_length in Hall. rewrite <- Hall. reflexivity.
Defined.

(** ** What the pattern matches *)

Lemma greedy_sound {R} set s (k : string -> option R) r :
  greedy set s k = Some r ->
  exists t s', s = t +:+ s' /\ str_forall set t = true /\ k s' = Some r.
Proof.
  induction s as [|c s IH]; simpl.
  - intros Hk. exists "", "". auto.
  - destruct (set c) eqn:Hc.
    + destruct (greedy set s k) as [r'|] eqn:Hg.
      * intros [= <-]. destruct (IH eq_refl) as (t & s' & -> & Ht & Hk).
        exists (String c t), s'. cbn [str_forall]. rewrite Hc, Ht. auto.
      * intros Hk. exists "", (String c s). auto.
    + intros Hk. exists "", (String c s). auto.
Qed.

Lemma greedy_complete {R} set t s' (k : string -> option R) :
  str_forall set t = true -> k s' <> None -> greedy set (t +:+ s') k <> None.
Proof.
  intros Ht Hk. induction t as [|c t IH].
  - change ("" +:+ s') with s'. destruct s' as [|c s'']; [exact Hk|].
    cbn [greedy]. destruct (set c); [|exact Hk].
    destruct (greedy set s'' k); [discriminate|exact Hk].
  - cbn [str_forall] in Ht. apply andb_true_iff in Ht as [Hc Ht].
    rewrite str_app_cons. cbn [greedy]. rewrite Hc.
    destruct (greedy set (t +:+ s') k) eqn:Hg; [discriminate|].
    exfalso. exact (IH Ht eq_refl).
Qed.

Lemma re_exec_chr_sound c s g k m :
  re_exec (Chr c) s g k = Some m ->
  exists s', s = String c s' /\ k s' g = Some m.
Proof.
  simpl. destruct s as [|c' s']; [discriminate|].
  destruct (Ascii.eqb c c') eqn:Hc; [|discriminate].
  apply Ascii.eqb_eq in Hc. subst c'. eauto.
Qed.

Lemma re_exec_chr_complete c s' g k :
  re_exec (Chr c) (String c s') g k = k s' g.
Proof. simpl. rewrite Ascii.eqb_refl. reflexivity. Qed.

Lemma re_exec_lit_sound w : forall s g k m,
  w <> "" -> re_exec (Lit w) s g k = Some m ->
  exists s', s = w +:+ s' /\ k s' g = Some m.
Proof.
  induction w as [|c w IH]; intros s g k m Hw H; [destruct Hw; reflexivity|].
  destruct w as [|c' w'].
  - apply re_exec_chr_sound in H as (s' & -> & H). eauto.
  - change (Lit (String c (String c' w')))
      with (Cat (Chr c) (Lit (String c' w'))) in H.
    rewrite re_exec_cat in H.
    apply re_exec_chr_sound in H as (s1 & -> & H).
    apply IH in H as (s' & -> & H); [|discriminate]. eauto.
Qed.

Lemma re_exec_lit_complete w : forall s' g k,
  w <> "" -> re_exec (Lit w) (w +:+ s') g k = k s' g.
Proof.
  induction w as [|c w IH]; intros s' g k Hw; [destruct Hw; reflexivity|].
  destruct w as [|c' w'].
  - apply re_exec_chr_complete.
  - change (Lit (String c (String c' w')))
      with (Cat (Chr c) (Lit (String c' w'))).
    rewrite re_exec_cat, str_app_cons, re_exec_chr_complete.
    apply IH. discriminate.
Qed.

Lemma re_exec_plus_sound set s g k m :
  re_exec (Plus set) s g k = Some m ->
  exists t s', s = t +:+ s' /\ run1 set t /\ k s' g = Some m.
Proof.
  simpl. destruct s as [|c s]; [discriminate|].
  destruct (set c) eqn:Hc; [|discriminate].
  intros H. apply greedy_sound in H as (t & s' & -> & Ht & Hk).
  exists (String c t), s'. split; [reflexivity|]. split; [|exact Hk].
  split; [discriminate|]. cbn [str_forall]. rewrite Hc, Ht. reflexivity.
Qed.

Lemma re_exec_plus_complete set t s' g k :
  run1 set t -> k s' g <> None -> re_exec (Plus set) (t +:+ s') g k <> None.
Proof.
  intros [Hne Ht] Hk. destruct t as [|c t]; [destruct Hne; reflexivity|].
  cbn [str_forall] in Ht. apply andb_true_iff in Ht as [Hc Ht].
  rewrite str_app_cons. cbn [re_exec]. rewrite Hc.
  apply (greedy_complete set t s' (fun s'' => k s'' g) Ht Hk).
Qed.

Lemma re_exec_star_sound set s g k m :
  re_exec (Star set) s g k = Some m ->
  exists t s', s = t +:+ s' /\ str_forall set t = true /\ k s' g = Some m.
Proof. simpl. intros H. apply greedy_sound in H. exact H. Qed.

Lemma re_exec_star_complete set t s' g k :
  str_forall set t = true -> k s' g <> None ->
  re_exec (Star set) (t +:+ s') g k <> None.
Proof.
  intros Ht Hk. cbn [re_exec].
  apply (greedy_complete set t s' (fun s'' => k s'' g) Ht Hk).
Qed.

Lemma re_exec_opt_sound r s g k m :
  re_exec (Opt r) s g k = Some m ->
  re_exec r s g k = Some m \/ k s g = Some m.
Proof.
  cbn [re_exec]. destruct (re_exec r s g k); [intros [= <-]; left; reflexivity|].
  intros H. right. exact H.
Qed.

Lemma re_exec_opt_complete r s g k :
  re_exec r s g k <> None \/ k s g <> None -> re_exec (Opt r) s g k <> None.
Proof.
  cbn [re_exec]. destruct (re_exec r s g k); [discriminate|].
  intros [H|H]; [destruct H; reflexivity|exact H].
Qed.

Lemma re_exec_grp i r s g k :
  re_exec (Grp i r) s g k
  = re_exec r s g
      (fun s' g' =>
         k s' (<[i := str_take (String.length s - String.length s') s]> g')).
Proof. reflexivity. Qed.

Lemma str_take_app t s' :
  str_take (String.length (t +:+ s') - String.length s') (t +:+ s') = t.
Proof.
  rewrite str_app_length.
  replace (String.length t + String.length s' - String.length s')
    with (String.length t) by lia.
  induction t as [|c t IH]; [destruct s'; reflexivity|].
  rewrite str_app_cons. cbn [String.length str_take]. rewrite IH. reflexivity.
Qed.

(** A match of [method_pattern] at the start of a text consumed a
    declaration of the name in its second group. *)
Lemma method_pattern_sound s m :
  re_match_at method_pattern s = Some m ->
  exists text, s = text +:+ m_rest m /\ declaration_text text (group 2 m).
Proof.
  unfold re_match_at, method_pattern. intros H.
  rewrite re_exec_cat in H.
  apply re_exec_lit_sound in H as (s1 & -> & H); [|discriminate].
  rewrite re_exec_cat in H.
  apply re_exec_plus_sound in H as (ws1 & s2 & -> & Hws1 & H).
  rewrite re_exec_cat in H.
  assert (Hmod : exists modifier s3 g1,
             s2 = modifier +:+ s3
             /\ (modifier = ""
                 \/ exists ws, modifier = "static" +:+ ws /\ run1 re_space ws)
             /\ re_exec (Cat (Plus re_type_char)
                          (Cat (Plus re_space)
                             (Cat (Grp 2 (Plus re_word))
                                (Cat (Star re_space) (Chr "(")))))
                  s3 g1 (fun s' g => Some (ReMatch s' g)) = Some m).
  { apply re_exec_opt_sound in H as [H|H].
    - rewrite re_exec_grp, re_exec_cat in H.
      apply re_exec_lit_sound in H as (s2' & -> & H); [|discriminate].
      apply re_exec_plus_sound in H as (ws & s3 & -> & Hws & H).
      cbv beta in H.
      eexists ("static" +:+ ws), s3, _. split; [rewrite str_app_assoc; reflexivity|].
      split; [right; exists ws; auto|exact H].
    - exists "", s2, ∅. split; [reflexivity|]. split; [left; reflexivity|exact H]. }
  clear H. destruct Hmod as (modifier & s3 & g1 & -> & Hmod & H).
  rewrite re_exec_cat in H.
  apply re_exec_plus_sound in H as (rtype & s4 & -> & Htype & H).
  rewrite re_exec_cat in H.
  apply re_exec_plus_sound in H as (ws2 & s5 & -> & Hws2 & H).
  rewrite re_exec_cat, re_exec_grp in H.
  apply re_exec_plus_sound in H as (name & s6 & -> & Hname & H).
  cbv beta in H. rewrite str_take_app, re_exec_cat in H.
  apply re_exec_star_sound in H as (ws3 & s7 & -> & Hws3 & H).
  apply re_exec_chr_sound in H as (s8 & -> & H).
  injection H as <-. cbn [m_rest]. unfold group. cbn [m_groups].
  rewrite lookup_insert_eq. cbn [default].
  exists ("public" +:+ ws1 +:+ modifier +:+ rtype +:+ ws2 +:+ name +:+ ws3 +:+ "(").
  split.
  - rewrite !str_app_assoc. reflexivity.
  - exists ws1, modifier, rtype, ws2, ws3. auto 10.
Qed.

(** Where a declaration begins, [method_pattern] matches. *)
Lemma method_pattern_complete text name after :
  declaration_text text name ->
  re_match_at method_pattern (text +:+ after) <> None.
Proof.
  intros (ws1 & modifier & rtype & ws2 & ws3 & -> & Hws1 & Hmod & Htype & Hws2
          & Hname & Hws3).
  unfold re_match_at, method_pattern.
  set (k0 := fun (s' : string) (g : gmap nat string) => Some (ReMatch s' g)).
  assert (H6 : forall g,
             re_exec (Cat (Star re_space) (Chr "("))
               (ws3 +:+ "(" +:+ after) g k0 <> None).
  { intros g. rewrite re_exec_cat. apply re_exec_star_complete; [exact Hws3|].
    change ("(" +:+ after) with (String "(" after).
    rewrite re_exec_chr_complete. discriminate. }
  assert (H5 : forall g,
             re_exec (Cat (Grp 2 (Plus re_word))
                        (Cat (Star re_space) (Chr "(")))
               (name +:+ ws3 +:+ "(" +:+ after) g k0 <> None).
  { intros g. rewrite re_exec_cat, re_exec_grp.
    apply re_exec_plus_complete; [exact Hname|]. apply H6. }
  assert (H4 : forall g,
             re_exec (Cat (Plus re_space)
                        (Cat (Grp 2 (Plus re_word))
                           (Cat (Star re_space) (Chr "("))))
               (ws2 +:+ name +:+ ws3 +:+ "(" +:+ after) g k0 <> None).
  { intros g. rewrite re_exec_cat.
    apply re_exec_plus_complete; [exact Hws2|]. apply H5. }
  assert (H3 : forall g,
             re_exec (Cat (Plus re_type_char)
                        (Cat (Plus re_space)
                           (Cat (Grp 2 (Plus re_word))
                              (Cat (Star re_space) (Chr "(")))))
               (rtype +:+ ws2 +:+ name +:+ ws3 +:+ "(" +:+ after) g k0 <> None).
  { intros g. rewrite re_exec_cat.
    apply re_exec_plus_complete; [exact Htype|]. apply H4. }
  rewrite !str_app_assoc.
  rewrite re_exec_cat, re_exec_lit_complete by discriminate.
  rewrite re_exec_cat. apply re_exec_plus_complete; [exact Hws1|].
  rewrite re_exec_cat. apply re_exec_opt_complete.
  destruct Hmod as [->|(ws & -> & Hws)].
  - right. apply H3.
  - left. rewrite re_exec_grp, re_exec_cat, str_app_assoc.
    rewrite re_exec_lit_complete by discriminate.
    apply re_exec_plus_complete; [exact Hws|]. apply H3.
Qed.

(** ** The names in a source, and the names extracted *)

Lemma str_forall_absent p c t :
  p c = false -> str_forall p t = true -> str_contains_char c t = false.
Proof.
  intros Hc. induction t as [|x t IH]; [reflexivity|].
  cbn [str_forall str_contains_char]. rewrite andb_true_iff. intros [Hx Ht].
  rewrite (IH Ht), orb_false_r.
  destruct (Ascii.eqb c x) eqn:Heq; [|reflexivity].
  apply Ascii.eqb_eq in Heq. subst x. rewrite Hx in Hc. discriminate Hc.
Qed.

Lemma re_word_not_space c : re_word c = true -> re_space c = false.
Proof. destruct c as [[] [] [] [] [] [] [] []]; (reflexivity || discriminate). Qed.

(** Two ways of cutting one text in two: one of the first parts is a
    prefix of the other. *)
Lemma str_app_eq_split a : forall b c d,
  a +:+ b = c +:+ d ->
  (exists y, c = a +:+ y /\ b = y +:+ d)
  \/ (exists y, a = c +:+ y /\ d = y +:+ b).
Proof.
  induction a as [|x a IH]; intros b c d H.
  - left. exists c. split; [reflexivity|exact H].
  - destruct c as [|x' c].
    + right. exists (String x a). split; [reflexivity|]. symmetry. exact H.
    + rewrite !str_app_cons in H. injection H as <- H.
      destruct (IH _ _ _ H) as [(y & -> & ->)|(y & -> & ->)].
      * left. exists y. split; reflexivity.
      * right. exists y. split; reflexivity.
Qed.

Lemma str_last_split s :
  s <> "" -> exists s' c, s = s' +:+ String c "".
Proof.
  induction s as [|x s IH]; [intros []; reflexivity|]. intros _.
  destruct s as [|y s].
  - exists "", x. reflexivity.
  - destruct IH as (s' & c & Hs); [discriminate|].
    exists (String x s'), c. rewrite str_app_cons, <- Hs. reflexivity.
Qed.

Lemma str_app_last_inj a b x y :
  a +:+ String x "" = b +:+ String y "" -> a = b /\ x = y.
Proof.
  revert b; induction a as [|c a IH]; intros [|c' b] H.
  - injection H as ->. auto.
  - exfalso. rewrite str_app_cons in H. injection H as _ H.
    apply (f_equal String.length) in H. rewrite str_app_length in H.
    simpl in H. lia.
  - exfalso. rewrite str_app_cons in H. injection H as _ H.
    apply (f_equal String.length) in H. rewrite str_app_length in H.
    simpl in H. lia.
  - rewrite !str_app_cons in H. injection H as -> H.
    destruct (IH _ H) as [-> ->]. auto.
Qed.

(** The first occurrence of a character cuts a text in one way. *)
Lemma str_first_occurrence c a : forall b x y,
  str_contains_char c a = false -> str_contains_char c b = false ->
  a +:+ String c x = b +:+ String c y -> a = b /\ x = y.
Proof.
  induction a as [|u a IH]; intros b x y Ha Hb H.
  - destruct b as [|v b]; [injection H as ->; auto|].
    exfalso. rewrite str_app_cons in H. injection H as <- _.
    cbn [str_contains_char] in Hb. rewrite Ascii.eqb_refl in Hb. discriminate Hb.
  - destruct b as [|v b].
    + exfalso. rewrite str_app_cons in H. injection H as -> _.
      cbn [str_contains_char] in Ha. rewrite Ascii.eqb_refl in Ha. discriminate Ha.
    + rewrite !str_app_cons in H. injection H as <- H.
      cbn [str_contains_char] in Ha, Hb.
      apply orb_false_iff in Ha as [_ Ha]. apply orb_false_iff in Hb as [_ Hb].
      destruct (IH _ _ _ Ha Hb H) as [-> ->]. auto.
Qed.

(** A run of word characters followed by white space is cut in one
    way. *)
Lemma word_then_space_unique n : forall w n' w',
  str_forall re_word n = true -> str_forall re_space w = true ->
  str_forall re_word n' = true -> str_forall re_space w' = true ->
  n +:+ w = n' +:+ w' -> n = n'.
Proof.
  induction n as [|c n IH]; intros w n' w' Hn Hw Hn' Hw' H.
  - destruct n' as [|c' n']; [reflexivity|]. exfalso.
    change ("" +:+ w) with w in H. subst w.
    rewrite str_app_cons in Hw. cbn [str_forall] in Hw, Hn'.
    apply andb_true_iff in Hw as [Hs _]. apply andb_true_iff in Hn' as [Hc _].
    rewrite (re_word_not_space _ Hc) in Hs. discriminate.
  - cbn [str_forall] in Hn. apply andb_true_iff in Hn as [Hc Hn].
    destruct n' as [|c' n'].
    + exfalso. change ("" +:+ w') with w' in H. subst w'.
      rewrite str_app_cons in Hw'. cbn [str_forall] in Hw'.
      apply andb_true_iff in Hw' as [Hs _].
      rewrite (re_word_not_space _ Hc) in Hs. discriminate.
    + rewrite !str_app_cons in H. injection H as <- H.
      cbn [str_forall] in Hn'. apply andb_true_iff in Hn' as [_ Hn'].
      f_equal. exact (IH _ _ _ Hn Hw Hn' Hw' H).
Qed.

(** In a run of word characters followed by white space no white
    space is followed by a word character. *)
Lemma word_then_space_no_word n : forall w y sp c rest,
  str_forall re_word n = true -> str_forall re_space w = true ->
  re_space sp = true -> re_word c = true ->
  n +:+ w = y +:+ String sp (String c rest) -> False.
Proof.
  induction n as [|a n IH]; intros w y sp c rest Hn Hw Hsp Hc H.
  - change ("" +:+ w) with w in H. subst w.
    rewrite str_forall_app in Hw. cbn [str_forall] in Hw.
    rewrite !andb_true_iff in Hw. destruct Hw as (_ & _ & Hs & _).
    rewrite (re_word_not_space _ Hc) in Hs. discriminate.
  - cbn [str_forall] in Hn. apply andb_true_iff in Hn as [Ha Hn].
    destruct y as [|u y].
    + change ("" +:+ String sp (String c rest)) with (String sp (String c rest)) in H.
      rewrite str_app_cons in H. injection H as -> _.
      rewrite (re_word_not_space _ Ha) in Hsp. discriminate.
    + rewrite !str_app_cons in H. injection H as _ H.
      exact (IH _ _ _ _ _ Hn Hw Hsp Hc H).
Qed.

(** What a declaration ends with: white space, the name, optional
    white space and the parenthesis, after a text without a
    parenthesis. *)
Lemma declaration_text_end text name :
  declaration_text text name ->
  exists head sp ws3,
    text = head +:+ String sp (name +:+ ws3) +:+ "("
    /\ re_space sp = true /\ run1 re_word name
    /\ str_forall re_space ws3 = true
    /\ str_contains_char "("%char (head +:+ String sp (name +:+ ws3)) = false.
Proof.
  intros (ws1 & modifier & rtype & ws2 & ws3 & -> & Hws1 & Hmod & Htype & Hws2
          & Hname & Hws3).
  destruct Hws2 as [Hne2 Hsp2].
  destruct (str_last_split ws2 Hne2) as (ws2' & sp & ->).
  rewrite str_forall_app in Hsp2. cbn [str_forall] in Hsp2.
  rewrite !andb_true_iff in Hsp2. destruct Hsp2 as (Hws2' & Hsp & _).
  exists ("public" +:+ ws1 +:+ modifier +:+ rtype +:+ ws2'), sp, ws3.
  split; [repeat (rewrite str_app_assoc || rewrite str_app_cons); reflexivity|].
  split; [exact Hsp|]. split; [exact Hname|]. split; [exact Hws3|].
  assert (Hmodp : str_contains_char "(" modifier = false).
  { destruct Hmod as [->|(ws & -> & _ & Hws)]; [reflexivity|].
    rewrite str_contains_char_app.
    rewrite (str_forall_absent re_space "(" ws eq_refl Hws). reflexivity. }
  rewrite !str_contains_char_app. cbn [str_contains_char].
  rewrite !str_contains_char_app.
  rewrite (str_forall_absent re_space "(" ws1 eq_refl (proj2 Hws1)).
  rewrite Hmodp.
  rewrite (str_forall_absent re_type_char "(" rtype eq_refl (proj2 Htype)).
  rewrite (str_forall_absent re_space "(" ws2' eq_refl Hws2').
  rewrite (str_forall_absent re_word "(" name eq_refl (proj2 Hname)).
  rewrite (str_forall_absent re_space "(" ws3 eq_refl Hws3).
  destruct (Ascii.eqb "(" sp) eqn:Heq; [|reflexivity].
  apply Ascii.eqb_eq in Heq. subst sp. discriminate Hsp.
Qed.

(** Two declarations that end at the same place declare the same
    name. *)
Lemma declaration_text_same_end before text text' name name' :
  declaration_text text name -> declaration_text text' name' ->
  text' = before +:+ text -> name = name'.
Proof.
  intros Ht Ht' Heq.
  apply declaration_text_end in Ht as (h & sp & w & -> & Hsp & [Hne Hn] & Hw & _).
  apply declaration_text_end in Ht'
    as (h' & sp' & w' & -> & Hsp' & [Hne' Hn'] & Hw' & _).
  rewrite <- !str_app_assoc in Heq. apply str_app_inv_r in Heq.
  destruct (str_app_eq_split _ _ _ _ Heq) as [(y & Hy & Htail)|(y & Hy & Htail)].
  - (* the second declaration is cut inside [before +:+ h] *)
    destruct y as [|u y].
    + change ("" +:+ String sp (name +:+ w)) with (String sp (name +:+ w)) in Htail.
      injection Htail as _ Htail. symmetry.
      exact (word_then_space_unique _ _ _ _ Hn' Hw' Hn Hw Htail).
    + exfalso. rewrite str_app_cons in Htail. injection Htail as _ Htail.
      destruct name as [|c rest]; [destruct Hne; reflexivity|].
      cbn [str_forall] in Hn. apply andb_true_iff in Hn as [Hc _].
      rewrite str_app_cons in Htail.
      exact (word_then_space_no_word _ _ _ _ _ _ Hn' Hw' Hsp Hc Htail).
  - destruct y as [|u y].
    + change ("" +:+ String sp' (name' +:+ w')) with (String sp' (name' +:+ w'))
        in Htail.
      injection Htail as _ Htail.
      exact (word_then_space_unique _ _ _ _ Hn Hw Hn' Hw' Htail).
    + exfalso. rewrite str_app_cons in Htail. injection Htail as _ Htail.
      destruct name' as [|c rest]; [destruct Hne'; reflexivity|].
      cbn [str_forall] in Hn'. apply andb_true_iff in Hn' as [Hc _].
      rewrite str_app_cons in Htail.
      exact (word_then_space_no_word _ _ _ _ _ _ Hn Hw Hsp' Hc Htail).
Qed.

(** A declaration holds one parenthesis, its last character. *)
Lemma declaration_text_paren text name :
  declaration_text text name ->
  exists body, text = body +:+ "(" /\ str_contains_char "("%char body = false.
Proof.
  intros Ht. apply declaration_text_end in Ht as (h & sp & w & -> & _ & _ & _ & Hp).
  exists (h +:+ String sp (name +:+ w)). split; [|exact Hp].
  repeat (rewrite str_app_assoc || rewrite str_app_cons). reflexivity.
Qed.

(** Two declarations that overlap in a text end at the same place. *)
Lemma declaration_text_overlap before text after text' after' y name name' :
  declaration_text text name -> declaration_text text' name' ->
  y <> "" -> text' = before +:+ y -> text +:+ after = y +:+ after' ->
  text = y.
Proof.
  intros Ht Ht' Hy Heq Htail.
  apply declaration_text_paren in Ht as (b & -> & Hb).
  apply declaration_text_paren in Ht' as (b' & -> & Hb').
  destruct (str_last_split y Hy) as (yb & c & ->).
  rewrite <- str_app_assoc in Heq. apply str_app_last_inj in Heq as [-> <-].
  rewrite str_contains_char_app in Hb'. apply orb_false_iff in Hb' as [_ Hyb].
  rewrite !str_app_assoc in Htail.
  change ("(" +:+ after) with (String "("%char after) in Htail.
  change ("(" +:+ after') with (String "("%char after') in Htail.
  destruct (str_first_occurrence _ _ _ _ _ Hb Hyb Htail) as [-> _]. reflexivity.
Qed.

Lemma finditer_from_skip r x : forall t,
  finditer_from r (String.length x) (x +:+ t) = finditer_from r 0 t.
Proof.
  induction x as [|c x IH]; intros t; [reflexivity|].
  rewrite str_app_cons. cbn [String.length finditer_from]. apply IH.
Qed.

Lemma finditer_from_cons r c s :
  finditer_from r 0 (String c s)
  = match re_match_at r (String c s) with
    | Some m =>
        m :: finditer_from r
               (String.length (String c s) - String.length (m_rest m) - 1) s
    | None => finditer_from r 0 s
    end.
Proof. reflexivity. Qed.

(** A match found by the iteration was made at some place of the
    text. *)
Lemma finditer_from_place r s : forall skip m,
  m ∈ finditer_from r skip s ->
  exists before s', s = before +:+ s' /\ re_match_at r s' = Some m.
Proof.
  induction s as [|c s IH]; intros skip m; simpl.
  - destruct skip; [|intros H; inversion H].
    destruct (re_match_at r "") as [m'|] eqn:Hm; [|intros H; inversion H].
    rewrite list_elem_of_singleton. intros ->. exists "", "". auto.
  - assert (Hrec : forall n, m ∈ finditer_from r n s ->
               exists before s', String c s = before +:+ s'
                                 /\ re_match_at r s' = Some m).
    { intros n Hin. apply IH in Hin as (b & s' & -> & Hm).
      exists (String c b), s'. auto. }
    destruct skip as [|n]; [|apply Hrec].
    destruct (re_match_at r (String c s)) as [m'|] eqn:Hm; [|apply Hrec].
    rewrite elem_of_cons. intros [->|Hin]; [|eapply Hrec, Hin].
    exists "", (String c s). auto.
Qed.

(** Every declaration in a text has its name found by the iteration:
    the match that covers the place where it ends captures it. *)
Lemma finditer_declarations n : forall s before text after name,
  String.length s <= n ->
  s = before +:+ text +:+ after -> declaration_text text name ->
  exists m, m ∈ finditer_from method_pattern 0 s /\ group 2 m = name.
Proof.
  induction n as [|n IH]; intros s before text after name Hlen Hs Ht.
  - exfalso. apply declaration_text_paren in Ht as (b & -> & _).
    subst s. rewrite !str_app_length in Hlen. simpl in Hlen. lia.
  - destruct s as [|c s].
    { exfalso. apply declaration_text_paren in Ht as (b & -> & _).
      apply (f_equal String.length) in Hs. rewrite !str_app_length in Hs.
      simpl in Hs. lia. }
    rewrite finditer_from_cons.
    destruct (re_match_at method_pattern (String c s)) as [m|] eqn:Hm.
    + destruct (method_pattern_sound _ _ Hm) as (consumed & Hcons & Hdecl).
      assert (Hne : consumed <> "").
      { apply declaration_text_paren in Hdecl as (b & -> & _).
        destruct b; discriminate. }
      destruct consumed as [|c' consumed']; [destruct Hne; reflexivity|].
      rewrite str_app_cons in Hcons. injection Hcons as <- Hcons.
      assert (Hskip : String.length (String c s) - String.length (m_rest m) - 1
                      = String.length consumed').
      { rewrite Hcons. cbn [String.length]. rewrite str_app_length. lia. }
      rewrite Hskip, Hcons, finditer_from_skip.
      assert (Hwhole : String c consumed' +:+ m_rest m
                       = before +:+ text +:+ after).
      { rewrite <- Hs, Hcons. reflexivity. }
      destruct (str_app_eq_split _ _ _ _ Hwhole) as [(y & Hy & Hrest)|(y & Hy & Hrest)].
      * (* the match ends inside [before] *)
        destruct (IH (m_rest m) y text after name) as (m' & Hin & Hg);
          [|exact Hrest|exact Ht|].
        { rewrite Hcons in Hlen. cbn [String.length] in Hlen.
          rewrite str_app_length in Hlen. lia. }
        exists m'. split; [right; exact Hin|exact Hg].
      * destruct y as [|u y].
        { (* the match ends where the declaration begins *)
          change ("" +:+ m_rest m) with (m_rest m) in Hrest.
          destruct (IH (m_rest m) "" text after name) as (m' & Hin & Hg);
            [|symmetry; exact Hrest|exact Ht|].
          { rewrite Hcons in Hlen. cbn [String.length] in Hlen.
          rewrite str_app_length in Hlen. lia. }
          exists m'. split; [right; exact Hin|exact Hg]. }
        (* the match and the declaration overlap *)
        exists m. split; [left|].
        assert (Htext : text = String u y).
        { eapply (declaration_text_overlap before text after
                    (String c consumed') (m_rest m) (String u y));
            [exact Ht|exact Hdecl|discriminate|exact Hy|exact Hrest]. }
        symmetry.
        eapply (declaration_text_same_end before text (String c consumed'));
          [exact Ht|exact Hdecl|]. rewrite Htext. exact Hy.
    + destruct before as [|b before'].
      * exfalso. change ("" +:+ text +:+ after) with (text +:+ after) in Hs.
        rewrite Hs in Hm.
        exact (method_pattern_complete text name after Ht Hm).
      * rewrite str_app_cons in Hs. injection Hs as <- Hs.
        apply (IH s before' text after name); [simpl in Hlen; lia|exact Hs|exact Ht].
Qed.

Lemma extracted_names_declared src name :
  name ∈ extract_methods src <-> declares src name.
Proof.
  rewrite extract_methods_elem. unfold declared_names, declares. split.
  - intros Hin. apply list_elem_of_fmap in Hin as (m & -> & Hin).
    apply finditer_from_place in Hin as (before & s' & -> & Hm).
    apply method_pattern_sound in Hm as (text & -> & Hdecl).
    exists before, text, (m_rest m). auto.
  - intros (before & text & after & -> & Ht).
    destruct (finditer_declarations _ _ before text after name (le_n _) eq_refl Ht)
      as (m & Hin & <-).
    apply list_elem_of_fmap_2. exact Hin.
Qed.

(** X12.  The names extracted from a source are exactly the names of
    the declarations in it: a name is in the list if and only if
    somewhere in the source stands [public], white space, optionally
    [static] and white space, a run of type characters, white space,
    that name as a run of word characters, optional white space and an
    opening parenthesis.  No declaration is lost to an earlier match
    that overlaps it. *)
Theorem extracted_names_are_the_declared (src name : string) :
  name ∈ extract_methods src
  <-> exists before text after,
        src = before +:+ text +:+ after /\ declaration_text text name.
Proof.
  rewrite extract_methods_elem. unfold declared_names. split.
  - (* a captured name was matched somewhere, on a declaration *)
    intros Hin. apply list_elem_of_fmap in Hin as (m & -> & Hin).
    apply finditer_from_place in Hin as (before & s' & -> & Hm).
    apply method_pattern_sound in Hm as (text & -> & Hdecl).
    exists before, text, (m_rest m). split; [reflexivity|exact Hdecl].
  - (* a declaration is covered by a match that captures its name *)
    intros (before & text & after & -> & Ht).
    destruct (finditer_declarations
                (String.length (before +:+ text +:+ after))
                (before +:+ text +:+ after) before text after name
                (le_n _) eq_refl Ht)
      as (m & Hin & <-).
    apply list_elem_of_fmap_2. exact Hin.
Qed.

(** X13.  On a source file that can be read, the answer is the message
    [No public methods found in <class>.] exactly when the source
    holds no declaration; when it holds one, the list of extracted
    names is not empty and the answer is the skeleton built from it. *)
Theorem no_methods_message_iff (E : env) (class_name src : string)
    (Hex : path_exists E (class_candidate E class_name) = true)
    (Hrd : read_latin1 E (class_candidate E class_name) = Ret src) :
  (suggest_junit_tests_for_class E class_name
   = Ret ("No public methods found in " +:+ class_name +:+ ".")
   <-> ~ exists name, declares src name)
  /\ ((exists name, declares src name) ->
      extract_methods src <> []
      /\ suggest_junit_tests_for_class E class_name
         = Ret (py_join nl (skeleton_lines class_name (extract_methods src)))).
Proof.
  rewrite (suggest_junit_on_source E class_name src Hex Hrd).
  destruct (extract_methods src) as [|name names] eqn:Hm.
  - assert (Hno : ~ exists name, declares src name).
    { intros (name & Hd).
      apply extracted_names_declared in Hd. rewrite Hm in Hd. inversion Hd. }
    split; [split; [intros _; exact Hno|reflexivity]|].
    intros Hsome. destruct (Hno Hsome).
  - split.
    + split.
      * intros Heq. exfalso. injection Heq as Heq.
        unfold skeleton_lines in Heq. cbn in Heq. discriminate Heq.
      * intros Hno. exfalso. apply Hno. exists name.
        apply extracted_names_declared. rewrite Hm. left.
    + intros _. split; [discriminate|reflexivity].
Qed.

Lemma no_methods_message_iff_witness :
  (suggest_junit_tests_for_class fields_env "Point"
   = Ret "No public methods found in Point."
   /\ ~ exists name, declares fields_java name)
  /\ ((exists name, declares overloads_java name)
      /\ suggest_junit_tests_for_class shape_env "Shape"
         = Ret (py_join nl (skeleton_lines "Shape" ["add"; "area"]))).
Proof.
  split.
  - assert (Hex : path_exists fields_env (class_candidate fields_env "Point") = true)
      by (vm_compute; reflexivity).
    assert (Hrd : read_latin1 fields_env (class_candidate fields_env "Point")
                  = Ret fields_java)
      by (vm_compute; reflexivity).
    assert (Hout : suggest_junit_tests_for_class fields_env "Point"
                   = Ret ("No public methods found in " +:+ "Point" +:+ "."))
      by (vm_compute; reflexivity).
    split; [exact Hout|].
    exact (proj1 (proj1 (no_methods_message_iff fields_env "Point" fields_java
                           Hex Hrd)) Hout).
  - assert (Hex : path_exists shape_env (class_candidate shape_env "Shape") = true)
      by (vm_compute; reflexivity).
    assert (Hrd : read_latin1 shape_env (class_candidate shape_env "Shape")
                  = Ret overloads_java)
      by (vm_compute; reflexivity).
    assert (Hm : extract_methods overloads_java = ["add"; "area"])
      by (vm_compute; reflexivity).
    assert (Hsome : exists name, declares overloads_java name).
    { exists "add". apply extracted_names_declared. rewrite Hm. left. }
    split; [exact Hsome|].
    destruct (proj2 (no_methods_message_iff shape_env "Shape" overloads_java
                       Hex Hrd) Hsome) as [_ Hout].
    rewrite Hm in Hout. exact Hout.
Defined.

(** ** The order of the test methods *)

Lemma skeleton_method_declarations class_name mname :
  filter (fun l => str_starts_with "    public void test_" l = true)
    (skeleton_method class_name mname)
  = [test_method_line mname].
Proof.
  unfold skeleton_method.
  rewrite filter_cons_False by (cbn; discriminate).
  rewrite filter_cons_True by (cbn; reflexivity).
  repeat (rewrite filter_cons_False by (cbn; discriminate)).
  reflexivity.
Qed.

Lemma skeleton_methods_declarations class_name methods :
  filter (fun l => str_starts_with "    public void test_" l = true)
    (concat (map (skeleton_method class_name) methods))
  = map test_method_line methods.
Proof.
  induction methods as [|m ms IH]; [reflexivity|].
  cbn [map concat]. rewrite filter_app, skeleton_method_declarations, IH.
  reflexivity.
Qed.

(** X17.  The test methods of the skeleton stand in the order of the
    sorted names: the lines of the answer that open a test method are,
    in order, [public void test_<name>() {] for the extracted names in
    ascending order, one for each name, whatever the order of the
    declarations in the source. *)
Theorem skeleton_tests_in_sorted_order (E : env) (class_name src : string)
    (Hex : path_exists E (class_candidate E class_name) = true)
    (Hrd : read_latin1 E (class_candidate E class_name) = Ret src)
    (Hsome : extract_methods src <> []) :
  suggest_junit_tests_for_class E class_name
  = Ret (py_join nl (skeleton_lines class_name (extract_methods src)))
  /\ filter (fun l => str_starts_with "    public void test_" l = true)
       (skeleton_lines class_name (extract_methods src))
     = map (fun name => "    public void test_" +:+ name +:+ "() {")
         (extract_methods src)
  /\ StronglySorted String.le (extract_methods src)
  /\ NoDup (extract_methods src).
Proof.
  split; [|split; [|split]].
  - rewrite (suggest_junit_on_source E class_name src Hex Hrd).
    destruct (extract_methods src) eqn:Hm; [destruct Hsome; reflexivity|].
    reflexivity.
  - unfold skeleton_lines.
    rewrite !filter_app, skeleton_methods_declarations.
    repeat (rewrite filter_cons_False by (cbn; discriminate)).
    rewrite filter_nil, app_nil_r. reflexivity.
  - apply py_sorted_sorted.
  - apply extract_methods_NoDup.
Qed.

Lemma skeleton_tests_in_sorted_order_witness :
  filter (fun l => str_starts_with "    public void test_" l = true)
    (skeleton_lines "Shape" ["add"; "area"])
  = ["    public void test_add() {"; "    public void test_area() {"].
Proof.
  assert (Hex : path_exists shape_env (class_candidate shape_env "Shape") = true)
    by (vm_compute; reflexivity).
  assert (Hrd : read_latin1 shape_env (class_candidate shape_env "Shape")
                = Ret overloads_java)
    by (vm_compute; reflexivity).
  assert (Hm : extract_methods overloads_java = ["add"; "area"])
    by (vm_compute; reflexivity).
  assert (Hsome : extract_methods overloads_java <> [])
    by (rewrite Hm; discriminate).
  destruct (skeleton_tests_in_sorted_order shape_env "Shape" overloads_java
              Hex Hrd Hsome) as (_ & Hlines & _).
  rewrite Hm in Hlines. exact Hlines.
Defined.

(** ** The layout on a POSIX host *)

(** X18.  Where the tools look on a POSIX host.  The code base is the
    directory [codebase] in the directory of the module (with no
    separator added when that directory is empty, as for a module
    loaded from the working directory, or ends with a separator); the
    two report candidates are [target/site/jacoco/jacoco.xml] and
    [target/jacoco.xml] in it, and the source of a class whose name
    opens with neither a dot nor a slash is its package path under
    [src/main/java] in it. *)
Theorem posix_layout (E : env)
    (Hjoin : path_join E = posix_join) (Hsep : os_sep E = "/") :
  CODEBASE_DIR E = posix_codebase (module_dir E)
  /\ jacoco_candidates E
     = [ posix_codebase (module_dir E) +:+ "/target/site/jacoco/jacoco.xml";
         posix_codebase (module_dir E) +:+ "/target/jacoco.xml" ]
  /\ (forall class_name,
        str_starts_with_char "."%char class_name = false ->
        str_starts_with_char "/"%char class_name = false ->
        class_candidate E class_name
        = posix_codebase (module_dir E) +:+ "/src/main/java/"
          +:+ str_replace_char "."%char "/" class_name +:+ ".java").
Proof.
  assert (Hbase : CODEBASE_DIR E = posix_codebase (module_dir E)).
  { unfold CODEBASE_DIR, PROJECT_ROOT, posix_codebase. rewrite Hjoin.
    cbn [posix_join]. change (str_starts_with_char "/" "codebase") with false.
    cbv iota.
    destruct (String.eqb (module_dir E) "" || str_ends_with_char "/" (module_dir E));
      reflexivity. }
  assert (Hform : exists dir, posix_codebase (module_dir E) = dir +:+ "e").
  { unfold posix_codebase.
    destruct (String.eqb (module_dir E) "" || str_ends_with_char "/" (module_dir E)).
    - exists (module_dir E +:+ "codebas"). rewrite str_app_assoc. reflexivity.
    - exists (module_dir E +:+ "/codebas"). rewrite str_app_assoc. reflexivity. }
  destruct Hform as [dir Hdir].
  split; [exact Hbase|]. split.
  - change (jacoco_candidates E)
      with [ path_join E (CODEBASE_DIR E) ["target"; "site"; "jacoco"; "jacoco.xml"];
             path_join E (CODEBASE_DIR E) ["target"; "jacoco.xml"] ].
    rewrite Hjoin, Hbase, Hdir.
    rewrite !posix_join_step by reflexivity. cbn [posix_join].
    rewrite !str_app_assoc. reflexivity.
  - intros class_name Hdot Hslash.
    rewrite class_candidate_eq, Hjoin, Hsep, Hbase, Hdir.
    rewrite !posix_join_step
      by (reflexivity || (apply package_path_relative; assumption)).
    cbn [posix_join]. rewrite !str_app_assoc. reflexivity.
Qed.

Lemma posix_layout_witness :
  CODEBASE_DIR cwd_env = "codebase"
  /\ jacoco_candidates cwd_env
     = ["codebase/target/site/jacoco/jacoco.xml"; "codebase/target/jacoco.xml"]
  /\ class_candidate bare_env "org.example.Range"
     = "/srv/agent/codebase/src/main/java/org/example/Range.java".
Proof.
  destruct (posix_layout cwd_env eq_refl eq_refl) as (Hbase & Hcand & _).
  destruct (posix_layout bare_env eq_refl eq_refl) as (_ & _ & Hclass).
  split; [exact Hbase|]. split; [exact Hcand|].
  exact (Hclass "org.example.Range" eq_refl eq_refl).
Defined.
